(** * Dual-call inference orchestration: a shallow embedding

    The TypeScript sources embedded here are
    - [rebuild/production/backend/src/services/aiService.ts]
      (history manager, lorebook engine and its maintenance, prompt and
      request-body builders, retry executor, response extractor, and the
      inference pipeline that chains them),
    - [双API临时区/backend/{defaultPrompts,narrativeApi,parserApi,routes}.ts]
      (the two-call orchestrator and its prompts),

    - [双API临时区/frontend/hooks/useDualApi.ts] (the browser-side
      orchestrator).

    JavaScript strings are sequences of UTF-16 code units, numbers that
    count things are integers, dynamically typed values are a small
    inductive type, exceptions are an explicit sum, and everything that
    touches the outside world (HTTP, the history store, the logger, timers)
    is threaded through a state that records a trace of events. *)

From Stdlib Require Import ZArith String Ascii Lia Bool Sorted.
From stdpp Require Import base list gmap.

#[local] Set Warnings "-register-all".
#[local] Open Scope Z_scope.

(** ** JavaScript strings *)

Module JS.

(** A string is its list of UTF-16 code units. *)
Abbreviation jsstring := (list Z).

Fixpoint bytes_of (s : string) : list Z :=
  match s with
  | EmptyString => []
  | String a s' => Z.of_N (N_of_ascii a) :: bytes_of s'
  end.

Definition utf16_units (cp : Z) : jsstring :=
  if cp <? 65536 then [cp]
  else [55296 + (cp - 65536) / 1024; 56320 + (cp - 65536) mod 1024].

(** UTF-8 decoder: [cp] is the code point being assembled and [need] the
    number of continuation bytes still expected. *)
Fixpoint utf8_decode (bs : list Z) (cp : Z) (need : nat) : jsstring :=
  match bs with
  | [] => []
  | b :: r =>
      match need with
      | O =>
          if b <? 128 then b :: utf8_decode r 0 0
          else if b <? 224 then utf8_decode r (Z.land b 31) 1
          else if b <? 240 then utf8_decode r (Z.land b 15) 2
          else utf8_decode r (Z.land b 7) 3
      | S n =>
          let cp' := cp * 64 + Z.land b 63 in
          match n with
          | O => utf16_units cp' ++ utf8_decode r 0 0
          | S _ => utf8_decode r cp' n
          end
      end
  end.

(** The code units of a source literal. *)
Definition js (s : string) : jsstring := utf8_decode (bytes_of s) 0 0.

(** The same for literals that contain double quotes, written here as
    apostrophes (none of the embedded literals contains an apostrophe). *)
Definition jsq (s : string) : jsstring :=
  map (fun c => if c =? 39 then 34 else c) (js s).

Definition streq (a b : jsstring) : bool := bool_decide (a = b).

Fixpoint startsWith (s m : jsstring) : bool :=
  match m, s with
  | [], _ => true
  | _ :: _, [] => false
  | x :: m', c :: s' => (x =? c) && startsWith s' m'
  end.

(** [String.prototype.includes]. *)
Fixpoint includes (s m : jsstring) : bool :=
  match s with
  | [] => startsWith [] m
  | _ :: s' => startsWith s m || includes s' m
  end.

(** WhiteSpace and LineTerminator code units: what [\s] matches and what
    [trim] strips. *)
Definition isWhiteSpace (c : Z) : bool :=
  ((9 <=? c) && (c <=? 13)) || (c =? 32) || (c =? 160) || (c =? 5760)
  || ((8192 <=? c) && (c <=? 8202)) || (c =? 8232) || (c =? 8233)
  || (c =? 8239) || (c =? 8287) || (c =? 12288) || (c =? 65279).

Fixpoint trimStart (s : jsstring) : jsstring :=
  match s with
  | c :: s' => if isWhiteSpace c then trimStart s' else s
  | [] => []
  end.

Definition trim (s : jsstring) : jsstring :=
  rev (trimStart (rev (trimStart s))).

(** [s.substring(0, n)] for a non-negative integer [n]. *)
Definition substring0 (s : jsstring) (n : nat) : jsstring := take n s.

Definition isDigit (c : Z) : bool := (48 <=? c) && (c <=? 57).
Definition isAsciiLetter (c : Z) : bool :=
  ((65 <=? c) && (c <=? 90)) || ((97 <=? c) && (c <=? 122)).
Definition toAsciiLower (c : Z) : Z :=
  if (65 <=? c) && (c <=? 90) then c + 32 else c.

(** Decimal digits of a natural number, most significant first. *)
Fixpoint digits_fuel (fuel : nat) (n : Z) (acc : jsstring) : jsstring :=
  match fuel with
  | O => acc
  | S f =>
      let acc' := (48 + n mod 10) :: acc in
      if n <? 10 then acc' else digits_fuel f (n / 10) acc'
  end.

Definition digits (n : Z) : jsstring :=
  digits_fuel (S (Z.to_nat (Z.log2 n))) n [].

(** [String(n)] for an integer [n] (exact below 1e21). *)
Definition intToString (n : Z) : jsstring :=
  if n <? 0 then 45 :: digits (- n) else digits n.


Fixpoint span (p : Z -> bool) (s : jsstring) : jsstring * jsstring :=
  match s with
  | c :: s' => if p c then let '(a, b) := span p s' in (c :: a, b) else ([], s)
  | [] => ([], [])
  end.

Fixpoint join (sep : jsstring) (parts : list jsstring) : jsstring :=
  match parts with
  | [] => []
  | [x] => x
  | x :: rest => x ++ sep ++ join sep rest
  end.

(** ** JavaScript values *)

(** A number is kept as the exact decimal [num_mant * 10 ^ num_exp] that
    its literal denotes; the rounding of long literals to the nearest
    double is not modelled. *)
Record jsnum := Num { num_mant : Z; num_exp : Z }.

Inductive jsval :=
| JUndefined
| JNull
| JBool (b : bool)
| JNumber (n : jsnum)
| JString (s : jsstring)
| JArray (items : list jsval)
| JObject (props : list (jsstring * jsval)).

Definition JInt (n : Z) : jsval := JNumber (Num n 0).

(** A number literal reads as zero when its mantissa is zero or when it
    lies at or below half the least subnormal, [2 ^ -1075]. *)
Definition num_is_zero (n : jsnum) : bool :=
  (num_mant n =? 0)
  || ((num_exp n <? 0)
      && (Z.abs (num_mant n) * 2 ^ 1075 <=? 10 ^ (- num_exp n))).

(** ToBoolean. *)
Definition truthy (v : jsval) : bool :=
  match v with
  | JUndefined | JNull => false
  | JBool b => b
  | JNumber n => negb (num_is_zero n)
  | JString s => negb (streq s [])
  | JArray _ | JObject _ => true
  end.

Definition nullish (v : jsval) : bool :=
  match v with JUndefined | JNull => true | _ => false end.

(** [typeof v === 'object'] *)
Definition typeof_object (v : jsval) : bool :=
  match v with JNull | JArray _ | JObject _ => true | _ => false end.

(** [a || b] *)
Definition js_or (a b : jsval) : jsval := if truthy a then a else b.

Fixpoint obj_lookup (props : list (jsstring * jsval)) (k : jsstring) : option jsval :=
  match props with
  | [] => None
  | (k', v) :: rest => if streq k' k then Some v else obj_lookup rest k
  end.

(** Defining a data property: an existing key keeps its place. *)
Fixpoint obj_set (props : list (jsstring * jsval)) (k : jsstring) (v : jsval)
  : list (jsstring * jsval) :=
  match props with
  | [] => [(k, v)]
  | (k', v') :: rest =>
      if streq k' k then (k', v) :: rest else (k', v') :: obj_set rest k v
  end.

(** The canonical array index a property name spells, if any. *)
Definition array_index (k : jsstring) : option nat :=
  match k with
  | [] => None
  | c :: r =>
      if forallb isDigit k && (negb (c =? 48) || streq r [])
      then Some (Z.to_nat (fold_left (fun a d => a * 10 + (d - 48)) k 0))
      else None
  end.

(** ** Exceptions *)

(** What the code reads off a caught error: [error.code],
    [error.message] and, for HTTP errors raised by axios,
    [error.response.status] and [error.response.data]. *)
Inductive JsError :=
  mkError (code message : option jsstring) (response : option (Z * jsval))
          (originalError : option JsError).

Definition err_code (e : JsError) := let 'mkError c _ _ _ := e in c.
Definition err_message (e : JsError) := let 'mkError _ m _ _ := e in m.
Definition err_response (e : JsError) := let 'mkError _ _ r _ := e in r.
Definition err_original (e : JsError) := let 'mkError _ _ _ o := e in o.

Inductive Ex (A : Type) :=
| Ok (a : A)
| Throw (e : JsError).
Arguments Ok {A} a.
Arguments Throw {A} e.

Definition TypeError (msg : string) : JsError :=
  mkError None (Some (js msg)) None None.
Definition SyntaxError (msg : string) : JsError :=
  mkError None (Some (js msg)) None None.

#[global] Instance Ex_bind : MBind Ex := fun A B f m =>
  match m with Ok a => f a | Throw e => Throw e end.
#[global] Instance Ex_ret : MRet Ex := fun A a => Ok a.
#[global] Instance Ex_fmap : FMap Ex := fun A B f m =>
  match m with Ok a => Ok (f a) | Throw e => Throw e end.

(** Property read [v.k] for the property names this code base uses (none
    of them is defined on a built-in prototype): own properties of
    objects, elements and [length] of arrays and strings; reading a
    property of [undefined] or [null] raises a TypeError.  The message of
    that error is the engine's and names the property and the value read;
    one fixed text stands for it here. *)
Definition get (v : jsval) (k : jsstring) : Ex jsval :=
  match v with
  | JUndefined | JNull =>
      Throw (TypeError "Cannot read properties of undefined or null")
  | JObject props => Ok (default JUndefined (obj_lookup props k))
  | JArray items =>
      if streq k (js "length") then Ok (JInt (Z.of_nat (length items)))
      else Ok (default JUndefined (i ← array_index k; items !! i))
  | JString s =>
      if streq k (js "length") then Ok (JInt (Z.of_nat (length s)))
      else Ok (default JUndefined (i ← array_index k; c ← s !! i; Some (JString [c])))
  | JBool _ | JNumber _ => Ok JUndefined
  end.

(** Optional chaining [v?.k]. *)
Definition get_opt (v : jsval) (k : jsstring) : Ex jsval :=
  if nullish v then Ok JUndefined else get v k.

(** ** [JSON.parse]

    A number is kept as the decimal that the text writes.  The engine
    rounds it to the nearest double, which is another number for an
    integer beyond 2^53 and for most fractions. *)

Definition isJsonWs (c : Z) : bool :=
  (c =? 9) || (c =? 10) || (c =? 13) || (c =? 32).

Definition skip_ws (s : jsstring) : jsstring := (span isJsonWs s).2.

Definition hex_digit (c : Z) : option Z :=
  if isDigit c then Some (c - 48)
  else if (97 <=? c) && (c <=? 102) then Some (c - 87)
  else if (65 <=? c) && (c <=? 70) then Some (c - 55)
  else None.

(** The single-character escapes: quote, backslash, slash, b, f, n, r, t. *)
Definition unescape (c : Z) : option Z :=
  if c =? 34 then Some 34
  else if c =? 92 then Some 92
  else if c =? 47 then Some 47
  else if c =? 98 then Some 8
  else if c =? 102 then Some 12
  else if c =? 110 then Some 10
  else if c =? 114 then Some 13
  else if c =? 116 then Some 9
  else None.

(** The characters of a string literal after its opening quote. *)
Fixpoint parse_string_body (s acc : jsstring) : option (jsstring * jsstring) :=
  match s with
  | [] => None
  | c :: r =>
      if c =? 34 then Some (rev acc, r)
      else if c =? 92 then
        match r with
        | [] => None
        | e :: r1 =>
            if e =? 117 then
              match r1 with
              | h1 :: h2 :: h3 :: h4 :: r2 =>
                  match hex_digit h1, hex_digit h2, hex_digit h3, hex_digit h4 with
                  | Some a, Some b, Some c', Some d =>
                      parse_string_body r2 ((((a * 16 + b) * 16 + c') * 16 + d) :: acc)
                  | _, _, _, _ => None
                  end
              | _ => None
              end
            else
              match unescape e with
              | Some x => parse_string_body r1 (x :: acc)
              | None => None
              end
        end
      else if c <? 32 then None
      else parse_string_body r (c :: acc)
  end.

Definition digits_value (ds : jsstring) : Z :=
  fold_left (fun a d => a * 10 + (d - 48)) ds 0.

(** A number token: optional minus, an integer part without leading
    zero, an optional fraction and an optional exponent. *)
Definition parse_number (s : jsstring) : option (jsnum * jsstring) :=
  let '(neg, s1) := match s with 45 :: r => (true, r) | _ => (false, s) end in
  let '(ip, s2) := match s1 with 48 :: r => ([48], r) | _ => span isDigit s1 end in
  match ip with
  | [] => None
  | _ =>
      let frac :=
        match s2 with
        | 46 :: r =>
            let '(fp, s3) := span isDigit r in
            match fp with [] => None | _ => Some (fp, s3) end
        | _ => Some ([], s2)
        end in
      '(fp, s3) ← frac;
      let expo :=
        match s3 with
        | c :: r =>
            if (c =? 101) || (c =? 69) then
              let '(eneg, r1) :=
                match r with
                | 45 :: r' => (true, r')
                | 43 :: r' => (false, r')
                | _ => (false, r)
                end in
              let '(ep, s4) := span isDigit r1 in
              match ep with
              | [] => None
              | _ => Some (if eneg : bool then - digits_value ep else digits_value ep, s4)
              end
            else Some (0, s3)
        | [] => Some (0, s3)
        end in
      '(e, s4) ← expo;
      let m := digits_value (ip ++ fp) in
      Some (Num (if neg : bool then - m else m) (e - Z.of_nat (length fp)), s4)
  end.

(** Recursive descent.  Every recursive call spends one unit of fuel.
    On any chain of calls, a step into a nested array or object accounts
    for two characters of the text (the opening and the closing bracket)
    and a step to the next sibling for two as well (the previous value
    and the comma), so a chain is never longer than the text, and the
    entry point supplies one unit more than the text has characters. *)
Fixpoint parse_value (fuel : nat) (s : jsstring) : option (jsval * jsstring) :=
  match fuel with
  | O => None
  | S f =>
      match skip_ws s with
      | [] => None
      | c :: r =>
          if c =? 123 then
            match skip_ws r with
            | 125 :: r' => Some (JObject [], r')
            | _ => parse_members f r []
            end
          else if c =? 91 then
            match skip_ws r with
            | 93 :: r' => Some (JArray [], r')
            | _ => parse_elements f r []
            end
          else if c =? 34 then
            '(str, r') ← parse_string_body r []; Some (JString str, r')
          else if startsWith (c :: r) (js "true") then Some (JBool true, drop 4 (c :: r))
          else if startsWith (c :: r) (js "false") then Some (JBool false, drop 5 (c :: r))
          else if startsWith (c :: r) (js "null") then Some (JNull, drop 4 (c :: r))
          else '(n, r') ← parse_number (c :: r); Some (JNumber n, r')
      end
  end
with parse_elements (fuel : nat) (s : jsstring) (acc : list jsval)
  : option (jsval * jsstring) :=
  match fuel with
  | O => None
  | S f =>
      '(v, r) ← parse_value f s;
      match skip_ws r with
      | 44 :: r' => parse_elements f r' (v :: acc)
      | 93 :: r' => Some (JArray (rev (v :: acc)), r')
      | _ => None
      end
  end
with parse_members (fuel : nat) (s : jsstring) (acc : list (jsstring * jsval))
  : option (jsval * jsstring) :=
  match fuel with
  | O => None
  | S f =>
      match skip_ws s with
      | 34 :: r0 =>
          '(k, r1) ← parse_string_body r0 [];
          match skip_ws r1 with
          | 58 :: r2 =>
              '(v, r3) ← parse_value f r2;
              match skip_ws r3 with
              | 44 :: r' => parse_members f r' (obj_set acc k v)
              | 125 :: r' => Some (JObject (obj_set acc k v), r')
              | _ => None
              end
          | _ => None
          end
      | _ => None
      end
  end.

Definition JSON_parse (text : jsstring) : Ex jsval :=
  match parse_value (S (length text)) text with
  | Some (v, rest) =>
      match skip_ws rest with
      | [] => Ok v
      | _ => Throw (SyntaxError "Unexpected non-whitespace character after JSON")
      end
  | None => Throw (SyntaxError "Unexpected token in JSON")
  end.

(** ** Conversions to strings *)

Fixpoint strip_zeros (fuel : nat) (m e : Z) : Z * Z :=
  match fuel with
  | O => (m, e)
  | S f => if (m mod 10 =? 0) && negb (m =? 0) then strip_zeros f (m / 10) (e + 1) else (m, e)
  end.

Definition zeros (n : Z) : jsstring := replicate (Z.to_nat n) 48.

(** [Number::toString] in base ten: [ds] are the significant digits,
    [k] their count and [n] the position of the decimal point. *)
Definition Number_toString (x : jsnum) : jsstring :=
  if num_is_zero x then js "0"
  else
    let '(m, e) := strip_zeros (S (Z.to_nat (Z.log2 (Z.abs (num_mant x)))))
                     (Z.abs (num_mant x)) (num_exp x) in
    let sign := if num_mant x <? 0 then [45] else [] in
    if (0 <=? e) && (2 ^ 1024 - 2 ^ 970 <=? m * 10 ^ e) then sign ++ js "Infinity"
    else
      let ds := digits m in
      let k := Z.of_nat (length ds) in
      let n := k + e in
      sign ++
      (if (k <=? n) && (n <=? 21) then ds ++ zeros (n - k)
       else if (0 <? n) && (n <=? 21) then
         take (Z.to_nat n) ds ++ [46] ++ drop (Z.to_nat n) ds
       else if (-6 <? n) && (n <=? 0) then js "0." ++ zeros (- n) ++ ds
       else
         let ex := [101] ++ (if n - 1 <? 0 then [45] else [43]) ++ digits (Z.abs (n - 1)) in
         match ds with
         | [d] => [d] ++ ex
         | d :: rest => [d] ++ [46] ++ rest ++ ex
         | [] => ex
         end).

(** ToString.  An object parsed from JSON is printed by
    [Object.prototype.toString] unless it shadows [toString] with a
    (necessarily non-callable) value of its own, in which case the
    conversion to a primitive fails. *)
Fixpoint ToString (v : jsval) : Ex jsstring :=
  match v with
  | JUndefined => Ok (js "undefined")
  | JNull => Ok (js "null")
  | JBool b => Ok (if b then js "true" else js "false")
  | JNumber n => Ok (Number_toString n)
  | JString s => Ok s
  | JArray items =>
      parts ← (fix go (l : list jsval) : Ex (list jsstring) :=
                 match l with
                 | [] => Ok []
                 | x :: r =>
                     s ← (if nullish x then Ok [] else ToString x);
                     rest ← go r;
                     Ok (s :: rest)
                 end) items;
      Ok (join [44] parts)
  | JObject props =>
      match obj_lookup props (js "toString") with
      | Some _ => Throw (TypeError "Cannot convert object to primitive value")
      | None => Ok (js "[object Object]")
      end
  end.

Definition hex_char (d : Z) : Z := if d <? 10 then 48 + d else 87 + d.

Definition u_escape (c : Z) : jsstring :=
  [92; 117; hex_char (c / 4096); hex_char (c / 256 mod 16);
   hex_char (c / 16 mod 16); hex_char (c mod 16)].

Definition isHighSurrogate (c : Z) : bool := (55296 <=? c) && (c <=? 56319).
Definition isLowSurrogate (c : Z) : bool := (56320 <=? c) && (c <=? 57343).

Fixpoint quote_body (s : jsstring) : jsstring :=
  match s with
  | [] => []
  | c :: r =>
      if isHighSurrogate c then
        match r with
        | d :: r' =>
            if isLowSurrogate d then c :: d :: quote_body r'
            else u_escape c ++ quote_body r
        | [] => u_escape c
        end
      else if isLowSurrogate c then u_escape c ++ quote_body r
      else if c =? 8 then [92; 98] ++ quote_body r
      else if c =? 9 then [92; 116] ++ quote_body r
      else if c =? 10 then [92; 110] ++ quote_body r
      else if c =? 12 then [92; 102] ++ quote_body r
      else if c =? 13 then [92; 114] ++ quote_body r
      else if c =? 34 then [92; 34] ++ quote_body r
      else if c =? 92 then [92; 92] ++ quote_body r
      else if c <? 32 then u_escape c ++ quote_body r
      else c :: quote_body r
  end.

Definition quote (s : jsstring) : jsstring := [34] ++ quote_body s ++ [34].

(** [JSON.stringify(v)] without indentation; [None] is [undefined]. *)
Fixpoint JSON_stringify (v : jsval) : option jsstring :=
  match v with
  | JUndefined => None
  | JNull => Some (js "null")
  | JBool b => Some (if b then js "true" else js "false")
  | JNumber n =>
      let s := Number_toString n in
      Some (if includes s (js "Infinity") then js "null" else s)
  | JString s => Some (quote s)
  | JArray items =>
      Some ([91] ++ join [44] (map (fun x => default (js "null") (JSON_stringify x)) items) ++ [93])
  | JObject props =>
      Some ([123]
            ++ join [44]
                 ((fix go (l : list (jsstring * jsval)) : list jsstring :=
                     match l with
                     | [] => []
                     | (k, x) :: r =>
                         match JSON_stringify x with
                         | Some sx => (quote k ++ [58] ++ sx) :: go r
                         | None => go r
                         end
                     end) props)
            ++ [125])
  end.

(** ** The regular expressions of the sources *)

Fixpoint skip (p : Z -> bool) (s : jsstring) : jsstring :=
  match s with
  | c :: s' => if p c then skip p s' else s
  | [] => []
  end.

(** Case-insensitive prefix test against a lower-case ASCII pattern. *)
Fixpoint startsWith_ci (s m : jsstring) : bool :=
  match m, s with
  | [], _ => true
  | _ :: _, [] => false
  | x :: m', c :: s' => (x =? toAsciiLower c) && startsWith_ci s' m'
  end.

Definition fence : jsstring := [96; 96; 96].

(** The shortest prefix of [s] that is followed by a closing fence: what
    the lazy group followed by three backticks captures. *)
Fixpoint before_fence (s : jsstring) : option jsstring :=
  match s with
  | [] => None
  | c :: r => if startsWith s fence then Some [] else cons c <$> before_fence r
  end.

(** Group 1 of the leftmost match of a fence opener [opener], white space,
    a lazy body and a closing fence. *)
Fixpoint match_fenced (ci : bool) (opener : jsstring) (s : jsstring) : option jsstring :=
  match s with
  | [] => None
  | _ :: r =>
      let here :=
        if (if ci then startsWith_ci s opener else startsWith s opener)
        then before_fence (skip isWhiteSpace (drop (length opener) s))
        else None in
      match here with
      | Some cap => Some cap
      | None => match_fenced ci opener r
      end
  end.

(** Group 1 of [content.match(/```json\s*([\s\S]*?)```/i)]. *)
Definition match_json_fence (content : jsstring) : option jsstring :=
  match_fenced true (fence ++ js "json") content.

(** Group 1 of [content.match(/```\s*([\s\S]*?)```/)]. *)
Definition match_any_fence (content : jsstring) : option jsstring :=
  match_fenced false fence content.

(** Group 1 of [content.match(/(\{[\s\S]*\})/)]: from the first opening
    brace to the last closing brace after it. *)
Definition match_braces (content : jsstring) : option jsstring :=
  match skip (fun c => negb (c =? 123)) content with
  | [] => None
  | b :: r =>
      match rev (skip (fun c => negb (c =? 125)) (rev r)) with
      | [] => None
      | t => Some (b :: t)
      end
  end.

(** Group 1 of [s.match(/第\s*(\d+)\s*回合/)]. *)
Fixpoint match_round_number (s : jsstring) : option jsstring :=
  match s with
  | [] => None
  | c :: r =>
      let here :=
        if c =? 31532 then
          let '(ds, r2) := span isDigit (skip isWhiteSpace r) in
          match ds with
          | [] => None
          | _ => if startsWith (skip isWhiteSpace r2) [22238; 21512] then Some ds else None
          end
        else None in
      match here with
      | Some ds => Some ds
      | None => match_round_number r
      end
  end.

(** The number of matches of [/[class]+/g]: maximal runs. *)
Fixpoint count_runs (p : Z -> bool) (inside : bool) (s : jsstring) : Z :=
  match s with
  | [] => 0
  | c :: r =>
      if p c then (if inside then 0 else 1) + count_runs p true r
      else count_runs p false r
  end.

Definition count_chars (p : Z -> bool) (s : jsstring) : Z :=
  Z.of_nat (length (filter (fun c => p c = true) s)).

End JS.
Export JS.

(** ** Effects

    Calls that leave the process are answered by an environment and
    recorded in a trace.  A request is recorded with its URL, its JSON
    body and its timeout (not its headers).  Progress messages
    ([logger.info], [console.log]) are not recorded; warnings and errors
    are, with the error text they carry. *)

Inductive Role := system | user | assistant.

#[global] Instance Role_eq_dec : EqDecision Role.
Proof. solve_decision. Defined.

Record ConversationMessage := Msg { role : Role; content : jsstring }.

Record HistoryRecord := {
  rec_sessionId : jsstring;
  rec_round : Z;
  rec_role : Role;
  rec_content : jsstring;
  rec_tokenCount : Z
}.

Inductive LogLevel := LWarn | LError.

Inductive event :=
| EvLog (level : LogLevel) (message : jsstring) (error : option jsstring)
| EvSleep (ms : Z)
| EvRequest (url : jsstring) (data : jsval) (timeout : Z)
| EvCreateMany (data : list HistoryRecord)
| EvFindMany (sessionId : jsstring) (gte lt : Z).

(** The outside world: the [n]-th HTTP request of a run is answered with
    the decoded response body or fails with an error; the history table
    answers [createMany] and [findMany]; [toLocaleString] formats a number
    for the locale of the host. *)
Record Env := {
  http : nat -> jsstring -> jsval -> Ex jsval;
  createMany : list HistoryRecord -> Ex Z;
  findMany : jsstring -> Z -> Z -> Ex (list ConversationMessage);
  toLocaleString : Z -> jsstring
}.

Definition M (A : Type) : Type := list event -> Ex A * list event.

#[global] Instance M_ret : MRet M := fun A a tr => (Ok a, tr).
#[global] Instance M_bind : MBind M := fun A B f m tr =>
  match m tr with
  | (Ok a, tr') => f a tr'
  | (Throw e, tr') => (Throw e, tr')
  end.

Definition throw {A} (e : JsError) : M A := fun tr => (Throw e, tr).
Definition emit (ev : event) : M unit := fun tr => (Ok tt, tr ++ [ev]).
Definition lift {A} (x : Ex A) : M A := fun tr => (x, tr).

(** [try { body } catch (error) { handler error }] *)
Definition try_catch {A} (body : M A) (handler : JsError -> M A) : M A :=
  fun tr =>
    match body tr with
    | (Ok a, tr') => (Ok a, tr')
    | (Throw e, tr') => handler e tr'
    end.

Definition is_request (ev : event) : bool :=
  match ev with EvRequest _ _ _ => true | _ => false end.

Definition http_request (env : Env) (url : jsstring) (data : jsval) (timeout : Z) : M jsval :=
  fun tr =>
    (http env (length (filter (fun ev => is_request ev = true) tr)) url data,
     tr ++ [EvRequest url data timeout]).

Definition sleeps (tr : list event) : list Z :=
  omap (fun ev => match ev with EvSleep ms => Some ms | _ => None end) tr.

Definition requests (tr : list event) : list event :=
  filter (fun ev => is_request ev = true) tr.

(** * aiService.ts *)

Module AIService.

Record HistoryConfig := {
  enabled : bool;
  maxRounds : Z;
  maxTokens : Z;
  summarizeOldRounds : bool
}.

(** [Partial<HistoryConfig>] *)
Record PartialHistoryConfig := {
  p_enabled : option bool;
  p_maxRounds : option Z;
  p_maxTokens : option Z;
  p_summarizeOldRounds : option bool
}.

Definition defaultHistoryConfig : HistoryConfig :=
  {| enabled := true; maxRounds := 10; maxTokens := 16000; summarizeOldRounds := true |}.

(** [{ ...this.defaultHistoryConfig, ...config }] *)
Definition mergeHistoryConfig (config : PartialHistoryConfig) : HistoryConfig :=
  {| enabled := default (enabled defaultHistoryConfig) (p_enabled config);
     maxRounds := default (maxRounds defaultHistoryConfig) (p_maxRounds config);
     maxTokens := default (maxTokens defaultHistoryConfig) (p_maxTokens config);
     summarizeOldRounds :=
       default (summarizeOldRounds defaultHistoryConfig) (p_summarizeOldRounds config) |}.

Definition isChinese (c : Z) : bool := (19968 <=? c) && (c <=? 40869).

(** [Math.ceil(chineseChars / 1.5 + englishWords + numbers)]; the three
    counts are integers, so the ceiling falls on the first summand. *)
Definition estimateTokenCount (text : jsstring) : Z :=
  if streq text [] then 0
  else
    let chineseChars := count_chars isChinese text in
    let englishWords := count_runs isAsciiLetter false text in
    let numbers := count_runs isDigit false text in
    (2 * chineseChars + 2) / 3 + englishWords + numbers.

Definition totalTokens (messages : list ConversationMessage) : Z :=
  fold_left (fun sum m => sum + estimateTokenCount (content m)) messages 0.

(** [messages.find(m => m.role === r)?.content || ''] *)
Definition contentOf (r : Role) (messages : list ConversationMessage) : jsstring :=
  match List.find (fun m => bool_decide (role m = r)) messages with
  | Some m => content m
  | None => []
  end.

Definition ellipsis : jsstring := js "...".

(** The body of the [try] block of [summarizeRound]. *)
Definition keyEventsOf (assistantContent : jsstring) : Ex jsstring :=
  match match_json_fence assistantContent with
  | Some cap =>
      parsed ← JSON_parse cap;
      events ← get parsed (js "events");
      keyEvents ←
        (match events with
         | JArray items =>
             parts ← (fix go (l : list jsval) : Ex (list jsstring) :=
                        match l with
                        | [] => Ok []
                        | e :: r =>
                            kw ← get e (js "keyword");
                            x ← (if truthy kw then Ok kw else get e (js "description"));
                            sx ← (if nullish x then Ok [] else ToString x);
                            rest ← go r;
                            Ok (sx :: rest)
                        end) (take 3 items);
             Ok (join (js "、") parts)
         | _ => Ok []
         end);
      narrative ← get parsed (js "narrative");
      if truthy narrative then
        if negb (streq keyEvents []) then Ok keyEvents
        else
          match narrative with
          | JString n => Ok (substring0 n 100 ++ ellipsis)
          | _ => Throw (TypeError "parsed.narrative.substring is not a function")
          end
      else Ok keyEvents
  | None => Ok []
  end.

Definition summarizeRound (messages : list ConversationMessage) : jsstring :=
  let userContent := contentOf user messages in
  let assistantContent := contentOf assistant messages in
  let roundNum := default (js "?") (match_round_number userContent) in
  let keyEvents :=
    match keyEventsOf assistantContent with
    | Ok k => k
    | Throw _ => substring0 assistantContent 100 ++ ellipsis
    end in
  js "第" ++ roundNum ++ js "回合: " ++ keyEvents.

(** The grouping loop of [compressHistory]: a round is closed by each
    assistant message; what is left over forms a last round. *)
Fixpoint groupRounds (messages currentRoundMessages : list ConversationMessage)
  : list (list ConversationMessage) :=
  match messages with
  | [] =>
      match currentRoundMessages with
      | [] => []
      | _ => [currentRoundMessages]
      end
  | msg :: rest =>
      match role msg with
      | assistant => (currentRoundMessages ++ [msg]) :: groupRounds rest []
      | _ => groupRounds rest (currentRoundMessages ++ [msg])
      end
  end.

(** The double nearest to 0.7 is [seventyPercent / 2 ^ 53]. *)
Definition seventyPercent : Z := 6305039478318694.

(** [maxTokens * 0.7] as the host computes it, in IEEE-754 double
    arithmetic, times [2 ^ 53]: the exact product of [maxTokens] and the
    double nearest to 0.7 is rounded to 53 significant bits, to the
    nearest, ties to even.  [maxTokens] is an integer that a double holds
    exactly; [ulp] is the unit in the last place of the rounded product,
    times [2 ^ 53]. *)
Definition timesSeventyPercent (maxTokens : Z) : Z :=
  let exact := Z.abs maxTokens * seventyPercent in
  let ulp := 2 ^ Z.max 0 (Z.log2 exact - 52) in
  let q := exact / ulp in
  let r := exact mod ulp in
  let up := (ulp <? 2 * r) || ((ulp =? 2 * r) && Z.odd q) in
  Z.sgn maxTokens * ((if up then q + 1 else q) * ulp).

(** [currentTokens + roundTokens <= maxTokens * 0.7]: the token counts
    are integers, the product is the double above (90 * 0.7 is
    62.99999999999999, so that 63 tokens do not fit 90). *)
Definition withinBudget (tokens maxTokens : Z) : bool :=
  tokens * 2 ^ 53 <=? timesSeventyPercent maxTokens.

Record CompressState := {
  result : list ConversationMessage;
  currentTokens : Z;
  summaries : list jsstring
}.

(** One iteration of the backward loop over the rounds. *)
Definition compressStep (maxTokens : Z) (st : CompressState)
  (roundMessages : list ConversationMessage) : CompressState :=
  let roundTokens := totalTokens roundMessages in
  if withinBudget (currentTokens st + roundTokens) maxTokens then
    {| result := roundMessages ++ result st;
       currentTokens := currentTokens st + roundTokens;
       summaries := summaries st |}
  else
    {| result := result st;
       currentTokens := currentTokens st;
       summaries := summarizeRound roundMessages :: summaries st |}.

Definition compressHistory (messages : list ConversationMessage) (maxTokens : Z)
  : list ConversationMessage :=
  let rounds := groupRounds messages [] in
  let st := fold_left (compressStep maxTokens) (rev rounds)
              {| result := []; currentTokens := 0; summaries := [] |} in
  match summaries st with
  | [] => result st
  | _ =>
      Msg system (js "【历史回合摘要】
" ++ join [10] (summaries st)) :: result st
  end.

(** ** Lorebook *)

Inductive Category := entity | event_cat | rule | relationship | world.

Record LorebookEntry := {
  id : jsstring;
  keywords : list jsstring;
  lore_content : jsstring;
  priority : Z;
  lore_enabled : bool;
  category : Category;
  maxActivations : option Z;
  activationCount : option Z
}.

#[global] Instance Category_eq_dec : EqDecision Category.
Proof. solve_decision. Defined.
#[global] Instance LorebookEntry_eq_dec : EqDecision LorebookEntry.
Proof. solve_decision. Defined.

Definition activate (entry : LorebookEntry) : LorebookEntry :=
  {| id := id entry; keywords := keywords entry; lore_content := lore_content entry;
     priority := priority entry; lore_enabled := lore_enabled entry;
     category := category entry; maxActivations := maxActivations entry;
     activationCount := Some (default 0 (activationCount entry) + 1) |}.

(** The decision taken for one entry by the scanning loop of
    [getTriggeredLoreEntries]: [true] when the entry is pushed and its
    counter incremented. *)
Definition fires (promptContent : jsstring) (entry : LorebookEntry) : bool :=
  if negb (lore_enabled entry) then false
  else
    let isTriggered := existsb (fun keyword => includes promptContent keyword) (keywords entry) in
    if isTriggered then
      match maxActivations entry with
      | Some m =>
          if negb (m =? 0) && (m <=? default 0 (activationCount entry)) then false
          else true
      | None => true
      end
    else false.

(** The scanning loop: the entries after the scan and the triggered ones,
    in scan order. *)
Fixpoint scanEntries (promptContent : jsstring) (entries : list LorebookEntry)
  : list LorebookEntry * list LorebookEntry :=
  match entries with
  | [] => ([], [])
  | entry :: rest =>
      let '(rest', triggered) := scanEntries promptContent rest in
      if fires promptContent entry
      then (activate entry :: rest', activate entry :: triggered)
      else (entry :: rest', triggered)
  end.

(** [triggeredEntries.sort((a, b) => b.priority - a.priority)]: a stable
    sort by descending priority.  The entries are inserted from the last
    to the first, each in front of the first entry whose priority is not
    higher, so that entries of equal priority keep their order. *)
Fixpoint insertByPriority (e : LorebookEntry) (sorted : list LorebookEntry) : list LorebookEntry :=
  match sorted with
  | [] => [e]
  | x :: rest =>
      if priority x <=? priority e then e :: sorted
      else x :: insertByPriority e rest
  end.

Definition sortByPriority (entries : list LorebookEntry) : list LorebookEntry :=
  foldr insertByPriority [] entries.

(** The assembly loop, which stops at the first entry that does not fit. *)
Fixpoint assemble (maxTokens : Z) (triggered : list LorebookEntry)
  (loreContent : jsstring) (currentTokens : Z) : jsstring :=
  match triggered with
  | [] => loreContent
  | entry :: rest =>
      let entryTokens := estimateTokenCount (lore_content entry) in
      if maxTokens <? currentTokens + entryTokens then loreContent
      else assemble maxTokens rest
             (loreContent ++ [10] ++ lore_content entry ++ [10])
             (currentTokens + entryTokens)
  end.

(** The cache that [AIService] keeps per session is threaded explicitly:
    the function returns the injected text and the cache after the scan. *)
Definition getTriggeredLoreEntries (lorebookCache : gmap (list Z) (list LorebookEntry))
  (sessionId promptContent : jsstring) (maxTokens : Z)
  : jsstring * gmap (list Z) (list LorebookEntry) :=
  match lorebookCache !! sessionId with
  | None | Some [] => ([], lorebookCache)
  | Some entries =>
      let '(entries', triggeredEntries) := scanEntries promptContent entries in
      let cache' := <[sessionId := entries']> lorebookCache in
      match triggeredEntries with
      | [] => ([], cache')
      | _ =>
          let header := js "【Lorebook 背景知识】
" in
          (assemble maxTokens (sortByPriority triggeredEntries) header
             (estimateTokenCount header), cache')
      end
  end.

(** ** Response extractor *)

(** The own enumerable properties copied by an object spread. *)
Definition ownProps (v : jsval) : list (jsstring * jsval) :=
  match v with
  | JObject props => props
  | JArray items => imap (fun i x => (intToString (Z.of_nat i), x)) items
  | JString s => imap (fun i c => (intToString (Z.of_nat i), JString [c])) s
  | _ => []
  end.

(** [{ ...props, ...v }].  The properties are listed in the order in
    which they were first set.  An engine lists the keys that are array
    indices ahead of the others, in ascending order; the two orders agree
    on an object none of whose keys is an index. *)
Definition spread (props : list (jsstring * jsval)) (v : jsval) : list (jsstring * jsval) :=
  fold_left (fun acc kv => obj_set acc kv.1 kv.2) (ownProps v) props.

Fixpoint mapi_ex {A B} (f : nat -> A -> Ex B) (i : nat) (l : list A) : Ex (list B) :=
  match l with
  | [] => Ok []
  | x :: r => y ← f i x; ys ← mapi_ex f (S i) r; Ok (y :: ys)
  end.

Definition mapEntityPanelsToOutcomes (panels : jsval) : Ex jsval :=
  match panels with
  | JArray items =>
      JArray <$> mapi_ex (fun index panel =>
        broken ← get panel (js "broken");
        name ← get panel (js "name");
        cash ← get panel (js "cash");
        outcome ←
          (if truthy broken then
             n ← ToString name;
             reason ← get panel (js "bankruptReason");
             r ← ToString (js_or reason (JString (js "现金流断裂")));
             Ok (n ++ js " 已破产: " ++ r)
           else
             n ← ToString name;
             c ← ToString cash;
             Ok (n ++ js " 当前现金: " ++ c));
        attributes ← get panel (js "attributes");
        passiveIncome ← get panel (js "passiveIncome");
        passiveExpense ← get panel (js "passiveExpense");
        Ok (JObject
              [(js "playerIndex", JInt (Z.of_nat index));
               (js "outcome", JString outcome);
               (js "resources",
                JObject (obj_set (obj_set (spread [(js "cash", cash)] attributes)
                                    (js "passiveIncome") passiveIncome)
                           (js "passiveExpense") passiveExpense))])) 0%nat items
  | _ => Ok (JArray [])
  end.

Definition mapTurnEvents (events : jsval) : Ex jsval :=
  match events with
  | JArray items =>
      JArray <$> mapi_ex (fun _ event =>
        type ← get event (js "type");
        description ← get event (js "description");
        keyword ← get event (js "keyword");
        Ok (JObject
              [(js "type", js_or type (JString (js "neutral")));
               (js "description", js_or (js_or description keyword) (JString []))])) 0%nat items
  | _ => Ok (JArray [])
  end.

Definition jsonPatterns : list (jsstring -> option jsstring) :=
  [match_json_fence; match_any_fence; match_braces].

(** The body of the [try] block for one pattern whose group 1 is [cap]:
    [Ok (Some r)] returns [r] from the function, [Ok None] falls through
    to the next pattern. *)
Definition tryParsed (content cap : jsstring) : Ex (option jsval) :=
  parsed ← JSON_parse (trim cap);
  if truthy parsed && typeof_object parsed then
    narrative ← get parsed (js "narrative");
    panels ← get parsed (js "perEntityPanel");
    outcomes ← mapEntityPanelsToOutcomes panels;
    events ← get parsed (js "events");
    mapped ← mapTurnEvents events;
    hints ← get parsed (js "nextRoundHints");
    Ok (Some (JObject (spread [(js "narrative", js_or narrative (JString content));
                               (js "outcomes", outcomes);
                               (js "events", mapped);
                               (js "nextRoundHints", hints)] parsed)))
  else Ok None.

Fixpoint parseWithPatterns (patterns : list (jsstring -> option jsstring))
  (content : jsstring) : jsval :=
  match patterns with
  | [] =>
      JObject [(js "narrative", JString content);
               (js "outcomes", JArray []);
               (js "events", JArray [])]
  | pattern :: rest =>
      match pattern content with
      | Some cap =>
          if streq cap [] then parseWithPatterns rest content
          else
            match tryParsed content cap with
            | Ok (Some r) => r
            | Ok None | Throw _ => parseWithPatterns rest content
            end
      | None => parseWithPatterns rest content
      end
  end.

Definition parseNarrativeResponse (content : jsstring) : Ex jsval :=
  Ok (parseWithPatterns jsonPatterns content).

Definition narrativeOnly (s : jsstring) : jsval := JObject [(js "narrative", JString s)].

(** [JSON.stringify(data)] used as a string; [undefined] stays
    [undefined]. *)
Definition stringified (data : jsval) : jsval :=
  match JSON_stringify data with Some s => JString s | None => JUndefined end.

Definition parseResponse (data : jsval) (provider : jsstring) : Ex jsval :=
  match data with
  | JUndefined =>
      (* the preview logged first is [JSON.stringify(data).substring(0, 1000)] *)
      Throw (TypeError "Cannot read properties of undefined (reading 'substring')")
  | JString s => Ok (narrativeOnly s)
  | JNull | JBool _ | JNumber _ =>
      Ok (JObject [(js "narrative", stringified data)])
  | JArray _ | JObject _ =>
      let obj := data in
      known ←
        (if streq provider (js "openai") || streq provider (js "deepseek")
            || streq provider (js "default")
         then
           choices ← get obj (js "choices");
           fromChoices ←
             (match choices with
              | JArray (choice :: _) =>
                  message ← get choice (js "message");
                  if truthy message && typeof_object message then
                    content ← get message (js "content");
                    match content with
                    | JString c =>
                        if truthy content then Some <$> parseNarrativeResponse c else Ok None
                    | _ => Ok None
                    end
                  else Ok None
              | _ => Ok None
              end);
           match fromChoices with
           | Some r => Ok (Some r)
           | None =>
               res ← get obj (js "result");
               if truthy res then Ok (Some res)
               else
                 narrative ← get obj (js "narrative");
                 outcomes ← get obj (js "outcomes");
                 if truthy narrative || truthy outcomes then Ok (Some obj) else Ok None
           end
         else Ok None);
      match known with
      | Some r => Ok r
      | None =>
          content ← get obj (js "content");
          match content with
          | JString c =>
              if truthy content then parseNarrativeResponse c
              else Ok (JObject [(js "narrative", stringified data)])
          | _ => Ok (JObject [(js "narrative", stringified data)])
          end
      end
  end.

(** [messages.map(msg => ({ sessionId, round, role, content, tokenCount }))] *)
Definition historyRecords (sessionId : jsstring) (round : Z)
  (messages : list ConversationMessage) : list HistoryRecord :=
  map (fun msg =>
         {| rec_sessionId := sessionId; rec_round := round;
            rec_role := role msg; rec_content := content msg;
            rec_tokenCount := estimateTokenCount (content msg) |}) messages.

Section WithEnv.
Variable env : Env.

Definition saveConversationHistory (sessionId : jsstring) (round : Z)
  (messages : list ConversationMessage) : M unit :=
  try_catch
    (let records := historyRecords sessionId round messages in
     _ ← emit (EvCreateMany records);
     _ ← lift (createMany env records);
     mret tt)
    (fun error =>
       emit (EvLog LError (js "Failed to save conversation history") (err_message error))).

Definition getConversationHistory (sessionId : jsstring) (currentRound : Z)
  (config : PartialHistoryConfig) : M (list ConversationMessage) :=
  let historyConfig := mergeHistoryConfig config in
  if negb (enabled historyConfig) then mret []
  else
    try_catch
      (let minRound := Z.max 1 (currentRound - maxRounds historyConfig) in
       _ ← emit (EvFindMany sessionId minRound currentRound);
       history ← lift (findMany env sessionId minRound currentRound);
       match history with
       | [] => mret []
       | _ =>
           let messages := history in
           if (maxTokens historyConfig <? totalTokens messages)
              && summarizeOldRounds historyConfig
           then mret (compressHistory messages (maxTokens historyConfig))
           else mret messages
       end)
      (fun error =>
         _ ← emit (EvLog LError (js "Failed to get conversation history") (err_message error));
         mret []).

(** ** Retry executor *)

Record AIConfig := {
  provider : option jsstring;
  endpoint : option jsstring
}.

Definition defaultRetries : Z := 5.
Definition defaultTimeout : Z := 120000.

Definition hasCode (error : JsError) (c : string) : bool :=
  bool_decide (err_code error = Some (js c)).

(** [error.message?.includes(s)] *)
Definition messageIncludes (error : JsError) (s : string) : bool :=
  match err_message error with
  | Some m => includes m (js s)
  | None => false
  end.

Definition isNetworkError (error : JsError) : bool :=
  existsb (hasCode error) ["ECONNRESET"; "EPIPE"; "EPROTO"; "ETIMEDOUT"; "ECONNREFUSED"]%string
  || messageIncludes error "socket"
  || messageIncludes error "TLS".

(** [Math.min(baseDelay * Math.pow(2, attempt - 1), 30000)] *)
Definition retryDelay (error : JsError) (attempt : Z) : Z :=
  let baseDelay := if isNetworkError error then 3000 else 1000 in
  Z.min (baseDelay * 2 ^ (attempt - 1)) 30000.

(** [x || 'Unknown error'] for an optional string. *)
Definition orUnknown (m : option jsstring) : jsstring :=
  match m with
  | Some (c :: r) => c :: r
  | _ => js "Unknown error"
  end.

(** The message attached to the warning of a failed attempt. *)
Definition errorMessageOf (error : JsError) : jsstring :=
  match err_response error with
  | Some (status, data) =>
      if status =? 401 then js "API密钥无效或已过期，请检查Authorization头配置"
      else if status =? 404 then js "API端点不存在，请检查endpoint配置"
      else if status =? 429 then js "API调用频率超限，请稍后重试"
      else if 500 <=? status then
        js "API服务器错误 (" ++ intToString status ++ js ")，请稍后重试"
      else
        js "API请求失败 (" ++ intToString status ++ js "): "
        ++ default (js "undefined") (JSON_stringify data)
  | None =>
      if hasCode error "ECONNREFUSED" || hasCode error "ENOTFOUND" then
        js "无法连接到API服务器，请检查endpoint地址和网络连接"
      else if hasCode error "ETIMEDOUT" then js "连接超时，请检查网络或增加超时时间"
      else if hasCode error "ECONNRESET" then
        js "网络连接被重置，可能是网络不稳定或代理问题，正在重试..."
      else if hasCode error "EPIPE" || hasCode error "EPROTO" then
        js "TLS/SSL连接异常，可能是网络环境问题"
      else if messageIncludes error "socket" || messageIncludes error "TLS" then
        js "网络socket连接异常，可能是网络不稳定"
      else orUnknown (err_message error)
  end.

(** [config.provider || 'default'] *)
Definition orDefault (p : option jsstring) : jsstring :=
  match p with
  | Some (c :: r) => c :: r
  | _ => js "default"
  end.

Definition finalError (retries : Z) (lastError : option JsError) : JsError :=
  mkError None
    (Some (js "AI API调用失败（已重试" ++ intToString retries ++ js "次）: "
           ++ orUnknown (lastError ≫= err_message)))
    None lastError.

(** [logger.warn] of a failed attempt. *)
Definition failWarning (retries attempt : Z) (error : JsError) : event :=
  EvLog LWarn
    (js "AI API call failed (attempt " ++ intToString attempt ++ [47]
     ++ intToString retries ++ js "): " ++ errorMessageOf error)
    (err_message error).

(** The [try] block of one attempt: the request and the extraction. *)
Definition attemptOnce (url prov : jsstring) (requestBody : jsval) (timeout : Z) : M jsval :=
  data ← http_request env url requestBody timeout;
  lift (parseResponse data prov).

(** The retry loop of [callAI]; [fuel] counts the iterations left. *)
Fixpoint callAI_loop (url : jsstring) (prov : jsstring) (requestBody : jsval)
  (timeout retries : Z) (fuel : nat) (attempt : Z) (lastError : option JsError)
  : M jsval :=
  match fuel with
  | O => throw (finalError retries lastError)
  | S f =>
      try_catch (attemptOnce url prov requestBody timeout)
        (fun error =>
           _ ← emit (failWarning retries attempt error);
           _ ← (if attempt <? retries
                then emit (EvSleep (retryDelay error attempt))
                else mret tt);
           callAI_loop url prov requestBody timeout retries f (attempt + 1) (Some error))
  end.

(** A body that asks for streaming is sent with [stream: false]. *)
Definition disableStreaming (requestBody : jsval) : jsval :=
  match get_opt requestBody (js "stream") with
  | Ok (JBool true) => JObject (obj_set (spread [] requestBody) (js "stream") (JBool false))
  | _ => requestBody
  end.

(** [requestBody.stream === true] *)
Definition isStreaming (requestBody : jsval) : bool :=
  match get_opt requestBody (js "stream") with
  | Ok (JBool true) => true
  | _ => false
  end.

(** [logger.warn] of a body that asked for streaming. *)
Definition streamWarning : event :=
  EvLog LWarn
    (js "Stream mode is enabled but backend doesn't support streaming yet. Setting stream=false for this request.")
    None.

(** [timeout || this.defaultTimeout] *)
Definition timeoutOrDefault (timeout : option Z) : Z :=
  match timeout with
  | Some t => if t =? 0 then defaultTimeout else t
  | None => defaultTimeout
  end.

(** [callAI].  The request body comes from [buildRequestBody], whose
    outcome is passed in as [built]. *)
Definition callAI (config : AIConfig) (built : Ex jsval) (retries : Z)
  (timeout : option Z) : M jsval :=
  match endpoint config with
  | Some (c :: r) =>
      requestBody ← lift built;
      _ ← (if isStreaming requestBody then emit streamWarning else mret tt);
      callAI_loop (c :: r) (orDefault (provider config)) (disableStreaming requestBody)
        (timeoutOrDefault timeout) retries (Z.to_nat retries) 1 None
  | _ => throw (mkError None (Some (js "AI API endpoint not configured")) None None)
  end.

(** The events of [callAI] ahead of its first attempt. *)
Definition streamNotice (requestBody : jsval) : list event :=
  if isStreaming requestBody then [streamWarning] else [].

(** What the [k]-th request of a run (counting from 0) leads to: the
    extracted result, or the error that the attempt fails with. *)
Definition attemptOutcome (url prov : jsstring) (requestBody : jsval) (k : nat) : Ex jsval :=
  data ← http env k url requestBody; parseResponse data prov.

(** The events of a failed attempt: the request, the warning, and the
    sleep when another attempt follows. *)
Definition failEvents (url : jsstring) (requestBody : jsval) (timeout retries : Z)
  (attempt : Z) (error : JsError) : list event :=
  [EvRequest url requestBody timeout; failWarning retries attempt error]
  ++ (if attempt <? retries then [EvSleep (retryDelay error attempt)] else []).

(** The events of [m] consecutive failed attempts, the first of which is
    attempt number [attempt] and fails with [errs 0]. *)
Fixpoint failedRun (url : jsstring) (requestBody : jsval) (timeout retries : Z)
  (m : nat) (attempt : Z) (errs : nat -> JsError) : list event :=
  match m with
  | O => []
  | S m' =>
      failEvents url requestBody timeout retries attempt (errs O)
      ++ failedRun url requestBody timeout retries m' (attempt + 1) (fun j => errs (S j))
  end.

(** ** Lorebook management *)

(** [InferenceRequest['gameInitData']]; the attributes are listed in the
    order in which [Object.entries] enumerates them. *)
Record Entity := {
  e_id : jsstring;
  e_name : jsstring;
  e_cash : option Z;
  e_attributes : option (list (jsstring * jsnum));
  e_passiveIncome : option Z;
  e_passiveExpense : option Z;
  e_backstory : option jsstring
}.

Record Hexagram := {
  h_name : jsstring;
  h_omen : jsstring;
  h_lines : option (list jsstring);
  h_text : jsstring;
  h_yearlyTheme : option jsstring
}.

Record GameInitData := {
  backgroundStory : option jsstring;
  entities : option (list Entity);
  yearlyHexagram : option Hexagram
}.

(** Truthiness of an optional string and of an optional amount. *)
Definition nonEmpty (x : option jsstring) : option jsstring :=
  match x with
  | Some (c :: r) => Some (c :: r)
  | _ => None
  end.

Definition nonZero (x : option Z) : option Z :=
  match x with
  | Some n => if n =? 0 then None else Some n
  | None => None
  end.

(** [entity.cash?.toLocaleString() || 0] inside a template. *)
Definition cashText (cash : option Z) : jsstring :=
  match cash with
  | Some c =>
      match toLocaleString env c with
      | [] => js "0"
      | s => s
      end
  | None => js "0"
  end.

Definition buildEntityLoreContent (entity : Entity) : jsstring :=
  js "【" ++ e_name entity ++ js "（" ++ e_id entity ++ js "）档案】
"
  ++ js "初始资金：¥" ++ cashText (e_cash entity) ++ [10]
  ++ match nonZero (e_passiveIncome entity) with
     | Some n => js "被动收入：+¥" ++ toLocaleString env n ++ js "/回合
"
     | None => []
     end
  ++ match nonZero (e_passiveExpense entity) with
     | Some n => js "被动支出：-¥" ++ toLocaleString env n ++ js "/回合
"
     | None => []
     end
  ++ match e_attributes entity with
     | Some attrs =>
         js "属性：" ++ join (js ", ") (map (fun kv => kv.1 ++ [61] ++ Number_toString kv.2) attrs)
         ++ [10]
     | None => []
     end
  ++ match nonEmpty (e_backstory entity) with
     | Some b => js "背景：" ++ b ++ [10]
     | None => []
     end.

(** [story.split(/\n\n+/)]: [inSeparator] holds while the line feeds of a
    separator are being consumed, [current] is the piece read so far. *)
Fixpoint splitParagraphs (inSeparator : bool) (current s : jsstring) : list jsstring :=
  match s with
  | [] => [current]
  | c :: r =>
      if inSeparator && (c =? 10) then splitParagraphs true current r
      else if (c =? 10) && startsWith r [10] then current :: splitParagraphs true [] r
      else splitParagraphs false (current ++ [c]) r
  end.

(** The opening marks 「 『 and the double quote; the closing marks 」 』
    and the double quote. *)
Definition isOpenQuote (c : Z) : bool := (c =? 12300) || (c =? 12302) || (c =? 34).
Definition isCloseQuote (c : Z) : bool := (c =? 12301) || (c =? 12303) || (c =? 34).

(** The matches of the quotation pattern with the flag [g], each without
    its first and last character ([m.slice(1, -1)]): an opening mark, one
    or more characters that are no closing mark, a closing mark.  [skip]
    counts the characters of the last match that are still to be passed. *)
Fixpoint quotedMatches (skip : nat) (s : jsstring) : list jsstring :=
  match s with
  | [] => []
  | c :: r =>
      match skip with
      | S k => quotedMatches k r
      | O =>
          let '(inner, rest) := span (fun x => negb (isCloseQuote x)) r in
          if isOpenQuote c && negb (streq inner [])
             && match rest with _ :: _ => true | [] => false end
          then inner :: quotedMatches (S (length inner)) r
          else quotedMatches 0 r
      end
  end.

Definition nameSuffixes : list jsstring :=
  [js "公司"; js "集团"; js "企业"; js "工业"; js "科技"; js "贸易"].

(** A match of the name pattern at the start of [s]: four, three or two
    Chinese characters (the longest run first) followed by one of the
    suffixes. *)
Definition nameMatchAt (s : jsstring) : option jsstring :=
  let attempt (k : nat) :=
    (length (take k s) =? k)%nat && forallb isChinese (take k s)
    && existsb (startsWith (drop k s)) nameSuffixes in
  if attempt 4%nat then Some (take 6 s)
  else if attempt 3%nat then Some (take 5 s)
  else if attempt 2%nat then Some (take 4 s)
  else None.

(** The matches of the name pattern with the flag [g]. *)
Fixpoint nameMatches (skip : nat) (s : jsstring) : list jsstring :=
  match s with
  | [] => []
  | c :: r =>
      match skip with
      | S k => nameMatches k r
      | O =>
          match nameMatchAt s with
          | Some m => m :: nameMatches (length m - 1) r
          | None => nameMatches 0 r
          end
      end
  end.

(** [[...new Set(keywords)]]: the first occurrence of each keyword, in
    order. *)
Fixpoint dedupe (seen l : list jsstring) : list jsstring :=
  match l with
  | [] => []
  | x :: r =>
      if bool_decide (x ∈ seen) then dedupe seen r else x :: dedupe (x :: seen) r
  end.

Definition segmentBackgroundStory (story : jsstring) : list (list jsstring * jsstring) :=
  let paragraphs :=
    List.filter (fun p => (50 <? length (trim p))%nat) (splitParagraphs false [] story) in
  map (fun paragraph =>
         (take 5 (dedupe [] (quotedMatches 0 paragraph ++ nameMatches 0 paragraph)),
          if (200 <? length paragraph)%nat then substring0 paragraph 200 ++ js "..."
          else paragraph))
    paragraphs.

Definition loreEntry (i : jsstring) (ks : list jsstring) (c : jsstring) (p : Z)
  (cat : Category) : LorebookEntry :=
  {| id := i; keywords := ks; lore_content := c; priority := p; lore_enabled := true;
     category := cat; maxActivations := None; activationCount := None |}.

Definition hexagramLore (hex : Hexagram) : jsstring :=
  js "【年度卦象：" ++ h_name hex ++ js "】
吉凶：" ++ h_omen hex ++ js "
象曰：" ++ h_text hex ++ [10]
  ++ match nonEmpty (h_yearlyTheme hex) with
     | Some t => js "年度主题：" ++ t
     | None => []
     end.

(** The entries generated from the initialisation data. *)
Definition generatedEntries (gameInitData : GameInitData) : list LorebookEntry :=
  match entities gameInitData with
  | Some es =>
      imap (fun index ent =>
              loreEntry (js "entity_" ++ e_id ent)
                [e_name ent; e_id ent; js "主体" ++ e_id ent]
                (buildEntityLoreContent ent) (100 - Z.of_nat index) entity)
        es
  | None => []
  end
  ++ match nonEmpty (backgroundStory gameInitData) with
     | Some story =>
         imap (fun index segment =>
                 loreEntry (js "story_" ++ intToString (Z.of_nat index))
                   segment.1 segment.2 (50 - Z.of_nat index) world)
           (segmentBackgroundStory story)
     | None => []
     end
  ++ match yearlyHexagram gameInitData with
     | Some hex =>
         [loreEntry (js "yearly_hexagram")
            [js "卦象"; js "周易"; h_name hex; js "年度"; js "运势"]
            (hexagramLore hex) 80 world]
     | None => []
     end.

(** [initializeLorebook]: the entries of the session are replaced. *)
Definition initializeLorebook (lorebookCache : gmap (list Z) (list LorebookEntry))
  (sessionId : jsstring) (gameInitData : option GameInitData)
  (customEntries : option (list LorebookEntry)) : gmap (list Z) (list LorebookEntry) :=
  let entries :=
    match gameInitData with Some d => generatedEntries d | None => [] end
    ++ default [] customEntries in
  <[sessionId := entries]> lorebookCache.

Definition addLorebookEntry (lorebookCache : gmap (list Z) (list LorebookEntry))
  (sessionId : jsstring) (entry : LorebookEntry) : gmap (list Z) (list LorebookEntry) :=
  <[sessionId := default [] (lorebookCache !! sessionId) ++ [entry]]> lorebookCache.

(** [clearConversationHistory].  The store's [deleteMany] is passed in;
    the lorebook of the session is dropped only after the store has
    answered. *)
Definition clearConversationHistory (deleteMany : jsstring -> Ex Z)
  (lorebookCache : gmap (list Z) (list LorebookEntry)) (sessionId : jsstring)
  : M (gmap (list Z) (list LorebookEntry)) :=
  try_catch
    (_ ← lift (deleteMany sessionId);
     mret (delete sessionId lorebookCache))
    (fun error =>
       _ ← emit (EvLog LError (js "Failed to clear conversation history") (err_message error));
       mret lorebookCache).

(** [extractAndAddLoreFromResult].  A keyword that is not a string is
    converted to one when the entry is stored (the code leaves the
    conversion to each later search, where it gives the same text). *)
Definition keywordsOf (values : list jsval) : Ex (list jsstring) :=
  (fix go (l : list jsval) : Ex (list jsstring) :=
     match l with
     | [] => Ok []
     | v :: r =>
         here ← (if truthy v then (s ← ToString v; Ok [s]) else Ok []);
         rest ← go r;
         Ok (here ++ rest)
     end) values.

(** The entry recorded for the event at position [index], if any. *)
Definition eventEntry (round : Z) (index : nat) (event : jsval) : Ex (option LorebookEntry) :=
  isLongTerm ← get event (js "isLongTerm");
  type ← get event (js "type");
  let important :=
    truthy isLongTerm
    || match type with
       | JString t => streq t (js "negative") || streq t (js "positive")
       | _ => false
       end in
  if important then
    keyword ← get event (js "keyword");
    description ← get event (js "description");
    short ←
      (if nullish description then Ok JUndefined
       else match description with
            | JString d => Ok (JString (substring0 d 10))
            | _ => Throw (TypeError "event.description?.substring is not a function")
            end);
    text ← ToString (js_or description keyword);
    ks ← keywordsOf [keyword; short];
    Ok (Some (loreEntry (js "event_r" ++ intToString round ++ [95] ++ intToString (Z.of_nat index))
                ks (js "【第" ++ intToString round ++ js "回合事件】" ++ text) 30 event_cat))
  else Ok None.

Definition achievementEntry (ach : jsval) : Ex LorebookEntry :=
  i ← get ach (js "id");
  si ← ToString i;
  title ← get ach (js "title");
  entityId ← get ach (js "entityId");
  se ← ToString entityId;
  st ← ToString title;
  description ← get ach (js "description");
  sd ← ToString description;
  ks ← keywordsOf [title; entityId];
  Ok (loreEntry (js "achievement_" ++ si) ks
        (js "【成就解锁】" ++ se ++ js ": " ++ st ++ js " - " ++ sd) 40 event_cat).

(** The two [forEach] loops: an exception leaves the entries added so
    far in the cache. *)
Fixpoint addEventEntries (lorebookCache : gmap (list Z) (list LorebookEntry))
  (sessionId : jsstring) (round : Z) (index : nat) (events : list jsval)
  : Ex unit * gmap (list Z) (list LorebookEntry) :=
  match events with
  | [] => (Ok tt, lorebookCache)
  | event :: rest =>
      match eventEntry round index event with
      | Ok (Some entry) =>
          addEventEntries (addLorebookEntry lorebookCache sessionId entry) sessionId round
            (S index) rest
      | Ok None => addEventEntries lorebookCache sessionId round (S index) rest
      | Throw e => (Throw e, lorebookCache)
      end
  end.

Fixpoint addAchievementEntries (lorebookCache : gmap (list Z) (list LorebookEntry))
  (sessionId : jsstring) (achievements : list jsval)
  : Ex unit * gmap (list Z) (list LorebookEntry) :=
  match achievements with
  | [] => (Ok tt, lorebookCache)
  | ach :: rest =>
      match achievementEntry ach with
      | Ok entry =>
          addAchievementEntries (addLorebookEntry lorebookCache sessionId entry) sessionId rest
      | Throw e => (Throw e, lorebookCache)
      end
  end.

Definition extractAndAddLoreFromResult (lorebookCache : gmap (list Z) (list LorebookEntry))
  (sessionId : jsstring) (round : Z) (result : jsval)
  : Ex unit * gmap (list Z) (list LorebookEntry) :=
  match get result (js "events") with
  | Throw e => (Throw e, lorebookCache)
  | Ok events =>
      let '(done, cache1) :=
        match events with
        | JArray items => addEventEntries lorebookCache sessionId round 0 items
        | _ => (Ok tt, lorebookCache)
        end in
      match done with
      | Throw e => (Throw e, cache1)
      | Ok _ =>
          match get result (js "achievements") with
          | Throw e => (Throw e, cache1)
          | Ok (JArray items) => addAchievementEntries cache1 sessionId items
          | Ok _ => (Ok tt, cache1)
          end
      end
  end.

(** ** Request body *)

(** The replacement text of [String.prototype.replace] for one match of
    a pattern without groups: [$$] is a dollar sign, [$&] the match,
    [$`] the text before it and [$'] the text after it; any other dollar
    sign stands for itself. *)
Fixpoint expandReplacement (matched before after replacement : jsstring) : jsstring :=
  match replacement with
  | [] => []
  | c :: r =>
      if c =? 36 then
        match r with
        | d :: r' =>
            if d =? 36 then 36 :: expandReplacement matched before after r'
            else if d =? 38 then matched ++ expandReplacement matched before after r'
            else if d =? 96 then before ++ expandReplacement matched before after r'
            else if d =? 39 then after ++ expandReplacement matched before after r'
            else 36 :: expandReplacement matched before after r
        | [] => [36]
        end
      else c :: expandReplacement matched before after r
  end.

(** [s.replace(/pattern/g, replacement)] for a pattern that is a fixed,
    non-empty text: [before] is what precedes the current position and
    [skip] counts the characters of the last match still to be passed. *)
Fixpoint replaceFrom (pattern replacement before rest : jsstring) (skip : nat) : jsstring :=
  match rest with
  | [] => []
  | c :: r =>
      match skip with
      | S k => replaceFrom pattern replacement (before ++ [c]) r k
      | O =>
          if startsWith rest pattern then
            expandReplacement pattern before (drop (length pattern) rest) replacement
            ++ replaceFrom pattern replacement (before ++ [c]) r (length pattern - 1)
          else c :: replaceFrom pattern replacement (before ++ [c]) r 0
      end
  end.

Definition replaceAll (pattern replacement s : jsstring) : jsstring :=
  replaceFrom pattern replacement [] s 0.

Definition promptPlaceholder : jsstring := Eval vm_compute in js "{{prompt}}".
Definition PROMPTPlaceholder : jsstring := Eval vm_compute in js "{{PROMPT}}".

(** The local function [replacePlaceholders].  The copy of an object is
    built by assignment, so a property named [__proto__] is not copied
    (the assignment sets the prototype of the copy instead, which is not
    modelled). *)
Fixpoint replacePlaceholders (prompt : jsstring) (obj : jsval) : jsval :=
  match obj with
  | JString s =>
      if streq s promptPlaceholder || streq s PROMPTPlaceholder then JString prompt
      else JString (replaceAll PROMPTPlaceholder prompt (replaceAll promptPlaceholder prompt s))
  | JArray items => JArray (map (replacePlaceholders prompt) items)
  | JObject props =>
      JObject
        ((fix go (l : list (jsstring * jsval)) : list (jsstring * jsval) :=
            match l with
            | [] => []
            | (key, value) :: rest =>
                if streq key (js "__proto__") then go rest
                else (key, replacePlaceholders prompt value) :: go rest
            end) props)
  | _ => obj
  end.

Definition roleName (r : Role) : jsstring :=
  match r with
  | system => js "system"
  | user => js "user"
  | assistant => js "assistant"
  end.

Definition messageJson (m : ConversationMessage) : jsval :=
  JObject [(js "role", JString (roleName (role m))); (js "content", JString (content m))].

(** [messages.findIndex(m => m.role === 'system')]; [None] is -1. *)
Fixpoint findSystemIndex (messages : list jsval) : Ex (option nat) :=
  match messages with
  | [] => Ok None
  | m :: rest =>
      r ← get m (js "role");
      let later := (i ← findSystemIndex rest; Ok (option_map S i)) in
      match r with
      | JString s => if streq s (js "system") then Ok (Some 0%nat) else later
      | _ => later
      end
  end.

(** The insertion of the history into [result.messages]. *)
Definition insertHistory (result : jsval) (historyMessages : list ConversationMessage)
  : Ex jsval :=
  match historyMessages with
  | [] => Ok result
  | _ :: _ =>
      messages ← get result (js "messages");
      match messages, result with
      | JArray items, JObject props =>
          systemIndex ← findSystemIndex items;
          let insertIndex := match systemIndex with Some i => S i | None => 0%nat end in
          Ok (JObject (obj_set props (js "messages")
                         (JArray (take insertIndex items
                                  ++ map messageJson historyMessages
                                  ++ drop insertIndex items))))
      | _, _ => Ok result
      end
  end.

Definition defaultSystemContent : jsstring :=
  Eval vm_compute in
  js "你是一个游戏推演引擎，根据玩家的决策和游戏规则，生成游戏剧情和结果。你需要保持游戏世界的连贯性，记住之前回合发生的事件和决策结果。".

(** The request body in the format of OpenAI, used without a template. *)
Definition defaultRequestBody (prompt : jsstring) (historyMessages : list ConversationMessage)
  : jsval :=
  JObject [(js "model", JString (js "gpt-3.5-turbo"));
           (js "messages",
            JArray (messageJson (Msg system defaultSystemContent)
                    :: map messageJson historyMessages
                    ++ [messageJson (Msg user prompt)]));
           (js "temperature", JNumber (Num 7 (-1)));
           (js "max_tokens", JInt 8000)].

(** [JSON.parse(JSON.stringify(bodyTemplate))] *)
Definition jsonClone (v : jsval) : Ex jsval :=
  match JSON_stringify v with
  | Some text => JSON_parse text
  | None => Throw (SyntaxError "undefined is not valid JSON")
  end.

(** [buildRequestBody]; [bodyTemplate] is [config.bodyTemplate]. *)
Definition buildRequestBody (bodyTemplate : jsval) (prompt : jsstring)
  (historyMessages : list ConversationMessage) : M jsval :=
  if truthy bodyTemplate && typeof_object bodyTemplate then
    try_catch
      (body ← lift (jsonClone bodyTemplate);
       result ← lift (insertHistory (replacePlaceholders prompt body) historyMessages);
       if truthy result && typeof_object result then mret result
       else throw (mkError None (Some (js "Invalid bodyTemplate: result is not an object"))
                     None None))
      (fun error =>
         _ ← emit (EvLog LError (js "Failed to process bodyTemplate") (err_message error));
         throw (mkError None
                  (Some (js "bodyTemplate处理失败: "
                         ++ default (js "undefined") (err_message error)))
                  None None))
  else mret (defaultRequestBody prompt historyMessages).

(** [callAI] as it is called: the endpoint is checked first, then the
    body is built from the template, the prompt and the history. *)
Definition callAIWith (config : AIConfig) (bodyTemplate : jsval) (prompt : jsstring)
  (retries : Z) (timeout : option Z) (historyMessages : list ConversationMessage) : M jsval :=
  match endpoint config with
  | Some (_ :: _) =>
      fun tr =>
        let '(built, tr1) := buildRequestBody bodyTemplate prompt historyMessages tr in
        callAI config built retries timeout tr1
  | _ => callAI config (Ok JNull) retries timeout
  end.

Section Prompt.
Variable percentText : Z -> Z -> jsstring.

(** ** Prompt *)

Record Decision := {
  d_playerIndex : Z;
  d_username : jsstring;
  d_nickname : option jsstring;
  d_actionText : option jsstring;
  d_selectedOptionIds : jsval;
  d_actionData : jsval;
  d_hostModified : bool;
  d_hostModification : jsval
}.

(** [event.progress], read as
    [{ current?: number; total?: number; lastUpdatedRound?: number }]. *)
Record Progress := {
  pg_current : option Z;
  pg_total : option Z;
  pg_lastUpdatedRound : option Z
}.

Record ActiveEvent := {
  ae_id : jsstring;
  ae_eventType : jsstring;
  ae_eventContent : jsstring;
  ae_effectiveRounds : Z;
  ae_progress : option Progress;
  ae_round : Z
}.

Record InferenceRequest := {
  ir_sessionId : jsstring;
  ir_round : Z;
  ir_decisions : list Decision;
  ir_activeEvents : list ActiveEvent;
  ir_gameRules : jsstring;
  ir_currentRound : Z;
  ir_gameInitData : option GameInitData
}.

(** The rules used when the host has configured none. *)
Definition DEFAULT_RULES : jsstring := Eval vm_compute in js "## 游戏规则（默认 - 凡墙皆是门蓝本）
1. 回合与时间：每回合代表一个季度（3 个月），四个回合代表完整一年，可按「20XX 年 Q1」「20XX 年 Q2」等顺序推进。
2. 主体：存在多个企业实体，数量由主持人配置决定，每个主体有：金钱（现金余额）、市场份额、品牌声誉、创新能力等属性；不要假定固定 ABCD。
3. 被动收支：每回合开始时，为每个主体结算被动收益（如稳健业务收入）和被动支出（如固定成本）。
4. 决策：玩家可以为主体输入多项主动决策指令。未收到指令的主体，只结算被动收支，不触发新的主动事件。
5. 现金流与破产：若现金余额小于必要支出（被动支出 + 本回合决策支出），视为现金流断裂，可能导致主体破产或丧失下一回合的决策权。
6. 事件：每回合可发生正向、负向或中性事件；允许多回合持续的长时间线事件，并跟踪其进度；事件需体现各主体决策对其他主体和整体市场的交叉影响。
7. 卦象与随机性：每年根据周易卦象生成一条「年度叙事暗线」，用于影响事件风格与触发概率；随机事件既参考卦象，又参考各主体当前属性。
8. 成就与评分：为关键性决策结果赋予阶段性成就标签；游戏在适当时刻给出评分面板，总结各主体表现。
9. 现金流安全：若余额接近被动支出临界，需明确标注风险；未收到指令的主体只结算被动收支，不触发新的主动行动。

".

(** The closing section of every prompt: the output schema and the key requirements. *)
Definition PROMPT_REQUIREMENTS : jsstring := Eval vm_compute in jsq "## 推演要求
请根据以上信息进行推演，**必须以 JSON 格式输出**，确保可被前端直接解析。

### 输出 JSON Schema:
```json
{
  'roundTitle': '第X回合：20XX年上/下半年',
  'narrative': '叙事文本，描述本回合关键事件与因果链路，时间节奏按季度/半年',
  'events': [
    {
      'keyword': '事件关键词',
      'type': 'positive|negative|neutral',
      'description': '事件描述',
      'affectedEntities': ['A', 'B'],
      'isLongTerm': false,
      'remainingRounds': 0
    }
  ],
  'perEntityPanel': [
    {
      'id': 'A',
      'name': '主体中文名称',
      'cash': 1000000,
      'attributes': { '市场份额': 25, '品牌声誉': 70, '创新能力': 60 },
      'passiveIncome': 50000,
      'passiveExpense': 30000,
      'delta': { 'cash': 20000, '市场份额': 2 },
      'broken': false,
      'achievementsUnlocked': [],
      'intelConfidence': 1.0
    }
  ],
  'leaderboard': [
    { 'id': 'A', 'name': '名称', 'score': 100, 'rank': 1, 'rankChange': 0 }
  ],
  'hexagram': {
    'name': '卦名',
    'omen': 'positive|neutral|negative',
    'lines': ['yang', 'yin', 'yang', 'yang', 'yin', 'yang'],
    'text': '象曰/解释文本'
  },
  'ledger': {
    'startingCash': 1000000,
    'passiveIncome': 50000,
    'passiveExpense': 30000,
    'decisionCost': 10000,
    'balance': 1010000
  },
  'perEntityOptions': {
    'A': [
      {
        'id': 'A1',
        'title': '针对主体A当前局势的选项标题',
        'description': '基于主体A本回合决策结果和当前状态生成的策略建议',
        'expectedDelta': { 'cash': -50000, '市场份额': 5 },
        'category': 'attack|defense|cooperation|explore|trade',
        'riskLevel': 'low|medium|high'
      }
    ],
    'B': [
      {
        'id': 'B1',
        'title': '针对主体B当前局势的选项标题',
        'description': '基于主体B本回合决策结果和当前状态生成的策略建议',
        'expectedDelta': { 'cash': -30000, '品牌声誉': 3 },
        'category': 'attack|defense|cooperation|explore|trade',
        'riskLevel': 'low|medium|high'
      }
    ]
  },
  // 注意：perEntityOptions 为每个主体单独生成3个策略选项，基于该主体本回合的实际决策结果
  // expectedDelta 中 cash 是实际金额（如 -50000 表示减少5万元），
  // 其他属性是百分点变化（如 市场份额: 5 表示增加5个百分点，不是5%）
  'riskCard': '企业风险简评',
  'opportunityCard': '企业机会简评',
  'benefitCard': '当前效益简评',
  'achievements': [
    { 'id': 'ach_1', 'entityId': 'A', 'title': '成就标题', 'description': '成就描述', 'triggerReason': '触发原因' }
  ],
  'branchingNarratives': ['分支线索1', '分支线索2'],
  'nextRoundHints': '下回合提示（仅提示方向，不代替玩家决策）',
  'cashFlowWarning': [
    { 'entityId': 'B', 'message': '现金流警告信息', 'severity': 'warning|critical' }
  ]
}
```

### 关键要求:
1. **必须输出有效 JSON**，用 ```json 代码块包裹
2. **必须基于玩家提交的实际决策进行推演**，narrative 叙事中要体现玩家决策的执行和结果
3. narrative 中应包含 events 的 keyword，便于前端高亮
4. perEntityPanel 数量必须与房间配置的主体数量一致
5. 未收到指令的主体只结算被动收支，不触发主动事件
6. 若余额接近被动支出临界，必须在 cashFlowWarning 中警示
7. **perEntityOptions 必须为每个主体单独生成3个策略选项**：
   - 选项必须基于该主体**本回合实际执行的决策结果**来生成
   - 不要把上回合的预设选项照搬，而是根据当前局势动态生成新选项
   - 每个主体的选项应该反映其独特的处境、资源状况和战略机会
   - 选项ID格式为'主体ID+序号'，如A1、A2、A3、B1、B2、B3
8. 主体 id 使用 A/B/C/D，不要使用 emoji
".


Definition rulesSection (gameRules : jsstring) : jsstring :=
  match trim gameRules with
  | [] => DEFAULT_RULES
  | rules => js "## 游戏规则
" ++ rules ++ [32; 10; 10]
  end.

(** One entity of the section on the entities. *)
Definition entityBlock (ent : Entity) : jsstring :=
  js "### 主体 " ++ e_id ent ++ js "：" ++ e_name ent ++ [10]
  ++ js "- 初始资金: ¥" ++ cashText (e_cash ent) ++ [10]
  ++ match nonZero (e_passiveIncome ent) with
     | Some n => js "- 被动收入: +¥" ++ toLocaleString env n ++ js "/回合
"
     | None => []
     end
  ++ match nonZero (e_passiveExpense ent) with
     | Some n => js "- 被动支出: -¥" ++ toLocaleString env n ++ js "/回合
"
     | None => []
     end
  ++ match e_attributes ent with
     | Some attrs =>
         let attrs :=
           join (js ", ") (map (fun kv => kv.1 ++ js ": " ++ Number_toString kv.2) attrs) in
         js "- 属性: " ++ attrs ++ [10]
     | None => []
     end
  ++ match nonEmpty (e_backstory ent) with
     | Some b => js "- 背景: " ++ b ++ [10]
     | None => []
     end
  ++ [10].

Definition entitiesSection (es : list Entity) : jsstring :=
  match es with
  | [] => []
  | _ :: _ =>
      js "## 主体信息
"
      ++ js "本游戏共有 " ++ intToString (Z.of_nat (length es)) ++ js " 个决策主体，请严格使用以下主体名称和ID：

"
      ++ concat (map entityBlock es)
      ++ js "**重要**: 在推演结果中，perEntityPanel 必须使用上述主体的 id 和 name，不要自行编造主体名称！

"
  end.

Definition omenText (omen : jsstring) : jsstring :=
  if streq omen (js "positive") then js "吉"
  else if streq omen (js "negative") then js "凶"
  else js "中".

Definition hexagramSection (hex : Hexagram) : jsstring :=
  js "## 年度卦象
"
  ++ js "- 卦名: " ++ h_name hex ++ [10]
  ++ js "- 吉凶: " ++ omenText (h_omen hex) ++ [10]
  ++ match h_lines hex with
     | Some lines => js "- 爻象: " ++ join [32] lines ++ [10]
     | None => []
     end
  ++ match h_text hex with
     | [] => []
     | text => js "- 象曰: " ++ text ++ [10]
     end
  ++ match nonEmpty (h_yearlyTheme hex) with
     | Some theme => js "- 年度主题: " ++ theme ++ [10]
     | None => []
     end
  ++ js "
请在推演叙事中适当融入卦象的意境和暗示。

".

Definition initDataSection (gameInitData : option GameInitData) : jsstring :=
  match gameInitData with
  | Some d =>
      match nonEmpty (backgroundStory d) with
      | Some story => js "## 商业背景故事
" ++ story ++ [10; 10]
      | None => []
      end
      ++ entitiesSection (default [] (entities d))
      ++ match yearlyHexagram d with
         | Some hex => hexagramSection hex
         | None => []
         end
  | None => []
  end.

(** The lines on the progress of an event.  [percentText current total]
    is the text of [Math.round((current / total) * 100)], which the host
    computes in floating point. *)
Definition progressLines (p : Progress) : jsstring :=
  match pg_current p, pg_total p with
  | Some current, Some total =>
      let percentage := if 0 <? total then percentText current total else js "0" in
      js "   进度: " ++ intToString current ++ js "/" ++ intToString total ++ js " 回合 (" ++ percentage ++ js "%)
"
      ++ match pg_lastUpdatedRound p with
         | Some r => js "   上次更新: 第 " ++ intToString r ++ js " 回合
"
         | None => []
         end
  | _, _ => []
  end.

Definition eventBlock (index : nat) (event : ActiveEvent) : jsstring :=
  intToString (Z.of_nat index + 1) ++ js ".[" ++ ae_eventType event ++ js "] " ++ ae_eventContent event ++ [32; 10]
  ++ match ae_progress event with
     | Some p => progressLines p
     | None => []
     end
  ++ js "   有效回合数: " ++ intToString (ae_effectiveRounds event) ++ [10]
  ++ js "   创建回合: 第 " ++ intToString (ae_round event) ++ js " 回合
".

Definition eventsSection (activeEvents : list ActiveEvent) : jsstring :=
  match activeEvents with
  | [] => js "## 活跃事件和规则
（当前无活跃事件）

"
  | _ :: _ =>
      js "## 活跃事件和规则
"
      ++ concat (imap eventBlock activeEvents)
      ++ [10]
  end.

(** [entities.find((e, idx) => idx === playerIndex || e.id === String(playerIndex))] *)
Fixpoint findEntity (playerIndex : Z) (idx : nat) (es : list Entity) : option Entity :=
  match es with
  | [] => None
  | e :: rest =>
      if (Z.of_nat idx =? playerIndex) || streq (e_id e) (intToString playerIndex) then Some e
      else findEntity playerIndex (S idx) rest
  end.

Definition jsonText (v : jsval) : jsstring := default (js "undefined") (JSON_stringify v).

Definition decisionBlock (gameInitData : option GameInitData) (decision : Decision) : jsstring :=
  let entityName :=
    match es ← gameInitData ≫= entities; findEntity (d_playerIndex decision) 0%nat es with
    | Some matchedEntity => e_name matchedEntity ++ js " (" ++ e_id matchedEntity ++ js ")"
    | None => default (d_username decision) (nonEmpty (d_nickname decision))
    end in
  js "### 主体 " ++ intToString (d_playerIndex decision) ++ js " - " ++ entityName ++ js " 的决策:
"
  ++ match nonEmpty (d_actionText decision) with
     | Some a => js "  **玩家输入的行动**: " ++ a ++ [10]
     | None => []
     end
  ++ (if truthy (d_selectedOptionIds decision)
      then js "  **选择的选项ID**: " ++ jsonText (d_selectedOptionIds decision) ++ [10]
      else [])
  ++ (if truthy (d_actionData decision)
      then js "  **行动数据**: " ++ jsonText (d_actionData decision) ++ [10]
      else [])
  ++ (if d_hostModified decision && truthy (d_hostModification decision)
      then js "  **[主持人修改]**: " ++ jsonText (d_hostModification decision) ++ [10]
      else [])
  ++ [10].

Definition decisionsSection (gameInitData : option GameInitData) (decisions : list Decision)
  : jsstring :=
  js "## 玩家决策
"
  ++ js "**重要**: 以下是本回合各主体玩家提交的实际决策，AI 必须基于这些决策内容进行推演，不要忽略或替换玩家的决策！

"
  ++ match decisions with
     | [] => js "（当前回合暂无玩家决策，所有主体只结算被动收支）

"
     | _ :: _ =>
         concat (map (decisionBlock gameInitData) decisions)
         ++ js "**请务必在 narrative 叙事中体现上述玩家决策的执行过程和结果！**

"
     end.

Definition buildPrompt (request : InferenceRequest) (gameRules : jsstring) : jsstring :=
  js "# 游戏推演请求 - 第 " ++ intToString (ir_currentRound request) ++ js " 回合

"
  ++ rulesSection gameRules
  ++ initDataSection (ir_gameInitData request)
  ++ eventsSection (ir_activeEvents request)
  ++ decisionsSection (ir_gameInitData request) (ir_decisions request)
  ++ PROMPT_REQUIREMENTS.

(** [performInference].  The lorebook cache of the service is threaded
    explicitly, and it is returned also when the inference fails: what
    was done to it before the failure stays done.  [bodyTemplate] is
    [config.bodyTemplate]. *)
Definition performInference (lorebookCache : gmap (list Z) (list LorebookEntry))
  (config : AIConfig) (bodyTemplate : jsval) (request : InferenceRequest)
  (historyConfig : PartialHistoryConfig)
  : list event -> (Ex jsval * gmap (list Z) (list LorebookEntry)) * list event :=
  fun tr =>
    let sessionId := ir_sessionId request in
    let currentRound := ir_currentRound request in
    let cache1 :=
      match ir_gameInitData request with
      | Some d =>
          if currentRound =? 1 then initializeLorebook lorebookCache sessionId (Some d) None
          else lorebookCache
      | None => lorebookCache
      end in
    match getConversationHistory sessionId currentRound historyConfig tr with
    | (Throw e, tr1) => ((Throw e, cache1), tr1)
    | (Ok historyMessages, tr1) =>
        let prompt := buildPrompt request (ir_gameRules request) in
        let '(loreContent, cache2) := getTriggeredLoreEntries cache1 sessionId prompt 2000 in
        let prompt :=
          match loreContent with
          | [] => prompt
          | _ :: _ => loreContent ++ [10; 10] ++ prompt
          end in
        match callAIWith config bodyTemplate prompt defaultRetries None historyMessages tr1 with
        | (Throw e, tr2) => ((Throw e, cache2), tr2)
        | (Ok result, tr2) =>
            match get result (js "narrative") with
            | Throw e => ((Throw e, cache2), tr2)
            | Ok narrative =>
                let '(_, tr3) :=
                  match js_or narrative (stringified result) with
                  | JString text =>
                      saveConversationHistory sessionId currentRound
                        [Msg user prompt; Msg assistant text] tr2
                  | _ =>
                      (* [estimateTokenCount] fails on a content that is no string *)
                      emit (EvLog LError (js "Failed to save conversation history")
                              (Some (js "text.match is not a function"))) tr2
                  end in
                match extractAndAddLoreFromResult cache2 sessionId currentRound result with
                | (Throw e, cache3) => ((Throw e, cache3), tr3)
                | (Ok _, cache3) => ((Ok result, cache3), tr3)
                end
            end
        end
    end.

End Prompt.

End WithEnv.

End AIService.

(** * The two-call orchestrator (双API临时区/backend) *)

Module DualApi.

(** ** defaultPrompts.ts *)

Definition NARRATIVE_INIT_PROMPT : jsstring := Eval vm_compute in js "这是一场商业竞争博弈游戏，有3个主体在有限市场资源下寻求相对更优的发展，故事背景为零售行业，请尽可能生动地生成一篇长篇幅的背景故事作为游戏基础。

要求：
1. 背景故事约600-800字
2. 介绍行业背景、市场环境、竞争格局
3. 为3个主体分别设定：
   - 企业名称（中文，有特色）
   - 企业定位和特点
   - 初始资金（100万-500万之间）
   - 核心属性（市场份额、品牌声誉、创新能力，0-100分）
   - 被动收入和被动支出（每回合）
   - 简短的企业背景故事
4. 生成一个年度卦象，包含卦名、吉凶、象曰解释
5. 为每个主体生成3个初始决策选项".

Definition NARRATIVE_ROUND_PROMPT : jsstring := Eval vm_compute in js "推演本回合所有决策造成的影响，推演下一回合剧情走向，各主体的资金变动计算公式由你制定。

具体要求：
1. 计算本回合被动收益和被动支出结果
2. 计算一次性收益支出结果（基于玩家决策）
3. 更新下回合被动收益支出预算和一次性收益支出预算
4. 计算当前资金额度
5. 记住主体本轮决策内容
6. 展示各决策与事件如何导致推演结果，展现连锁反应或逻辑
7. 检测本回合推演有无玩家解锁新成就
8. 生成下回合的3个决策选项供玩家选择
9. 如果有主体现金流接近危险，发出警告

请用生动的叙事语言描述本回合发生的一切，让玩家有沉浸感。".

Definition NARRATIVE_SYSTEM_PROMPT : jsstring := Eval vm_compute in js "你是《凡墙皆是门》商业博弈游戏的AI主持人。

你的职责是：
1. 根据玩家决策推演商业剧情
2. 用生动、有画面感的语言描述事件
3. 体现决策之间的因果关系和连锁反应
4. 保持游戏的紧张感和戏剧性
5. 公平对待每个主体，不偏袒任何一方

叙事风格：
- 使用第三人称
- 时间节奏按季度/半年推进
- 包含市场环境变化、竞争动态、突发事件
- 体现商业智慧和博弈策略

注意：你只需要输出剧情叙述文本，不需要输出JSON格式。数据解析由另一个AI负责。".

Definition PARSER_PROMPT : jsstring := Eval vm_compute in jsq "请从上述剧情文本中提取/推断以下结构化数据，如果剧情中没有明确提到，请根据剧情内容合理推断。

必须输出以下JSON结构（用```json代码块包裹）：

{
  'roundTitle': '第X回合：20XX年X季度',
  
  'perEntityPanel': [
    {
      'id': 'A',
      'name': '企业名称',
      'cash': 当前现金数字,
      'attributes': {
        '市场份额': 0-100的数字,
        '品牌声誉': 0-100的数字,
        '创新能力': 0-100的数字
      },
      'passiveIncome': 每回合被动收入,
      'passiveExpense': 每回合被动支出,
      'delta': {
        'cash': 本回合现金变化,
        '市场份额': 本回合市场份额变化,
        '品牌声誉': 本回合品牌声誉变化,
        '创新能力': 本回合创新能力变化
      },
      'broken': false,
      'achievementsUnlocked': []
    }
  ],
  
  'leaderboard': [
    {
      'id': 'A',
      'name': '企业名称',
      'score': 综合得分,
      'rank': 排名1-3,
      'rankChange': 排名变化
    }
  ],
  
  'events': [
    {
      'keyword': '事件关键词',
      'type': 'positive或negative或neutral',
      'description': '事件简短描述',
      'affectedEntities': ['受影响的主体ID']
    }
  ],
  
  'options': [
    {
      'id': '1',
      'title': '选项标题',
      'description': '选项详细描述',
      'expectedDelta': {
        'cash': 预期现金变化,
        '市场份额': 预期市场份额变化
      },
      'category': 'attack或defense或cooperation或explore或trade',
      'riskLevel': 'low或medium或high'
    }
  ],
  
  'ledger': {
    'startingCash': 期初现金,
    'passiveIncome': 被动收入合计,
    'passiveExpense': 被动支出合计,
    'decisionCost': 决策成本,
    'decisionIncome': 决策收益,
    'balance': 期末余额
  },
  
  'hexagram': {
    'name': '卦名',
    'omen': 'positive或neutral或negative',
    'lines': ['yang', 'yin', 'yang', 'yang', 'yin', 'yang'],
    'text': '象曰解释'
  },
  
  'riskCard': '风险评估简评（一句话）',
  'opportunityCard': '机会评估简评（一句话）',
  'benefitCard': '效益评估简评（一句话）',
  
  'achievements': [
    {
      'id': 'ach_xxx',
      'entityId': '获得成就的主体ID',
      'title': '成就标题',
      'description': '成就描述',
      'triggerReason': '触发原因'
    }
  ],
  
  'nextRoundHints': '下回合提示（一句话）',
  
  'cashFlowWarning': [
    {
      'entityId': '主体ID',
      'message': '警告信息',
      'severity': 'warning或critical'
    }
  ]
}

解析规则：
1. perEntityPanel必须包含所有3个主体
2. 如果剧情中没有明确数值，根据剧情描述合理推断
3. delta表示本回合的变化量，正数增加负数减少
4. leaderboard按score降序排列
5. options提供3个下回合的策略选项
6. 如果有主体现金低于被动支出的2倍，必须在cashFlowWarning中警告
7. achievements只包含本回合新解锁的成就".

Definition PARSER_SYSTEM_PROMPT : jsstring := Eval vm_compute in js "你是一个数据解析助手，专门负责将游戏剧情文本转换为结构化JSON数据。

你的职责是：
1. 从剧情文本中提取关键数据
2. 如果剧情中没有明确数值，根据上下文合理推断
3. 确保输出的JSON格式正确、完整
4. 保持数据的一致性和合理性

注意：
- 你只需要输出JSON数据，不需要额外解释
- 必须用```json代码块包裹输出
- 所有数值字段必须是数字类型，不能是字符串".

Definition PARSER_INIT_PROMPT : jsstring := Eval vm_compute in jsq "请从上述背景故事中提取游戏初始化数据，输出以下JSON结构：

{
  'backgroundStory': '完整的背景故事文本',
  
  'entities': [
    {
      'id': 'A',
      'name': '企业名称',
      'cash': 初始资金,
      'attributes': {
        '市场份额': 初始市场份额,
        '品牌声誉': 初始品牌声誉,
        '创新能力': 初始创新能力
      },
      'passiveIncome': 每回合被动收入,
      'passiveExpense': 每回合被动支出,
      'backstory': '企业背景简介'
    }
  ],
  
  'yearlyHexagram': {
    'name': '卦名',
    'omen': 'positive或neutral或negative',
    'lines': ['yang', 'yin', 'yang', 'yang', 'yin', 'yang'],
    'text': '象曰解释',
    'yearlyTheme': '年度主题'
  },
  
  'initialOptions': [
    {
      'id': '1',
      'title': '选项标题',
      'description': '选项描述',
      'expectedDelta': { 'cash': -50000, '市场份额': 5 },
      'category': 'explore',
      'riskLevel': 'medium'
    }
  ],
  
  'cashFormula': '资金变动公式说明'
}

要求：
1. entities必须包含3个主体，id分别为A、B、C
2. 初始资金在100万-500万之间
3. 属性值在0-100之间
4. 被动收入和支出要合理（收入略高于支出）
5. initialOptions为每个主体提供3个初始选项".

(** ** narrativeApi.ts *)

Record ApiConfig := {
  endpoint : jsstring;
  apiKey : jsstring;
  model : option jsstring
}.

Inductive RequestType := init | round.

Record NarrativeRequest := {
  type : RequestType;
  prompt : option jsstring;
  previousParserOutput : option jsstring;
  playerDecisions : option (list jsstring);
  currentRound : option Z
}.

Record NarrativeResponse := {
  success : bool;
  narrative : option jsstring;
  error : option jsstring
}.

(** Truthiness of an optional string: present and not empty. *)
Definition given (x : option jsstring) : option jsstring :=
  match x with
  | Some (c :: r) => Some (c :: r)
  | _ => None
  end.

(** [request.currentRound || 1] *)
Definition roundOr1 (r : option Z) : Z :=
  match r with
  | Some n => if n =? 0 then 1 else n
  | None => 1
  end.

(** The [forEach] that numbers the decisions from 1. *)
Fixpoint decisionLines (i : Z) (ds : list jsstring) : jsstring :=
  match ds with
  | [] => []
  | d :: rest => intToString (i + 1) ++ js ". " ++ d ++ [10] ++ decisionLines (i + 1) rest
  end.

Definition narrativeUserPrompt (request : NarrativeRequest) : jsstring :=
  match type request with
  | init =>
      NARRATIVE_INIT_PROMPT
      ++ match given (prompt request) with
         | Some p => js "

【主持人补充要求】
" ++ p
         | None => []
         end
  | round =>
      js "# 第 " ++ intToString (roundOr1 (currentRound request)) ++ js " 回合推演

"
      ++ match given (previousParserOutput request) with
         | Some o => js "## 上回合数值解析结果（请基于此数据推演）
" ++ js "```
" ++ o ++ js "
```

"
         | None => []
         end
      ++ match playerDecisions request with
         | Some (d :: ds) => js "## 本回合玩家决策
" ++ decisionLines 0 (d :: ds) ++ [10]
         | _ => []
         end
      ++ match given (prompt request) with
         | Some p => js "## 主持人补充说明
" ++ p ++ js "

"
         | None => []
         end
      ++ js "## 推演要求
" ++ NARRATIVE_ROUND_PROMPT
  end.

Definition message (r : string) (c : jsstring) : jsval :=
  JObject [(js "role", JString (js r)); (js "content", JString c)].

(** The JSON body posted to the completion endpoint. *)
Definition chatBody (config : ApiConfig) (systemPrompt userPrompt : jsstring)
  (temperature : jsnum) (max_tokens : Z) : jsval :=
  JObject [(js "model", JString (default (js "deepseek-chat") (given (model config))));
           (js "messages", JArray [message "system" systemPrompt; message "user" userPrompt]);
           (js "temperature", JNumber temperature);
           (js "max_tokens", JInt max_tokens);
           (js "stream", JBool false)].

(** [response.data?.choices?.[0]?.message?.content] *)
Definition contentOfResponse (data : jsval) : Ex jsval :=
  choices ← get_opt data (js "choices");
  first ← get_opt choices (js "0");
  message ← get_opt first (js "message");
  get_opt message (js "content").

Definition statusIs (error : JsError) (n : Z) : bool :=
  match err_response error with
  | Some (status, _) => status =? n
  | None => false
  end.

(** The message computed by the [catch] blocks of both API modules. *)
Definition apiErrorMessage (fallback : jsstring) (error : JsError) : jsstring :=
  if statusIs error 401 then js "API密钥无效"
  else if statusIs error 429 then js "API调用频率超限"
  else if AIService.hasCode error "ETIMEDOUT" then js "请求超时，请重试"
  else default fallback (given (err_message error)).

(** What [generateNarrative] posts. *)
Definition narrativeBody (config : ApiConfig) (request : NarrativeRequest) : jsval :=
  let systemPrompt := NARRATIVE_SYSTEM_PROMPT in
  let userPrompt := narrativeUserPrompt request in
  chatBody config systemPrompt userPrompt (Num 8 (-1)) 2000.

Section WithEnv.
Variable env : Env.

Definition generateNarrative (config : ApiConfig) (request : NarrativeRequest)
  : M NarrativeResponse :=
  try_catch
    (data ← http_request env (endpoint config) (narrativeBody config request) 120000;
     content ← lift (contentOfResponse data);
     if negb (truthy content) then
       mret {| success := false; narrative := None; error := Some (js "API返回内容为空") |}
     else
       match content with
       | JString c => mret {| success := true; narrative := Some (trim c); error := None |}
       | _ => throw (TypeError "content.trim is not a function")
       end)
    (fun err =>
       _ ← emit (EvLog LError (js "Narrative API error:") (err_message err));
       mret {| success := false; narrative := None;
               error := Some (apiErrorMessage (js "剧情生成失败") err) |}).

(** ** parserApi.ts *)

Record EntityInfo := {
  ent_id : jsstring;
  ent_name : jsstring;
  currentCash : option Z
}.

Record ParserRequest := {
  p_type : RequestType;
  p_narrative : jsstring;
  p_entities : option (list EntityInfo);
  p_currentRound : option Z
}.

Record ParserResponse := {
  p_success : bool;
  rawText : option jsstring;
  panelData : option jsval;
  parseSuccess : option bool;
  p_error : option jsstring
}.

Definition entityLine (e : EntityInfo) : jsstring :=
  js "- " ++ ent_id e ++ js ": " ++ ent_name e ++ js " (当前现金: ¥"
  ++ toLocaleString env (default 0 (currentCash e)) ++ js ")
".

Definition parserUserPrompt (request : ParserRequest) : jsstring :=
  match p_type request with
  | init => js "【背景故事】
" ++ p_narrative request ++ js "

" ++ PARSER_INIT_PROMPT
  | round =>
      js "【当前回合】第 " ++ intToString (roundOr1 (p_currentRound request)) ++ js " 回合

"
      ++ match p_entities request with
         | Some (e :: es) => js "【主体列表】
" ++ concat (map entityLine (e :: es)) ++ [10]
         | _ => []
         end
      ++ js "【剧情文本】
" ++ p_narrative request ++ js "

" ++ PARSER_PROMPT
  end.

(** What [parseNarrative] posts. *)
Definition parserBody (config : ApiConfig) (request : ParserRequest) : jsval :=
  let systemPrompt := PARSER_SYSTEM_PROMPT in
  let userPrompt := parserUserPrompt request in
  chatBody config systemPrompt userPrompt (Num 3 (-1)) 3000.

(** The body of the loop of [extractJsonFromResponse] for one pattern:
    [Some parsed] returns, [None] goes on to the next pattern. *)
Definition validPanel (cap : jsstring) : option jsval :=
  match JSON_parse (trim cap) with
  | Ok parsed =>
      if truthy parsed && typeof_object parsed then
        match get parsed (js "perEntityPanel") with
        | Ok panel => if truthy panel then Some parsed else None
        | Throw _ => None
        end
      else None
  | Throw _ => None
  end.

Fixpoint extractWithPatterns (patterns : list (jsstring -> option jsstring))
  (content : jsstring) : option jsval :=
  match patterns with
  | [] => None
  | pattern :: rest =>
      match pattern content with
      | Some cap =>
          if streq cap [] then extractWithPatterns rest content
          else
            match validPanel cap with
            | Some parsed => Some parsed
            | None => extractWithPatterns rest content
            end
      | None => extractWithPatterns rest content
      end
  end.

Definition patterns : list (jsstring -> option jsstring) :=
  [match_json_fence; match_any_fence; match_braces].

Definition extractJsonFromResponse (content : jsstring) : option jsval :=
  extractWithPatterns patterns content.

Definition parseNarrative (config : ApiConfig) (request : ParserRequest)
  : M ParserResponse :=
  try_catch
    (data ← http_request env (endpoint config) (parserBody config request) 60000;
     content ← lift (contentOfResponse data);
     if negb (truthy content) then
       mret {| p_success := false; rawText := None; panelData := None;
               parseSuccess := None; p_error := Some (js "API返回内容为空") |}
     else
       match content with
       | JString c =>
           let panel := extractJsonFromResponse c in
           mret {| p_success := true; rawText := Some c; panelData := panel;
                   parseSuccess := Some (bool_decide (is_Some panel)); p_error := None |}
       | _ => throw (TypeError "content.match is not a function")
       end)
    (fun err =>
       _ ← emit (EvLog LError (js "Parser API error:") (err_message err));
       mret {| p_success := false; rawText := None; panelData := None;
               parseSuccess := None;
               p_error := Some (apiErrorMessage (js "数据解析失败") err) |}).

(** ** routes.ts: POST /api/dual/full-round *)

Record FullRoundBody := {
  narrativeConfig : option ApiConfig;
  parserConfig : option ApiConfig;
  b_currentRound : option Z;
  b_previousParserOutput : option jsstring;
  b_playerDecisions : option (list jsstring);
  b_entities : option (list EntityInfo);
  extraPrompt : option jsstring
}.

(** What [res.status(s).json(body)] sends; a property whose value is
    [undefined] is dropped when the body is serialised. *)
Record HttpResponse := { status : Z; body : jsval }.

(** [!config?.endpoint || !config?.apiKey] is false *)
Definition configured (config : option ApiConfig) : option ApiConfig :=
  match config with
  | Some c =>
      match endpoint c, apiKey c with
      | _ :: _, _ :: _ => Some c
      | _, _ => None
      end
  | None => None
  end.

(** The request Step 1 hands to [generateNarrative]. *)
Definition narrativeRequestOf (req : FullRoundBody) : NarrativeRequest :=
  {| type := round; prompt := extraPrompt req;
     previousParserOutput := b_previousParserOutput req;
     playerDecisions := b_playerDecisions req;
     currentRound := Some (roundOr1 (b_currentRound req)) |}.

(** The request Step 2 hands to [parseNarrative]. *)
Definition parserRequestOf (req : FullRoundBody) (text : jsstring) : ParserRequest :=
  {| p_type := round; p_narrative := text;
     p_entities := Some (default [] (b_entities req));
     p_currentRound := Some (roundOr1 (b_currentRound req)) |}.

Definition failure (st : Z) (msg : jsstring) : HttpResponse :=
  {| status := st;
     body := JObject [(js "success", JBool false); (js "error", JString msg)] |}.

Definition optString (x : option jsstring) : jsval :=
  match x with Some s => JString s | None => JUndefined end.

Definition optBool (x : option bool) : jsval :=
  match x with Some b => JBool b | None => JUndefined end.

(** [{ success: false, step: 'narrative', error }] *)
Definition narrativeFailure (msg : jsstring) : HttpResponse :=
  {| status := 200;
     body := JObject [(js "success", JBool false);
                      (js "step", JString (js "narrative"));
                      (js "error", JString msg)] |}.

(** The body sent after Step 2. *)
Definition roundResult (text : jsstring) (parseResult : ParserResponse) : HttpResponse :=
  {| status := 200;
     body := JObject
       [(js "success", JBool true);
        (js "narrative", JString text);
        (js "parserRawText", optString (rawText parseResult));
        (js "panelData", default JNull (panelData parseResult));
        (js "parseSuccess", optBool (parseSuccess parseResult));
        (js "parseError",
         if default false (parseSuccess parseResult) then JNull
         else JString (js "无法解析JSON结构"))] |}.

Definition fullRound (req : FullRoundBody) : M HttpResponse :=
  try_catch
    (match configured (narrativeConfig req) with
     | None => mret (failure 400 (js "缺少剧情API配置"))
     | Some ncfg =>
         match configured (parserConfig req) with
         | None => mret (failure 400 (js "缺少解析API配置"))
         | Some pcfg =>
             narrativeResult ← generateNarrative ncfg (narrativeRequestOf req);
             match (if success narrativeResult then given (narrative narrativeResult) else None) with
             | None =>
                 mret (narrativeFailure (default (js "剧情生成失败")
                                           (given (error narrativeResult))))
             | Some text =>
                 parseResult ← parseNarrative pcfg (parserRequestOf req text);
                 mret (roundResult text parseResult)
             end
         end
     end)
    (fun err =>
       _ ← emit (EvLog LError (js "Full round route error:") (err_message err));
       mret (failure 500 (default (js "服务器内部错误") (given (err_message err))))).


(** ** routes.ts: the other three routes *)

Record InitBody := {
  i_narrativeConfig : option ApiConfig;
  i_parserConfig : option ApiConfig;
  i_extraPrompt : option jsstring
}.

Record NarrativeRouteBody := {
  n_config : option ApiConfig;
  n_currentRound : option Z;
  n_previousParserOutput : option jsstring;
  n_playerDecisions : option (list jsstring);
  n_extraPrompt : option jsstring
}.

Record ParseRouteBody := {
  q_config : option ApiConfig;
  q_narrative : option jsstring;
  q_entities : option (list EntityInfo);
  q_currentRound : option Z
}.

(** The body sent by [/init] after Step 2. *)
Definition initResult (text : jsstring) (parseResult : ParserResponse) : HttpResponse :=
  {| status := 200;
     body := JObject
       [(js "success", JBool true);
        (js "narrative", JString text);
        (js "parserRawText", optString (rawText parseResult));
        (js "initData", default JNull (panelData parseResult));
        (js "parseSuccess", optBool (parseSuccess parseResult));
        (js "parseError",
         if default false (parseSuccess parseResult) then JNull
         else JString (js "无法解析JSON结构"))] |}.

(** POST /api/dual/init *)
Definition initRoute (req : InitBody) : M HttpResponse :=
  try_catch
    (match configured (i_narrativeConfig req) with
     | None => mret (failure 400 (js "缺少剧情API配置"))
     | Some ncfg =>
         match configured (i_parserConfig req) with
         | None => mret (failure 400 (js "缺少解析API配置"))
         | Some pcfg =>
             narrativeResult ←
               generateNarrative ncfg
                 {| type := init; prompt := i_extraPrompt req; previousParserOutput := None;
                    playerDecisions := None; currentRound := None |};
             match (if success narrativeResult then given (narrative narrativeResult) else None) with
             | None =>
                 mret (narrativeFailure (default (js "背景故事生成失败")
                                           (given (error narrativeResult))))
             | Some text =>
                 parseResult ←
                   parseNarrative pcfg
                     {| p_type := init; p_narrative := text; p_entities := None;
                        p_currentRound := None |};
                 mret (initResult text parseResult)
             end
         end
     end)
    (fun err =>
       _ ← emit (EvLog LError (js "Init route error:") (err_message err));
       mret (failure 500 (default (js "服务器内部错误") (given (err_message err))))).

(** [res.json(result)] for the result of [generateNarrative]. *)
Definition narrativeJson (result : NarrativeResponse) : jsval :=
  JObject [(js "success", JBool (success result));
           (js "narrative", optString (narrative result));
           (js "error", optString (error result))].

(** POST /api/dual/narrative *)
Definition narrativeRoute (req : NarrativeRouteBody) : M HttpResponse :=
  try_catch
    (match configured (n_config req) with
     | None => mret (failure 400 (js "缺少API配置（endpoint或apiKey）"))
     | Some config =>
         result ←
           generateNarrative config
             {| type := round; prompt := n_extraPrompt req;
                previousParserOutput := n_previousParserOutput req;
                playerDecisions := n_playerDecisions req;
                currentRound := n_currentRound req |};
         mret {| status := 200; body := narrativeJson result |}
     end)
    (fun err =>
       _ ← emit (EvLog LError (js "Narrative route error:") (err_message err));
       mret (failure 500 (default (js "服务器内部错误") (given (err_message err))))).

(** The body sent by [/parse]. *)
Definition parseJson (result : ParserResponse) : jsval :=
  JObject [(js "success", JBool (p_success result));
           (js "rawText", optString (rawText result));
           (js "panelData", default JUndefined (panelData result));
           (js "parseSuccess", optBool (parseSuccess result));
           (js "error", optString (p_error result))].

(** POST /api/dual/parse *)
Definition parseRoute (req : ParseRouteBody) : M HttpResponse :=
  try_catch
    (match configured (q_config req) with
     | None => mret (failure 400 (js "缺少API配置（endpoint或apiKey）"))
     | Some config =>
         match given (q_narrative req) with
         | None => mret (failure 400 (js "缺少剧情文本（narrative）"))
         | Some text =>
             result ←
               parseNarrative config
                 {| p_type := round; p_narrative := text; p_entities := q_entities req;
                    p_currentRound := q_currentRound req |};
             mret {| status := 200; body := parseJson result |}
         end
     end)
    (fun err =>
       _ ← emit (EvLog LError (js "Parse route error:") (err_message err));
       mret (failure 500 (default (js "服务器内部错误") (given (err_message err))))).

End WithEnv.

End DualApi.

(** * The browser-side orchestrator (双API临时区/frontend/hooks/useDualApi.ts) *)

Module Frontend.

(** The state kept by the hook; [setState] is threaded explicitly. *)
Record DualApiState := {
  narrativeLoading : bool;
  narrative : jsval;
  narrativeError : jsval;
  parserLoading : bool;
  parserRawText : jsval;
  parseSuccess : jsval;
  panelData : jsval;
  parserError : jsval
}.

Record ParseResult := {
  r_rawText : jsval;
  r_parseSuccess : jsval;
  r_panelData : jsval
}.

Record RoundOutcome := {
  o_narrative : jsval;
  o_parseResult : ParseResult
}.

Definition optString (x : option jsstring) : jsval :=
  match x with Some s => JString s | None => JUndefined end.

Definition configJson (config : DualApi.ApiConfig) : jsval :=
  JObject [(js "endpoint", JString (DualApi.endpoint config));
           (js "apiKey", JString (DualApi.apiKey config));
           (js "model", optString (DualApi.model config))].

Definition entityJson (e : DualApi.EntityInfo) : jsval :=
  JObject [(js "id", JString (DualApi.ent_id e));
           (js "name", JString (DualApi.ent_name e));
           (js "currentCash",
            match DualApi.currentCash e with Some c => JInt c | None => JUndefined end)].

(** [x || fallback] for an error text. *)
Definition orText (x : jsval) (fallback : string) : jsval := js_or x (JString (js fallback)).

Definition errorText (error : JsError) (fallback : string) : jsval :=
  orText (optString (err_message error)) fallback.

Section WithEnv.
Variable env : Env.

(** The body posted to [/api/dual/narrative]. *)
Definition narrativeFetchBody (config : DualApi.ApiConfig) (prompt : jsstring)
  (previousParserOutput : option jsstring) (playerDecisions : option (list jsstring))
  (currentRound : option Z) : jsval :=
  JObject [(js "config", configJson config);
           (js "currentRound", JInt (DualApi.roundOr1 currentRound));
           (js "previousParserOutput", optString previousParserOutput);
           (js "playerDecisions",
            match playerDecisions with
            | Some ds => JArray (map JString ds)
            | None => JUndefined
            end);
           (js "extraPrompt", JString prompt)].

Definition generateNarrative (config : DualApi.ApiConfig) (prompt : jsstring)
  (previousParserOutput : option jsstring) (playerDecisions : option (list jsstring))
  (currentRound : option Z) (st : DualApiState) : M (jsval * DualApiState) :=
  let st := {| narrativeLoading := true; narrative := narrative st; narrativeError := JNull;
               parserLoading := parserLoading st; parserRawText := parserRawText st;
               parseSuccess := parseSuccess st; panelData := panelData st;
               parserError := parserError st |} in
  let finish (text error : jsval) :=
    {| narrativeLoading := false; narrative := text; narrativeError := error;
       parserLoading := parserLoading st; parserRawText := parserRawText st;
       parseSuccess := parseSuccess st; panelData := panelData st;
       parserError := parserError st |} in
  try_catch
    (result ← http_request env (js "/api/dual/narrative")
                (narrativeFetchBody config prompt previousParserOutput playerDecisions
                   currentRound) 0;
     success ← lift (get result (js "success"));
     text ← lift (get result (js "narrative"));
     if truthy success && truthy text then
       mret (text, finish text (narrativeError st))
     else
       error ← lift (get result (js "error"));
       mret (JNull, finish (narrative st) (orText error "剧情生成失败")))
    (fun error => mret (JNull, finish (narrative st) (errorText error "网络错误"))).

Definition parseFetchBody (config : DualApi.ApiConfig) (narrative : jsval)
  (entities : list DualApi.EntityInfo) (currentRound : Z) : jsval :=
  JObject [(js "config", configJson config);
           (js "narrative", narrative);
           (js "entities", JArray (map entityJson entities));
           (js "currentRound", JInt currentRound)].

Definition parseNarrative (config : DualApi.ApiConfig) (narrative : jsval)
  (entities : list DualApi.EntityInfo) (currentRound : Z) (st : DualApiState)
  : M (ParseResult * DualApiState) :=
  let st := {| narrativeLoading := narrativeLoading st; narrative := Frontend.narrative st;
               narrativeError := narrativeError st;
               parserLoading := true; parserRawText := JNull;
               parseSuccess := JBool false; panelData := panelData st;
               parserError := JNull |} in
  try_catch
    (result ← http_request env (js "/api/dual/parse")
                (parseFetchBody config narrative entities currentRound) 0;
     raw ← lift (get result (js "rawText"));
     ok ← lift (get result (js "parseSuccess"));
     panel ← lift (get result (js "panelData"));
     success ← lift (get result (js "success"));
     error ← lift (get result (js "error"));
     let rawText := js_or raw JNull in
     let parseSuccess := js_or ok (JBool false) in
     let panelData := js_or panel JNull in
     mret ({| r_rawText := rawText; r_parseSuccess := parseSuccess; r_panelData := panelData |},
           {| narrativeLoading := narrativeLoading st; narrative := Frontend.narrative st;
              narrativeError := narrativeError st;
              parserLoading := false; parserRawText := rawText;
              parseSuccess := parseSuccess; panelData := panelData;
              parserError := if truthy success then JNull else orText error "数据解析失败" |}))
    (fun error =>
       mret ({| r_rawText := JNull; r_parseSuccess := JBool false; r_panelData := JNull |},
             {| narrativeLoading := narrativeLoading st; narrative := Frontend.narrative st;
                narrativeError := narrativeError st;
                parserLoading := false; parserRawText := parserRawText st;
                parseSuccess := parseSuccess st; panelData := panelData st;
                parserError := errorText error "网络错误" |})).

Definition executeFullRound (narrativeConfig parserConfig : DualApi.ApiConfig)
  (prompt : jsstring) (entities : list DualApi.EntityInfo) (currentRound : Z)
  (previousParserOutput : option jsstring) (playerDecisions : option (list jsstring))
  (st : DualApiState) : M (RoundOutcome * DualApiState) :=
  '(narrative, st) ← generateNarrative narrativeConfig prompt previousParserOutput
                        playerDecisions (Some currentRound) st;
  if negb (truthy narrative) then
    mret ({| o_narrative := JNull;
             o_parseResult := {| r_rawText := JNull; r_parseSuccess := JBool false;
                                 r_panelData := JNull |} |}, st)
  else
    '(parseResult, st) ← parseNarrative parserConfig narrative entities currentRound st;
    mret ({| o_narrative := narrative; o_parseResult := parseResult |}, st).

End WithEnv.

End Frontend.

(** * Vocabulary of the statements and sample inputs *)

Section Vocabulary.
Import AIService.

(** The number of requests issued so far. *)
Definition nreq (tr : list event) : nat := length (requests tr).

(** Three errors, and an environment in which the network and the store
    are down. *)
Definition timeoutError : JsError :=
  mkError (Some (js "ETIMEDOUT")) (Some (js "timeout of 120000ms exceeded")) None None.

Definition serverError : JsError :=
  mkError None (Some (js "Request failed with status code 500")) (Some (500, JNull)) None.

Definition storeError : JsError :=
  mkError (Some (js "P1001")) (Some (js "Can't reach database server")) None None.

Definition failingEnv : Env :=
  {| http := fun k _ _ => match k with O => Throw timeoutError | _ => Throw serverError end;
     createMany := fun _ => Throw storeError;
     findMany := fun _ _ _ => Throw storeError;
     toLocaleString := intToString |}.





(** A connection descriptor for [callAI]. *)
Definition someConfig : AIConfig :=
  {| provider := Some (js "deepseek"); endpoint := Some (js "https://api.example.com/v1/chat") |}.

(** A text of [n] words, and a stored history of three rounds of which
    the second is large. *)
Definition words (n : nat) : jsstring := concat (replicate n (js "w ")).

Definition longHistory : list ConversationMessage :=
  [Msg user (js "第1回合 决策 alpha"); Msg assistant (js "one two");
   Msg user (js "第2回合 决策"); Msg assistant (words 100);
   Msg user (js "第3回合"); Msg assistant (js "three four")].

(** A stored history of two rounds of which the first is large and the
    second has 56 tokens. *)
Definition boundaryHistory : list ConversationMessage :=
  [Msg user (js "第1回合"); Msg assistant (words 100);
   Msg user (js "第2回合"); Msg assistant (words 53)].

(** The trigger rule in the words of the specification: enabled, some
    keyword occurs in the prompt, and the activation count has not
    reached [maxActivations] when that is set. *)
Definition spec_fires (promptContent : jsstring) (entry : LorebookEntry) : bool :=
  lore_enabled entry
  && existsb (fun keyword => includes promptContent keyword) (keywords entry)
  && match maxActivations entry with
     | Some m => default 0 (activationCount entry) <? m
     | None => true
     end.

(** An entry whose limit is 0, and one that has one activation left. *)
Definition zeroLimitEntry : LorebookEntry :=
  {| id := js "rule_1"; keywords := [js "a"]; lore_content := js "lore text";
     priority := 1; lore_enabled := true; category := rule;
     maxActivations := Some 0; activationCount := Some 0 |}.

Definition limitedEntry : LorebookEntry :=
  {| id := js "rule_2"; keywords := [js "zz"; js "a"]; lore_content := js "more lore";
     priority := 5; lore_enabled := true; category := rule;
     maxActivations := Some 2; activationCount := Some 1 |}.

(** The degraded result: the raw text as narrative, nothing else found. *)
Definition fallbackShape (content : jsstring) (r : jsval) : Prop :=
  get r (js "narrative") = Ok (JString content)
  /\ get r (js "outcomes") = Ok (JArray [])
  /\ get r (js "events") = Ok (JArray []).

(** A reply whose only fenced block is a JSON array. *)
Definition fencedArrayText : jsstring :=
  Eval vm_compute in js "The market shifted. ```[1, 2]``` and {broken".









End Vocabulary.

Section DualVocabulary.
Import DualApi.

(** The shape of every answer of [parseNarrative]. *)
Definition parserAnswer (env : Env) (config : ApiConfig) (request : ParserRequest) (tr : list event)
  (pres : ParserResponse) : Prop :=
  match http env (nreq tr) (endpoint config) (parserBody env config request)
          ≫= contentOfResponse with
  | Ok (JString (c :: r)) =>
      p_success pres = true /\ rawText pres = Some (c :: r)
      /\ panelData pres = extractJsonFromResponse (c :: r)
      /\ parseSuccess pres = Some (bool_decide (is_Some (panelData pres)))
  | _ =>
      p_success pres = false /\ rawText pres = None /\ panelData pres = None
      /\ parseSuccess pres = None
  end.

(** A completion response that carries [text]. *)
Definition chatResponse (text : jsstring) : jsval :=
  JObject [(js "choices",
            JArray [JObject [(js "message",
                              JObject [(js "role", JString (js "assistant"));
                                       (js "content", JString text)])]])].

(** An environment whose first request is answered by [first] and every
    later one by [later]. *)
Definition twoCallEnv (first later : Ex jsval) : Env :=
  {| http := fun k _ _ => match k with O => first | _ => later end;
     createMany := fun _ => Ok 0;
     findMany := fun _ _ _ => Ok [];
     toLocaleString := intToString |}.

(** The body of a full-round request with both services configured. *)
Definition narrativeCfg : ApiConfig :=
  {| endpoint := js "https://narrative.example.com/v1/chat"; apiKey := js "key-n"; model := None |}.

Definition parserCfg : ApiConfig :=
  {| endpoint := js "https://parser.example.com/v1/chat"; apiKey := js "key-p";
     model := Some (js "deepseek-chat") |}.

Definition roundBody : FullRoundBody :=
  {| narrativeConfig := Some narrativeCfg;
     parserConfig := Some parserCfg;
     b_currentRound := Some 2;
     b_previousParserOutput := None;
     b_playerDecisions := Some [js "A: open two stores"];
     b_entities := Some [{| ent_id := js "A"; ent_name := js "Alpha"; currentCash := Some 1000 |}];
     extraPrompt := None |}.

(** Replies of the two services: a narrative, a parser answer in prose,
    one whose panel is [null], and a well-formed one. *)
Definition story : jsstring :=
  Eval vm_compute in js "Alpha opened two stores and the market shifted.".

Definition proseAnswer : jsstring := Eval vm_compute in js "Sorry, I cannot produce the data.".

Definition nullPanelText : jsstring :=
  Eval vm_compute in jsq "{'perEntityPanel': null, 'roundTitle': 'R2'}".

Definition panelText : jsstring := Eval vm_compute in jsq "```json
{'roundTitle': 'R2', 'perEntityPanel': [{'id': 'A', 'name': 'Alpha', 'cash': 900}]}
```".

Definition parseRequest : ParserRequest := parserRequestOf roundBody story.






End DualVocabulary.

(** ** Vocabulary of the further properties *)

Section MoreVocabulary.
Import AIService.

(** The batches written to the history table, in order. *)
Definition saves (tr : list event) : list (list HistoryRecord) :=
  omap (fun ev => match ev with EvCreateMany data => Some data | _ => None end) tr.

(** What a run of the retry loop may append to the trace: at most [fuel]
    requests, all of them the same; delays between one and thirty
    seconds, at most one per attempt that is left; nothing written to the
    history table. *)
Definition boundedRun (url : jsstring) (requestBody : jsval) (timeout retries : Z)
  (fuel : nat) (attempt : Z) (ext : list event) : Prop :=
  (length (requests ext) <= fuel)%nat
  /\ (length (sleeps ext) <= Z.to_nat (retries - attempt))%nat
  /\ Forall (fun ms => 1000 <= ms <= 30000) (sleeps ext)
  /\ Forall (fun ev => ev = EvRequest url requestBody timeout) (requests ext)
  /\ saves ext = [].

Definition selected {A} (flags : list bool) (l : list A) (b : bool) : list A :=
  omap (fun p : bool * A => if Bool.eqb p.1 b then Some p.2 else None) (zip flags l).

Definition summaryMessage (dropped : list (list ConversationMessage))
  : list ConversationMessage :=
  match dropped with
  | [] => []
  | _ => [Msg system (js "【历史回合摘要】
" ++ join [10] (map summarizeRound dropped))]
  end.

(** [occursIn k s]: the text [k] is not empty and occurs in [s]. *)
Definition occursIn (k s : jsstring) : Prop := k <> [] /\ exists a b, s = a ++ k ++ b.

(** No string of the value contains a placeholder, and no property is
    named [__proto__]. *)
Fixpoint placeholderFree (v : jsval) : bool :=
  match v with
  | JString s => negb (includes s promptPlaceholder) && negb (includes s PROMPTPlaceholder)
  | JArray items => forallb placeholderFree items
  | JObject props =>
      forallb (fun kv : jsstring * jsval =>
                 negb (streq kv.1 (js "__proto__")) && placeholderFree kv.2) props
  | _ => true
  end.

(** The role of a message of a template is not [system]. *)
Definition notSystem (m : jsval) : Prop :=
  exists r, get m (js "role") = Ok r /\ r <> JString (js "system").

(** What a route handler does with a request that is complete or not:
    it answers 200 after one or two outbound requests, or it answers 400
    without having sent or logged anything. *)
Definition answered (complete : bool) (tr : list event)
  (out : Ex DualApi.HttpResponse * list event) : Prop :=
  exists response,
    out.1 = Ok response
    /\ if complete
       then DualApi.status response = 200
            /\ exists sent, requests out.2 = requests tr ++ sent /\ (1 <= length sent <= 2)%nat
       else DualApi.status response = 400 /\ out.2 = tr.

(** The cache [c'] is the cache [c] with [added] appended to the entries
    of the session, every other session as it was. *)
Definition grows (sessionId : jsstring) (c c' : gmap (list Z) (list LorebookEntry))
  (added : list LorebookEntry) : Prop :=
  (forall other, other <> sessionId -> c' !! other = c !! other)
  /\ default [] (c' !! sessionId) = default [] (c !! sessionId) ++ added.

(** An entry as [extractAndAddLoreFromResult] records it. *)
Definition recordedEntry (e : LorebookEntry) : Prop :=
  category e = event_cat /\ lore_enabled e = true /\ maxActivations e = None
  /\ activationCount e = None /\ (priority e = 30 \/ priority e = 40).

(** Sample inputs: a request of round 2 with one decision; a template
    with a system message and a placeholder, one without placeholder, and
    one whose first message is [null]; a history of one message; a panel
    whose attributes try to override its passive income. *)
Definition sampleDecision : Decision :=
  {| d_playerIndex := 0; d_username := js "alice"; d_nickname := None;
     d_actionText := Some (js "open two stores"); d_selectedOptionIds := JUndefined;
     d_actionData := JUndefined; d_hostModified := false;
     d_hostModification := JUndefined |}.

Definition sampleRequest : InferenceRequest :=
  {| ir_sessionId := js "s"; ir_round := 2; ir_decisions := [sampleDecision];
     ir_activeEvents := []; ir_gameRules := []; ir_currentRound := 2;
     ir_gameInitData := None |}.

Definition noHistoryConfig : PartialHistoryConfig :=
  {| p_enabled := None; p_maxRounds := None; p_maxTokens := None;
     p_summarizeOldRounds := None |}.

Definition percentOf (current total : Z) : jsstring :=
  intToString ((200 * current + total) / (2 * total)).

Definition systemMessage : jsval :=
  JObject [(js "role", JString (js "system"));
           (js "content", JString (js "You are the game master."))].

Definition promptMessage : jsval :=
  JObject [(js "role", JString (js "user")); (js "content", JString (js "{{prompt}}"))].

Definition chatTemplate : jsval :=
  JObject [(js "model", JString (js "m1")); (js "messages", JArray [systemMessage; promptMessage])].

Definition fixedTemplate : jsval :=
  JObject [(js "model", JString (js "m1"));
           (js "messages",
            JArray [JObject [(js "role", JString (js "user"));
                             (js "content", JString (js "hello"))]])].

Definition brokenTemplate : jsval :=
  JObject [(js "model", JString (js "m1")); (js "messages", JArray [JNull; systemMessage])].

Definition earlier : list ConversationMessage := [Msg assistant (js "Round 1 went well.")].

Definition samplePanels : jsval :=
  JArray [JObject [(js "id", JString (js "A")); (js "name", JString (js "Alpha"));
                   (js "cash", JInt 900); (js "passiveIncome", JInt 50);
                   (js "passiveExpense", JInt 30);
                   (js "attributes", JObject [(js "passiveIncome", JInt 7)])]].

Definition sampleOutcomes : jsval :=
  Eval vm_compute in
    match mapEntityPanelsToOutcomes samplePanels with Ok v => v | Throw _ => JNull end.

End MoreVocabulary.

(** * Verification *)

(** ** Sanity checks of the JavaScript layer *)

Example js_ascii : js "a{1}" = [97; 123; 49; 125].
Proof. reflexivity. Qed.

Example js_cjk : js "第1回合" = [31532; 49; 22238; 21512].
Proof. reflexivity. Qed.

Example js_trim : trim (js "  a b
 ") = js "a b".
Proof. reflexivity. Qed.

Example intToString_ex : intToString 30000 = js "30000" /\ intToString (-7) = js "-7" /\ intToString 0 = js "0".
Proof. repeat split; reflexivity. Qed.

Example JSON_parse_ex1 :
  JSON_parse (jsq " {'a': [1, -2.50e1, true, null], 'b': {'c': 'xA\n'}, 'a': 'z'} ")
  = Ok (JObject [(js "a", JString (js "z"));
                 (js "b", JObject [(js "c", JString [120; 65; 10])])]).
Proof. reflexivity. Qed.

Example JSON_parse_ex2 :
  JSON_parse (jsq "[1, -2.50e1, 0.0]") = Ok (JArray [JInt 1; JNumber (Num (-250) (-1)); JNumber (Num 0 (-1))]).
Proof. reflexivity. Qed.

Example JSON_parse_ex3 :
  forall bad, In bad [js "{"; js "{'a':1}"; jsq "{'a':1,}"; js "01"; js "[1 2]"; js "json
{}"; js "tru"; []; js "1.e3"; jsq "'a"] ->
  exists e, JSON_parse bad = Throw e.
Proof. intros bad H. simpl in H. repeat (destruct H as [<-|H]; [eexists; reflexivity|]). destruct H. Qed.

Example Number_toString_ex :
  map Number_toString [Num 150 (-2); Num 12 3; Num (-5) 0; Num 1 21; Num 1 (-7); Num 123 (-9); Num 0 5; Num 1 400]
  = [js "1.5"; js "12000"; js "-5"; js "1e+21"; js "1e-7"; js "1.23e-7"; js "0"; js "Infinity"].
Proof. vm_compute. reflexivity. Qed.

Example ToString_ex :
  ToString (JArray [JInt 1; JNull; JString (js "a"); JArray [JBool true; JObject []]])
  = Ok (js "1,,a,true,[object Object]").
Proof. reflexivity. Qed.

Example JSON_stringify_ex :
  JSON_stringify (JObject [(js "a", JArray [JInt 1; JUndefined]); (js "b", JUndefined); (js "c", JString [34; 10; 19968])])
  = Some (jsq "{'a':[1,null],'c':'\'\n一'}").
Proof. vm_compute. reflexivity. Qed.

Example match_json_fence_ex :
  match_json_fence (js "text ```JSON
 {1} ``` tail ```") = Some (js "{1} ")
  /\ match_json_fence (js "```json```") = Some []
  /\ match_json_fence (js "```json {") = None.
Proof. repeat split; reflexivity. Qed.

Example match_any_fence_ex :
  match_any_fence (js "a```json
{}```") = Some (js "json
{}")
  /\ match_any_fence (js "````x```") = Some (js "`x").
Proof. repeat split; reflexivity. Qed.

Example match_braces_ex :
  match_braces (js "a {b} c } d") = Some (js "{b} c }")
  /\ match_braces (js "} {") = None.
Proof. repeat split; reflexivity. Qed.

Example match_round_number_ex :
  match_round_number (js "# 游戏推演请求 - 第 12 回合") = Some (js "12")
  /\ match_round_number (js "第一回合 第3回") = None.
Proof. repeat split; reflexivity. Qed.

Example estimateTokenCount_ex :
  map AIService.estimateTokenCount [js "第1回合 决策 alpha"; js "abc, def 12 34x"; []]
  = [6; 5; 0].
Proof. vm_compute. reflexivity. Qed.

Example narrativeUserPrompt_ex :
  DualApi.narrativeUserPrompt (DualApi.narrativeRequestOf roundBody)
  = js "# 第 2 回合推演

## 本回合玩家决策
1. A: open two stores

## 推演要求
" ++ DualApi.NARRATIVE_ROUND_PROMPT.
Proof. vm_compute. reflexivity. Qed.

(** Round 2 with a narrative and a well-formed parser answer: both
    halves are delivered. *)
Example fullRound_both_succeed :
  exists r tr,
    DualApi.fullRound (twoCallEnv (Ok (chatResponse story)) (Ok (chatResponse panelText)))
      roundBody [] = (Ok r, tr)
    /\ length (requests tr) = 2%nat
    /\ get (DualApi.body r) (js "narrative") = Ok (JString story)
    /\ get (DualApi.body r) (js "parseSuccess") = Ok (JBool true)
    /\ get (DualApi.body r) (js "parserRawText") = Ok (JString panelText)
    /\ (get (DualApi.body r) (js "panelData") ≫= fun d => get d (js "roundTitle"))
       = Ok (JString (js "R2")).
Proof. do 2 eexists. split; [vm_compute; reflexivity|]. repeat split; vm_compute; reflexivity. Qed.

(** ** Retry executor *)

Import AIService.


Lemma requests_cons ev tr :
  requests (ev :: tr) = if is_request ev then ev :: requests tr else requests tr.
Proof.
  unfold requests. rewrite filter_cons.
  destruct (is_request ev); destruct (decide _); congruence.
Qed.

Lemma sleeps_cons ev tr :
  sleeps (ev :: tr) = match ev with EvSleep ms => ms :: sleeps tr | _ => sleeps tr end.
Proof. destruct ev; reflexivity. Qed.

Lemma notice_run body tr :
  (if isStreaming body then emit streamWarning else mret tt) tr
  = (Ok tt, tr ++ streamNotice body).
Proof.
  unfold streamNotice. destruct (isStreaming body); [reflexivity|].
  unfold mret, M_ret. by rewrite app_nil_r.
Qed.

Lemma requests_notice body tr : requests (streamNotice body ++ tr) = requests tr.
Proof. unfold streamNotice. by destruct (isStreaming body). Qed.

Lemma sleeps_notice body tr : sleeps (streamNotice body ++ tr) = sleeps tr.
Proof. unfold streamNotice. by destruct (isStreaming body). Qed.


Lemma saves_notice body tr : saves (streamNotice body ++ tr) = saves tr.
Proof. unfold streamNotice. by destruct (isStreaming body). Qed.

Section RetryProofs.
Context (env : Env) (url prov : jsstring) (requestBody : jsval) (timeout retries : Z).

Abbreviation loop := (callAI_loop env url prov requestBody timeout retries).
Abbreviation outcome := (attemptOutcome env url prov requestBody).
Abbreviation failed := (failEvents url requestBody timeout retries).

Lemma attemptOnce_run tr :
  attemptOnce env url prov requestBody timeout tr
  = (outcome (nreq tr), tr ++ [EvRequest url requestBody timeout]).
Proof.
  unfold attemptOnce, attemptOutcome, mbind, M_bind, Ex_bind, http_request, lift, nreq, requests.
  destruct (http env _ url requestBody); reflexivity.
Qed.

Lemma loop_fail_step fuel attempt lastError tr error :
  outcome (nreq tr) = Throw error ->
  loop (S fuel) attempt lastError tr
  = loop fuel (attempt + 1) (Some error) (tr ++ failed attempt error).
Proof.
  intros H. cbn [callAI_loop]. unfold try_catch at 1.
  rewrite attemptOnce_run, H.
  unfold mbind, M_bind, emit, mret, M_ret, failEvents.
  destruct (attempt <? retries); cbv beta iota;
    rewrite <- ?app_assoc; reflexivity.
Qed.



Lemma requests_failed attempt error :
  requests (failed attempt error) = [EvRequest url requestBody timeout].
Proof.
  unfold failEvents. cbn [app]. rewrite !requests_cons. cbn [is_request failWarning].
  destruct (attempt <? retries); [rewrite requests_cons|]; reflexivity.
Qed.

Lemma nreq_failed tr attempt error : nreq (tr ++ failed attempt error) = S (nreq tr).
Proof.
  unfold nreq. unfold requests at 1. rewrite filter_app.
  fold (requests tr) (requests (failed attempt error)).
  rewrite requests_failed, length_app. cbn [length]. lia.
Qed.





End RetryProofs.






(** A body that asks for streaming is announced by a warning and sent
    with [stream] switched off. *)
Example callAI_streaming_body :
  take 2 (callAI failingEnv someConfig (Ok (JObject [(js "stream", JBool true)])) 1 None []).2
  = [streamWarning;
     EvRequest (js "https://api.example.com/v1/chat") (JObject [(js "stream", JBool false)])
       defaultTimeout].
Proof. vm_compute. reflexivity. Qed.

Example callAI_failing_trace :
  sleeps (callAI failingEnv someConfig (Ok (JObject [])) 5 None []).2 = [3000; 2000; 4000; 8000]
  /\ length (requests (callAI failingEnv someConfig (Ok (JObject [])) 5 None []).2) = 5%nat.
Proof. split; vm_compute; reflexivity. Qed.

Example retryDelay_cap :
  map (retryDelay timeoutError) [1; 2; 3; 4; 5] = [3000; 6000; 12000; 24000; 30000]
  /\ map (retryDelay serverError) [1; 2; 5; 6; 7] = [1000; 2000; 16000; 30000; 30000].
Proof. split; vm_compute; reflexivity. Qed.

Section Exhaustion.
Context (env : Env) (url prov : jsstring) (requestBody : jsval) (timeout retries : Z).

(** When every attempt fails, the loop gives up after the last one with
    the aggregated error. *)
Lemma loop_fail_all m : forall attempt lastError tr errs,
  (forall j, (j < m)%nat ->
     attemptOutcome env url prov requestBody (nreq tr + j) = Throw (errs j)) ->
  callAI_loop env url prov requestBody timeout retries m attempt lastError tr
  = (Throw (finalError retries
              (match m with O => lastError | S m' => Some (errs m') end)),
     tr ++ failedRun url requestBody timeout retries m attempt errs).
Proof.
  induction m as [|m IH]; intros attempt lastError tr errs H.
  - cbn [callAI_loop failedRun]. unfold throw. by rewrite app_nil_r.
  - rewrite (loop_fail_step _ _ _ _ _ _ _ _ _ _ (errs O)).
    2:{ rewrite <- (H O) by lia. f_equal. lia. }
    rewrite (IH _ _ _ (fun j => errs (S j))).
    2:{ intros j Hj. rewrite nreq_failed. rewrite <- (H (S j)) by lia. f_equal. lia. }
    cbn [failedRun]. rewrite <- app_assoc. by destruct m.
Qed.

End Exhaustion.


(** ** History manager *)

Section HistoryProofs.
Context (env : Env).

(** C4.  No history-store error escapes the history manager: both
    functions always return normally; a [findMany] error makes
    [getConversationHistory] log it and return the empty list, and a
    [createMany] error makes [saveConversationHistory] log it and return. *)
Theorem history_store_errors_contained (sessionId : jsstring) (currentRound round : Z)
    (config : PartialHistoryConfig) (messages : list ConversationMessage) (tr : list event) :
  (exists msgs tr', getConversationHistory env sessionId currentRound config tr = (Ok msgs, tr'))
  /\ (exists tr', saveConversationHistory env sessionId round messages tr = (Ok tt, tr'))
  /\ (forall e,
        enabled (mergeHistoryConfig config) = true ->
        findMany env sessionId
          (Z.max 1 (currentRound - maxRounds (mergeHistoryConfig config))) currentRound
        = Throw e ->
        getConversationHistory env sessionId currentRound config tr
        = (Ok [],
           tr ++ [EvFindMany sessionId
                    (Z.max 1 (currentRound - maxRounds (mergeHistoryConfig config))) currentRound;
                  EvLog LError (js "Failed to get conversation history") (err_message e)]))
  /\ (forall e,
        createMany env (historyRecords sessionId round messages) = Throw e ->
        saveConversationHistory env sessionId round messages tr
        = (Ok tt,
           tr ++ [EvCreateMany (historyRecords sessionId round messages);
                  EvLog LError (js "Failed to save conversation history") (err_message e)])).
Proof.
  unfold getConversationHistory, saveConversationHistory, try_catch,
    mbind, M_bind, mret, M_ret, emit, lift.
  cbv beta iota zeta.
  repeat split.
  - destruct (enabled (mergeHistoryConfig config)); cbn [negb]; [|eauto].
    destruct (findMany env _ _ _) as [[|m l]|e]; cbv beta iota; eauto.
    destruct (_ && _); eauto.
  - destruct (createMany env _); cbv beta iota; eauto.
  - intros e He H. rewrite He, H. cbn [negb]. cbv beta iota.
    rewrite <- app_assoc. reflexivity.
  - intros e H. rewrite H. cbv beta iota. rewrite <- app_assoc. reflexivity.
Qed.

End HistoryProofs.

Lemma history_store_errors_contained_witness :
  getConversationHistory failingEnv (js "s1") 4
    {| p_enabled := None; p_maxRounds := None; p_maxTokens := None; p_summarizeOldRounds := None |} []
  = (Ok [], [EvFindMany (js "s1") 1 4;
             EvLog LError (js "Failed to get conversation history")
               (Some (js "Can't reach database server"))])
  /\ saveConversationHistory failingEnv (js "s1") 4 [Msg user (js "hi")] []
     = (Ok tt, [EvCreateMany (historyRecords (js "s1") 4 [Msg user (js "hi")]);
                EvLog LError (js "Failed to save conversation history")
                  (Some (js "Can't reach database server"))]).
Proof.
  destruct (history_store_errors_contained failingEnv (js "s1") 4 4
              {| p_enabled := None; p_maxRounds := None; p_maxTokens := None;
                 p_summarizeOldRounds := None |} [Msg user (js "hi")] [])
    as (_ & _ & Hget & Hsave).
  split.
  - apply (Hget storeError); reflexivity.
  - apply (Hsave storeError); reflexivity.
Defined.

Section CompressionProofs.

Lemma count_runs_nonneg p s : forall inside, 0 <= count_runs p inside s.
Proof.
  induction s as [|c s IH]; intros inside; cbn [count_runs]; [lia|].
  destruct (p c); [|apply IH].
  specialize (IH true). destruct inside; lia.
Qed.

Lemma estimateTokenCount_nonneg text : 0 <= estimateTokenCount text.
Proof.
  unfold estimateTokenCount. destruct (streq text []); [lia|].
  pose proof (count_runs_nonneg isAsciiLetter text false).
  pose proof (count_runs_nonneg isDigit text false).
  assert (0 <= count_chars isChinese text) by (unfold count_chars; lia).
  assert (0 <= (2 * count_chars isChinese text + 2) / 3) by (apply Z.div_pos; lia).
  lia.
Qed.

Lemma totalTokens_from (messages : list ConversationMessage) : forall a,
  fold_left (fun sum m => sum + estimateTokenCount (content m)) messages a
  = a + totalTokens messages.
Proof.
  unfold totalTokens. induction messages as [|m l IH]; intros a; cbn [fold_left]; [lia|].
  rewrite IH, (IH (0 + _)). lia.
Qed.

Lemma totalTokens_cons m l :
  totalTokens (m :: l) = estimateTokenCount (content m) + totalTokens l.
Proof. unfold totalTokens at 1. cbn [fold_left]. rewrite totalTokens_from. lia. Qed.

Lemma totalTokens_app l1 l2 : totalTokens (l1 ++ l2) = totalTokens l1 + totalTokens l2.
Proof.
  induction l1 as [|m l1 IH]; [reflexivity|].
  cbn [app]. rewrite !totalTokens_cons, IH. lia.
Qed.

Lemma totalTokens_nonneg l : 0 <= totalTokens l.
Proof.
  induction l as [|m l IH]; [reflexivity|].
  rewrite totalTokens_cons. pose proof (estimateTokenCount_nonneg (content m)). lia.
Qed.

Lemma totalTokens_concat_rev (rounds : list (list ConversationMessage)) :
  totalTokens (concat (rev rounds)) = totalTokens (concat rounds).
Proof.
  induction rounds as [|r rounds IH]; [reflexivity|].
  cbn [rev concat]. rewrite concat_app, !totalTokens_app, IH. cbn [concat].
  rewrite app_nil_r. lia.
Qed.

Lemma groupRounds_concat messages : forall current,
  concat (groupRounds messages current) = current ++ messages.
Proof.
  induction messages as [|msg rest IH]; intros current; cbn [groupRounds].
  - destruct current; cbn [concat]; by rewrite ?app_nil_r.
  - destruct (role msg); cbn [concat]; rewrite IH, <- ?app_assoc; reflexivity.
Qed.

Lemma withinBudget_mono a b maxTokens :
  a <= b -> withinBudget b maxTokens = true -> withinBudget a maxTokens = true.
Proof.
  unfold withinBudget. rewrite !Z.leb_le. intros Hab Hb.
  assert (0 < 2 ^ 53) by (apply Z.pow_pos_nonneg; lia). nia.
Qed.

(** The rounded product lies within half a unit in the last place of the
    exact one. *)
Lemma timesSeventyPercent_bounds maxTokens :
  0 <= maxTokens < 2 ^ 49 ->
  2 * (maxTokens * seventyPercent) - 2 ^ 49
  <= 2 * timesSeventyPercent maxTokens
  <= 2 * (maxTokens * seventyPercent) + 2 ^ 49.
Proof.
  intros [H0 Hlt]. unfold timesSeventyPercent.
  rewrite (Z.abs_eq maxTokens) by exact H0.
  set (exact := maxTokens * seventyPercent).
  destruct (Z.eq_dec maxTokens 0) as [->|Hne].
  { vm_compute. split; discriminate. }
  rewrite (Z.sgn_pos maxTokens) by lia. rewrite Z.mul_1_l.
  assert (Hex : 0 < exact < 2 ^ 102).
  { subst exact. unfold seventyPercent. split; [lia|].
    change (2 ^ 102) with (2 ^ 49 * 2 ^ 53).
    assert (6305039478318694 < 2 ^ 53) by (vm_compute; reflexivity). nia. }
  assert (Hlog : Z.log2 exact < 102) by (apply Z.log2_lt_pow2; lia).
  pose proof (Z.log2_nonneg exact) as Hlog0.
  set (e := Z.max 0 (Z.log2 exact - 52)).
  assert (He : 0 <= e <= 49) by (subst e; lia).
  assert (Hulp : 0 < 2 ^ e <= 2 ^ 49).
  { split; [apply Z.pow_pos_nonneg; lia|apply Z.pow_le_mono_r; lia]. }
  set (ulp := 2 ^ e) in *.
  pose proof (Z.div_mod exact ulp ltac:(lia)) as Hdiv.
  pose proof (Z.mod_pos_bound exact ulp ltac:(lia)) as Hmod.
  set (q := exact / ulp) in *. set (r := exact mod ulp) in *.
  destruct ((ulp <? 2 * r) || ((ulp =? 2 * r) && Z.odd q)) eqn:Hup.
  - assert (ulp <= 2 * r).
    { apply orb_true_iff in Hup as [Hup|Hup].
      - apply Z.ltb_lt in Hup. lia.
      - apply andb_true_iff in Hup as [Hup _]. apply Z.eqb_eq in Hup. lia. }
    nia.
  - apply orb_false_iff in Hup as [Hup _]. apply Z.ltb_ge in Hup. nia.
Qed.

(** What passes the test of the code is within 70% of [maxTokens] ... *)
Lemma withinBudget_seventy tokens maxTokens :
  0 <= tokens -> maxTokens < 2 ^ 49 ->
  withinBudget tokens maxTokens = true -> 10 * tokens <= 7 * maxTokens.
Proof.
  intros Ht Hlt. unfold withinBudget. rewrite Z.leb_le. intros H.
  assert (0 < 2 ^ 53) by (apply Z.pow_pos_nonneg; lia).
  destruct (Z.lt_trichotomy maxTokens 0) as [Hneg|[->|Hpos]].
  - exfalso. unfold timesSeventyPercent in H.
    rewrite (Z.sgn_neg maxTokens) in H by exact Hneg.
    set (exact := Z.abs maxTokens * seventyPercent) in *.
    assert (Hex : 0 < exact) by (subst exact; unfold seventyPercent; lia).
    set (ulp := 2 ^ Z.max 0 (Z.log2 exact - 52)) in *.
    assert (Hulp : 0 < ulp <= exact).
    { pose proof (Z.log2_spec exact Hex) as [Hlow _].
      pose proof (Z.log2_nonneg exact).
      split; [subst ulp; apply Z.pow_pos_nonneg; lia|].
      etransitivity; [|exact Hlow]. subst ulp. apply Z.pow_le_mono_r; lia. }
    pose proof (Z.div_mod exact ulp ltac:(lia)) as Hdiv.
    pose proof (Z.mod_pos_bound exact ulp ltac:(lia)) as Hmod.
    assert (Hq : 0 <= exact / ulp) by (apply Z.div_pos; lia).
    set (q := exact / ulp) in *. set (r := exact mod ulp) in *.
    assert (0 < (if (ulp <? 2 * r) || ((ulp =? 2 * r) && Z.odd q) then q + 1 else q) * ulp).
    { destruct ((ulp <? 2 * r) || ((ulp =? 2 * r) && Z.odd q)) eqn:Hup; [nia|].
      apply orb_false_iff in Hup as [Hup _]. apply Z.ltb_ge in Hup.
      assert (0 < q) by nia. nia. }
    nia.
  - change (timesSeventyPercent 0) with 0 in H. lia.
  - pose proof (timesSeventyPercent_bounds maxTokens ltac:(lia)) as [_ Hb].
    unfold seventyPercent in Hb.
    change (2 ^ 53) with 9007199254740992 in *. change (2 ^ 49) with 562949953421312 in *.
    lia.
Qed.

(** ... and what is strictly below 70% of [maxTokens] passes it. *)
Lemma withinBudget_below tokens maxTokens :
  0 <= tokens -> maxTokens < 2 ^ 49 ->
  10 * tokens < 7 * maxTokens -> withinBudget tokens maxTokens = true.
Proof.
  intros Ht Hlt Hlt7. unfold withinBudget. rewrite Z.leb_le.
  pose proof (timesSeventyPercent_bounds maxTokens ltac:(lia)) as [Hb _].
  unfold seventyPercent in Hb.
  change (2 ^ 53) with 9007199254740992 in *. change (2 ^ 49) with 562949953421312 in *.
  lia.
Qed.

(** Beyond that range the rounding of the product shows: just below
    2^53 the test of the code lets through a count above seventy
    percent. *)
Example withinBudget_beyond_seventy_percent :
  withinBudget 6305039478318691 9007199254740987 = true
  /\ 7 * 9007199254740987 < 10 * 6305039478318691.
Proof. split; [vm_compute; reflexivity|lia]. Qed.

(** While everything that is still to come fits, the backward loop keeps
    every round. *)
Lemma compress_keeps_all maxTokens (rounds : list (list ConversationMessage)) :
  forall st,
    withinBudget (currentTokens st + totalTokens (concat rounds)) maxTokens = true ->
    fold_left (compressStep maxTokens) rounds st
    = {| result := concat (rev rounds) ++ result st;
         currentTokens := currentTokens st + totalTokens (concat rounds);
         summaries := summaries st |}.
Proof.
  induction rounds as [|r rounds IH]; intros st H.
  - cbn. destruct st; cbn. f_equal. lia.
  - cbn [fold_left concat] in *. rewrite totalTokens_app in H.
    unfold compressStep at 2.
    pose proof (totalTokens_nonneg (concat rounds)) as Hpos.
    assert (Hr : withinBudget (currentTokens st + totalTokens r) maxTokens = true)
      by (eapply withinBudget_mono; [|exact H]; lia).
    rewrite Hr.
    rewrite IH; cbn [currentTokens result summaries].
    + cbn [rev]. rewrite concat_app, totalTokens_app. cbn [concat].
      rewrite app_nil_r, <- app_assoc. f_equal. lia.
    + eapply withinBudget_mono; [|exact H]. lia.
Qed.

(** A history that fits the budget is left as it is. *)
Lemma compressHistory_within_budget messages maxTokens :
  withinBudget (totalTokens messages) maxTokens = true ->
  compressHistory messages maxTokens = messages.
Proof.
  intros H. unfold compressHistory. cbv zeta.
  rewrite compress_keeps_all; cbn [currentTokens result summaries].
  - rewrite rev_involutive, groupRounds_concat, app_nil_r. reflexivity.
  - rewrite totalTokens_concat_rev, groupRounds_concat. exact H.
Qed.

End CompressionProofs.

(** C6, amended.  An output of [compressHistory] whose total estimate
    is strictly below 70% of [maxTokens] (for [maxTokens] below 2^49) is
    returned as it is by a second pass with the same [maxTokens]: the
    number of messages is not reduced. *)
Theorem compressHistory_idempotent_count (messages : list ConversationMessage) (maxTokens : Z) :
  let compressed := compressHistory messages maxTokens in
  maxTokens < 2 ^ 49 ->
  10 * totalTokens compressed < 7 * maxTokens ->
  compressHistory compressed maxTokens = compressed
  /\ (length compressed <= length (compressHistory compressed maxTokens))%nat.
Proof.
  intros compressed Hmax Hlt.
  assert (H : compressHistory compressed maxTokens = compressed).
  { apply compressHistory_within_budget, withinBudget_below; [|exact Hmax|exact Hlt].
    apply totalTokens_nonneg. }
  rewrite H. split; [reflexivity|lia].
Qed.



Example longHistory_compressed :
  totalTokens longHistory = 118
  /\ compressHistory longHistory 100
     = [Msg system (js "【历史回合摘要】
第2回合: ");
        Msg user (js "第1回合 决策 alpha"); Msg assistant (js "one two");
        Msg user (js "第3回合"); Msg assistant (js "three four")]
  /\ totalTokens (compressHistory longHistory 100) = 20.
Proof. repeat split; vm_compute; reflexivity. Qed.

Lemma compressHistory_idempotent_count_witness :
  compressHistory (compressHistory longHistory 100) 100 = compressHistory longHistory 100
  /\ (length (compressHistory longHistory 100)
      <= length (compressHistory (compressHistory longHistory 100) 100))%nat.
Proof.
  apply (compressHistory_idempotent_count longHistory 100).
  - vm_compute. reflexivity.
  - vm_compute. reflexivity.
Defined.

(** C6, counterexample.  An output of 20 tokens, compressed with
    [maxTokens] 21, is under [maxTokens] and yet above the budget of the
    keep loop (14.7): a second pass with the same [maxTokens] reduces its
    5 messages to 3. *)
Lemma compressHistory_shrinks_above_budget :
  let compressed := compressHistory longHistory 21 in
  totalTokens compressed = 20
  /\ length compressed = 5%nat
  /\ length (compressHistory compressed 21) = 3%nat.
Proof. repeat split; vm_compute; reflexivity. Qed.

(** At exactly 70% the double decides: 90 * 0.7 is 62.99999999999999, so
    an output of 63 tokens, compressed with [maxTokens] 90, does not pass
    the test again, and a second pass reduces its 3 messages to 1. *)
Example compressHistory_at_seventy_percent :
  let compressed := compressHistory boundaryHistory 90 in
  totalTokens compressed = 63
  /\ length compressed = 3%nat
  /\ withinBudget 63 90 = false
  /\ length (compressHistory compressed 90) = 1%nat.
Proof. repeat split; vm_compute; reflexivity. Qed.

Section GateProofs.
Context (env : Env).

(** Inside [getConversationHistory] the compression is not run at all on
    a history whose estimate is at most [maxTokens]. *)
Lemma getConversationHistory_under_maxTokens sessionId currentRound config tr m history :
  enabled (mergeHistoryConfig config) = true ->
  findMany env sessionId (Z.max 1 (currentRound - maxRounds (mergeHistoryConfig config)))
    currentRound = Ok (m :: history) ->
  totalTokens (m :: history) <= maxTokens (mergeHistoryConfig config) ->
  (getConversationHistory env sessionId currentRound config tr).1 = Ok (m :: history).
Proof.
  intros He Hf Hle.
  unfold getConversationHistory, try_catch, mbind, M_bind, mret, M_ret, emit, lift.
  cbv beta iota zeta. rewrite He, Hf. cbn [negb]. cbv beta iota.
  destruct (Z.ltb_spec (maxTokens (mergeHistoryConfig config)) (totalTokens (m :: history)));
    [lia|reflexivity].
Qed.

End GateProofs.

(** C5.  On a history of three rounds in which only the middle one is
    large, [getConversationHistory] compresses to: the synopsis of round
    2, then round 1 in full, then round 3 in full.  Round 1 is older than
    the round at which the budget ran out and is kept all the same, and
    the synopsis carries no text of the assistant's reply, which has no
    fenced block. *)
Theorem getConversationHistory_keeps_older_round :
  let env := {| http := fun _ _ _ => Ok JNull;
                createMany := fun _ => Ok 0;
                findMany := fun _ _ _ => Ok longHistory;
                toLocaleString := intToString |} in
  let config := {| p_enabled := None; p_maxRounds := None; p_maxTokens := Some 100;
                   p_summarizeOldRounds := None |} in
  withinBudget (totalTokens [Msg user (js "第3回合"); Msg assistant (js "three four")]
                + totalTokens [Msg user (js "第2回合 决策"); Msg assistant (words 100)]) 100 = false
  /\ (getConversationHistory env (js "s1") 4 config []).1
     = Ok [Msg system (js "【历史回合摘要】
第2回合: ");
           Msg user (js "第1回合 决策 alpha"); Msg assistant (js "one two");
           Msg user (js "第3回合"); Msg assistant (js "three four")].
Proof. split; vm_compute; reflexivity. Qed.

(** ** Lorebook engine *)


Section LorebookProofs.

(** The sort is stable: the entries of one priority keep their order. *)
Lemma insertByPriority_same_priority p e sorted :
  List.filter (fun x => priority x =? p) (insertByPriority e sorted)
  = List.filter (fun x => priority x =? p) (e :: sorted).
Proof.
  induction sorted as [|x rest IH]; [reflexivity|].
  cbn [insertByPriority]. destruct (Z.leb_spec (priority x) (priority e)); [reflexivity|].
  cbn [List.filter] in *. rewrite IH.
  destruct (Z.eqb_spec (priority e) p), (Z.eqb_spec (priority x) p); try reflexivity. lia.
Qed.

Lemma sortByPriority_stable p entries :
  List.filter (fun x => priority x =? p) (sortByPriority entries)
  = List.filter (fun x => priority x =? p) entries.
Proof.
  induction entries as [|e rest IH]; [reflexivity|].
  unfold sortByPriority in *. cbn [foldr].
  rewrite insertByPriority_same_priority. cbn [List.filter]. by rewrite IH.
Qed.

(** The sort puts the higher priorities first. *)
Lemma insertByPriority_descending e sorted :
  StronglySorted (fun a b => priority b <= priority a) sorted ->
  StronglySorted (fun a b => priority b <= priority a) (insertByPriority e sorted).
Proof.
  induction 1 as [|x rest Hs IH Hx]; [repeat constructor|].
  cbn [insertByPriority]. destruct (Z.leb_spec (priority x) (priority e)).
  - constructor; [by constructor|]. constructor; [done|].
    eapply Forall_impl; [exact Hx|]. cbn. intros. lia.
  - constructor; [exact IH|].
    assert (Hin : forall y, In y (insertByPriority e rest) -> y = e \/ In y rest).
    { clear. induction rest as [|z rest IH]; cbn [insertByPriority].
      - intros y [<-|[]]. by left.
      - destruct (priority z <=? priority e).
        + intros y [<-|Hy]; [by left|by right].
        + intros y [<-|Hy]; [right; by left|].
          destruct (IH y Hy); [by left|right; by right]. }
    apply List.Forall_forall. intros y Hy. destruct (Hin y Hy) as [->|Hr]; [lia|].
    by apply (proj1 (List.Forall_forall _ _) Hx).
Qed.

Lemma sortByPriority_descending entries :
  StronglySorted (fun a b => priority b <= priority a) (sortByPriority entries).
Proof.
  induction entries as [|e rest IH]; [constructor|].
  apply insertByPriority_descending, IH.
Qed.

Example sortByPriority_keeps_ties :
  map id (sortByPriority [zeroLimitEntry; limitedEntry; activate zeroLimitEntry])
  = map id [limitedEntry; zeroLimitEntry; activate zeroLimitEntry].
Proof. vm_compute. reflexivity. Qed.

Lemma scanEntries_entries promptContent entries :
  (scanEntries promptContent entries).1
  = map (fun e => if fires promptContent e then activate e else e) entries.
Proof.
  induction entries as [|e rest IH]; [reflexivity|].
  cbn [scanEntries map]. destruct (scanEntries promptContent rest) as [rest' triggered].
  cbn [fst] in IH. destruct (fires promptContent e); cbn [fst]; by rewrite IH.
Qed.

Lemma scanEntries_triggered promptContent entries :
  (scanEntries promptContent entries).2
  = map activate (List.filter (fires promptContent) entries).
Proof.
  induction entries as [|e rest IH]; [reflexivity|].
  cbn [scanEntries List.filter]. destruct (scanEntries promptContent rest) as [rest' triggered].
  cbn [snd] in IH. destruct (fires promptContent e); cbn [snd map]; by rewrite IH.
Qed.

Lemma fires_iff promptContent e :
  fires promptContent e = true
  <-> lore_enabled e = true
      /\ (exists keyword, In keyword (keywords e) /\ includes promptContent keyword = true)
      /\ (forall m, maxActivations e = Some m -> m <> 0 -> default 0 (activationCount e) < m).
Proof.
  unfold fires. destruct (lore_enabled e); cbn [negb].
  2:{ split; [discriminate|]. intros (H & _). discriminate. }
  destruct (existsb _ (keywords e)) eqn:Hk.
  - apply existsb_exists in Hk.
    destruct (maxActivations e) as [m|].
    + destruct (Z.eqb_spec m 0) as [->|Hm]; cbn [negb andb].
      * split; [|done]. intros _. repeat split; [done|]. intros m [= <-]. done.
      * destruct (Z.leb_spec m (default 0 (activationCount e))).
        -- split; [discriminate|]. intros (_ & _ & H'). specialize (H' m eq_refl Hm). lia.
        -- split; [|done]. intros _. repeat split; [done|]. intros m' [= <-] _. lia.
    + split; [|done]. intros _. repeat split; [done|]. intros m [=].
  - split; [discriminate|]. intros (_ & Hex & _).
    apply not_true_iff_false in Hk. exfalso. apply Hk, existsb_exists. exact Hex.
Qed.

End LorebookProofs.

(** C7, amended.  After [getTriggeredLoreEntries] every entry of the
    session has fired or is unchanged; it has fired exactly when it is
    enabled, one of its keywords occurs in the prompt text, and, when
    [maxActivations] is set to a value other than 0, its activation count
    is below it; firing adds exactly one to the count. *)
Theorem getTriggeredLoreEntries_fires
    (lorebookCache : gmap (list Z) (list LorebookEntry))
    (sessionId promptContent : jsstring) (maxTokens : Z) (entries : list LorebookEntry) :
  lorebookCache !! sessionId = Some entries ->
  (getTriggeredLoreEntries lorebookCache sessionId promptContent maxTokens).2 !! sessionId
  = Some (map (fun e => if fires promptContent e then activate e else e) entries)
  /\ forall e,
       (fires promptContent e = true
        <-> lore_enabled e = true
            /\ (exists keyword, In keyword (keywords e) /\ includes promptContent keyword = true)
            /\ (forall m, maxActivations e = Some m -> m <> 0 ->
                          default 0 (activationCount e) < m))
       /\ activationCount (activate e) = Some (default 0 (activationCount e) + 1).
Proof.
  intros Hcache. split.
  - unfold getTriggeredLoreEntries. rewrite Hcache.
    destruct entries as [|e0 rest]; [exact Hcache|].
    rewrite <- scanEntries_entries.
    destruct (scanEntries promptContent (e0 :: rest)) as [entries' triggered].
    cbn [fst]. destruct triggered; cbn [snd]; apply lookup_insert_eq.
  - intros e. split; [apply fires_iff|reflexivity].
Qed.



Lemma getTriggeredLoreEntries_fires_witness :
  (getTriggeredLoreEntries {[ js "s" := [zeroLimitEntry; limitedEntry] ]} (js "s") (js "xax") 2000).2
    !! js "s"
  = Some (map (fun e => if fires (js "xax") e then activate e else e) [zeroLimitEntry; limitedEntry]).
Proof.
  apply (getTriggeredLoreEntries_fires {[ js "s" := [zeroLimitEntry; limitedEntry] ]}
           (js "s") (js "xax") 2000 [zeroLimitEntry; limitedEntry]).
  vm_compute. reflexivity.
Defined.

(** C7, counterexample.  An enabled entry whose keyword occurs and whose
    [maxActivations] is set to 0 has reached its limit, yet it fires: it
    is injected and its counter goes from 0 to 1. *)
Lemma lorebook_zero_limit_fires :
  let out := getTriggeredLoreEntries {[ js "s" := [zeroLimitEntry] ]} (js "s") (js "xax") 2000 in
  spec_fires (js "xax") zeroLimitEntry = false
  /\ out.2 !! js "s" = Some [activate zeroLimitEntry]
  /\ activationCount (activate zeroLimitEntry) = Some 1
  /\ out.1 = js "【Lorebook 背景知识】

lore text
".
Proof. repeat split; vm_compute; reflexivity. Qed.

(** ** Response extractor *)

Section ExtractorProofs.

Lemma streq_true a b : streq a b = true <-> a = b.
Proof. unfold streq. apply bool_decide_eq_true. Qed.

Lemma streq_false a b : streq a b = false <-> a <> b.
Proof. unfold streq. apply bool_decide_eq_false. Qed.

Lemma obj_lookup_set_ne props k' v k :
  k' <> k -> obj_lookup (obj_set props k' v) k = obj_lookup props k.
Proof.
  intros Hne. induction props as [|[k0 v0] rest IH]; cbn [obj_set obj_lookup].
  - by rewrite (proj2 (streq_false k' k)).
  - destruct (streq k0 k') eqn:E0; cbn [obj_lookup].
    + apply streq_true in E0 as ->. by rewrite (proj2 (streq_false k' k)).
    + destruct (streq k0 k); [reflexivity|exact IH].
Qed.

Lemma obj_lookup_fold_set (kvs : list (jsstring * jsval)) k : forall props,
  Forall (fun kv => kv.1 <> k) kvs ->
  obj_lookup (fold_left (fun acc kv => obj_set acc kv.1 kv.2) kvs props) k
  = obj_lookup props k.
Proof.
  induction kvs as [|kv kvs IH]; intros props H; [reflexivity|].
  inversion H; subst. cbn [fold_left]. rewrite IH by assumption.
  by apply obj_lookup_set_ne.
Qed.

Lemma digits_fuel_head fuel : forall n acc,
  exists d rest, digits_fuel (S fuel) n acc = d :: rest /\ isDigit d = true.
Proof.
  induction fuel as [|fuel IH]; intros n acc.
  - cbn [digits_fuel]. exists (48 + n mod 10), acc.
    split; [by destruct (n <? 10)|].
    unfold isDigit. pose proof (Z.mod_pos_bound n 10 ltac:(lia)). lia.
  - remember (S fuel) as fuel' eqn:Hf. cbn [digits_fuel]. subst fuel'.
    destruct (n <? 10); [|apply IH].
    exists (48 + n mod 10), acc. split; [reflexivity|].
    unfold isDigit. pose proof (Z.mod_pos_bound n 10 ltac:(lia)). lia.
Qed.

Lemma intToString_nat_head (i : nat) :
  exists d rest, intToString (Z.of_nat i) = d :: rest /\ isDigit d = true.
Proof.
  unfold intToString. destruct (Z.ltb_spec (Z.of_nat i) 0); [lia|].
  apply digits_fuel_head.
Qed.

(** An array index is never the name of one of the fields of the result. *)
Lemma ownProps_array_keys items k c r :
  k = c :: r -> isDigit c = false ->
  Forall (fun kv : jsstring * jsval => kv.1 <> k) (ownProps (JArray items)).
Proof.
  intros -> Hc. cbn [ownProps]. apply Forall_forall. intros [k' v] Hin.
  apply elem_of_lookup_imap in Hin as (i & x & Heq & _).
  injection Heq as -> _. cbn [fst].
  destruct (intToString_nat_head i) as (d & rest & -> & Hd). congruence.
Qed.

Lemma spread_array_lookup props items k c r :
  k = c :: r -> isDigit c = false ->
  obj_lookup (spread props (JArray items)) k = obj_lookup props k.
Proof.
  intros Hk Hc. unfold spread. apply obj_lookup_fold_set.
  by eapply ownProps_array_keys.
Qed.


Lemma get_array_field items k :
  streq k (js "length") = false -> array_index k = None ->
  get (JArray items) k = Ok JUndefined.
Proof. intros H1 H2. unfold get. rewrite H1, H2. reflexivity. Qed.

Lemma tryParsed_non_object content cap :
  (forall props, JSON_parse (trim cap) <> Ok (JObject props)) ->
  match tryParsed content cap with
  | Ok (Some r) => fallbackShape content r
  | _ => True
  end.
Proof.
  intros Hno. unfold tryParsed.
  destruct (JSON_parse (trim cap)) as [parsed|e]; [|exact I].
  destruct parsed as [| |b|n|s|items|props];
    cbn [mbind Ex_bind typeof_object]; rewrite ?andb_false_r; try exact I.
  - cbn [mbind Ex_bind truthy typeof_object andb].
    rewrite !get_array_field by reflexivity.
    change (mapEntityPanelsToOutcomes JUndefined) with (Ok (JArray []) : Ex jsval).
    change (mapTurnEvents JUndefined) with (Ok (JArray []) : Ex jsval).
    cbv beta iota. unfold js_or. cbn [truthy].
    unfold fallbackShape, get.
    repeat split;
      (erewrite spread_array_lookup; [reflexivity | vm_compute; reflexivity | reflexivity]).
  - exfalso. by apply (Hno props).
Qed.

Lemma parseWithPatterns_fallback content : forall patterns,
  (forall pattern cap, In pattern patterns -> pattern content = Some cap -> cap <> [] ->
     forall props, JSON_parse (trim cap) <> Ok (JObject props)) ->
  fallbackShape content (parseWithPatterns patterns content).
Proof.
  induction patterns as [|pattern rest IH]; intros H.
  - repeat split.
  - cbn [parseWithPatterns].
    assert (IH' : fallbackShape content (parseWithPatterns rest content)).
    { apply IH. intros p cap Hin. apply H. by right. }
    destruct (pattern content) as [cap|] eqn:Hm; [|exact IH'].
    destruct (streq cap []) eqn:Hcap; [exact IH'|].
    apply streq_false in Hcap.
    pose proof (tryParsed_non_object content cap (H pattern cap (or_introl eq_refl) Hm Hcap)) as Ht.
    destruct (tryParsed content cap) as [[r|]|e]; [exact Ht|exact IH'|exact IH'].
Qed.

End ExtractorProofs.

(** C8.  When no pattern yields a non-empty group that parses as a JSON
    object, [parseNarrativeResponse] returns normally, with the whole raw
    text as the narrative and empty outcomes and events. *)
Theorem parseNarrativeResponse_raw_fallback (content : jsstring) :
  (forall pattern cap,
     In pattern jsonPatterns -> pattern content = Some cap -> cap <> [] ->
     forall props, JSON_parse (trim cap) <> Ok (JObject props)) ->
  exists r,
    parseNarrativeResponse content = Ok r
    /\ get r (js "narrative") = Ok (JString content)
    /\ get r (js "outcomes") = Ok (JArray [])
    /\ get r (js "events") = Ok (JArray []).
Proof.
  intros H. eexists. split; [reflexivity|].
  by apply parseWithPatterns_fallback.
Qed.


Lemma parseNarrativeResponse_raw_fallback_witness :
  exists r,
    parseNarrativeResponse fencedArrayText = Ok r
    /\ get r (js "narrative") = Ok (JString fencedArrayText)
    /\ get r (js "outcomes") = Ok (JArray [])
    /\ get r (js "events") = Ok (JArray []).
Proof.
  apply (parseNarrativeResponse_raw_fallback fencedArrayText).
  intros pattern cap Hin Hm Hne props.
  cbn [jsonPatterns In] in Hin.
  destruct Hin as [<-|[<-|[<-|[]]]]; vm_compute in Hm; try discriminate.
  injection Hm as <-. vm_compute. discriminate.
Defined.

Example parseNarrativeResponse_prose :
  parseNarrativeResponse (js "第2回合：市场平稳，无事发生。")
  = Ok (JObject [(js "narrative", JString (js "第2回合：市场平稳，无事发生。"));
                 (js "outcomes", JArray []); (js "events", JArray [])]).
Proof. vm_compute. reflexivity. Qed.

Example parseNarrativeResponse_fenced_array :
  parseNarrativeResponse fencedArrayText
  = Ok (JObject [(js "narrative", JString fencedArrayText);
                 (js "outcomes", JArray []); (js "events", JArray []);
                 (js "nextRoundHints", JUndefined);
                 (js "0", JInt 1); (js "1", JInt 2)]).
Proof. vm_compute. reflexivity. Qed.

Example parseNarrativeResponse_structured :
  parseNarrativeResponse (jsq "```json
{'narrative': 'N', 'perEntityPanel': [{'name': 'Alpha', 'cash': 900, 'broken': false}],
 'events': [{'keyword': 'k'}]}
```")
  = Ok (JObject
          [(js "narrative", JString (js "N"));
           (js "outcomes",
            JArray [JObject [(js "playerIndex", JInt 0);
                             (js "outcome", JString (js "Alpha 当前现金: 900"));
                             (js "resources",
                              JObject [(js "cash", JInt 900);
                                       (js "passiveIncome", JUndefined);
                                       (js "passiveExpense", JUndefined)])]]);
           (js "events", JArray [JObject [(js "keyword", JString (js "k"))]]);
           (js "nextRoundHints", JUndefined);
           (js "perEntityPanel",
            JArray [JObject [(js "name", JString (js "Alpha")); (js "cash", JInt 900);
                             (js "broken", JBool false)]])]).
Proof. vm_compute. reflexivity. Qed.

(** ** The two-call orchestrator *)

Section OrchestratorProofs.
Import DualApi.
Context (env : Env).

Lemma requests_app tr1 tr2 : requests (tr1 ++ tr2) = requests tr1 ++ requests tr2.
Proof. unfold requests. apply filter_app. Qed.

(** [generateNarrative] issues exactly one request and returns normally. *)
Lemma generateNarrative_run config request tr :
  exists nres tr1,
    generateNarrative env config request tr = (Ok nres, tr1)
    /\ requests tr1
       = requests tr ++ [EvRequest (endpoint config) (narrativeBody config request) 120000].
Proof.
  unfold generateNarrative, try_catch, mbind, M_bind, http_request, lift, emit, mret, M_ret, throw.
  cbv beta iota.
  assert (Hreq : forall l, requests l = [] ->
            requests ((tr ++ [EvRequest (endpoint config) (narrativeBody config request) 120000]) ++ l)
            = requests tr ++ [EvRequest (endpoint config) (narrativeBody config request) 120000]).
  { intros l Hl. rewrite !requests_app, Hl, app_nil_r. reflexivity. }
  destruct (http env _ _ _) as [data|e]; cbv beta iota.
  - destruct (contentOfResponse data) as [content|e]; cbv beta iota.
    + destruct (negb (truthy content)); cbv beta iota.
      * do 2 eexists. split; [reflexivity|]. rewrite <- (app_nil_r (_ ++ [_])). by apply Hreq.
      * destruct content; cbv beta iota;
          do 2 eexists; (split; [reflexivity|]);
          solve [ rewrite <- (app_nil_r (_ ++ [_])); by apply Hreq | by apply Hreq ].
    + do 2 eexists. split; [reflexivity|]. by apply Hreq.
  - do 2 eexists. split; [reflexivity|]. by apply Hreq.
Qed.


Lemma parseNarrative_run config request tr :
  exists pres tr1,
    parseNarrative env config request tr = (Ok pres, tr1)
    /\ parserAnswer env config request tr pres.
Proof.
  unfold parserAnswer, parseNarrative, try_catch, mbind, M_bind, Ex_bind, http_request, lift,
    emit, mret, M_ret, throw, nreq, requests.
  cbv beta iota.
  destruct (http env _ _ _) as [data|e]; cbv beta iota.
  - destruct (contentOfResponse data) as [content|e]; cbv beta iota.
    + destruct content as [| |b|n|s|items|props]; cbn [truthy negb]; cbv beta iota;
        try (do 2 eexists; split; [reflexivity|]; cbn; done).
      * destruct b; cbn [negb]; cbv beta iota; do 2 eexists; (split; [reflexivity|]); cbn; done.
      * destruct (negb (num_is_zero n)); cbn [negb]; cbv beta iota;
          do 2 eexists; (split; [reflexivity|]); cbn; done.
      * destruct s as [|c r]; cbn [streq negb]; cbv beta iota.
        -- do 2 eexists. split; [reflexivity|]. cbn. done.
        -- replace (streq (c :: r) []) with false by (symmetry; by apply streq_false).
           cbn [negb]. cbv beta iota. do 2 eexists. split; [reflexivity|]. cbn. done.
    + do 2 eexists. split; [reflexivity|]. cbn. done.
  - do 2 eexists. split; [reflexivity|]. cbn. done.
Qed.


Lemma validPanel_Some cap parsed :
  validPanel cap = Some parsed
  <-> exists props panel,
        parsed = JObject props
        /\ JSON_parse (trim cap) = Ok (JObject props)
        /\ obj_lookup props (js "perEntityPanel") = Some panel
        /\ truthy panel = true.
Proof.
  unfold validPanel.
  destruct (JSON_parse (trim cap)) as [v|e].
  2:{ split; [discriminate|]. intros (? & ? & _ & ? & _). discriminate. }
  destruct v as [| |b|n|s|items|props];
    cbn [typeof_object truthy andb]; rewrite ?andb_false_r;
    try (split; [discriminate|]; intros (? & ? & _ & ? & _); discriminate).
  - cbn [get].
    destruct (obj_lookup props (js "perEntityPanel")) as [panel|] eqn:Hp;
      cbn [default from_option]; unfold Datatypes.id.
    + destruct (truthy panel) eqn:Ht; cbv beta iota.
      * split.
        -- intros H. injection H as <-. eauto 6.
        -- intros (props' & panel' & -> & [= <-] & _). reflexivity.
      * split; [discriminate|].
        intros (props' & panel' & _ & [= <-] & Hp' & Ht'). congruence.
    + cbn [truthy]. split; [discriminate|].
      intros (props' & panel' & _ & [= <-] & Hp' & _). congruence.
Qed.

Lemma extractWithPatterns_is_Some raw : forall ps,
  is_Some (extractWithPatterns ps raw)
  <-> exists pattern cap,
        In pattern ps /\ pattern raw = Some cap /\ cap <> [] /\ is_Some (validPanel cap).
Proof.
  induction ps as [|p ps IH]; cbn [extractWithPatterns].
  - split; [intros [? [=]]|intros (? & ? & [] & _)].
  - destruct (p raw) as [cap|] eqn:Hp.
    + destruct (streq cap []) eqn:Hcap.
      * apply streq_true in Hcap as ->. rewrite IH. split.
        -- intros (q & cap & Hin & H). exists q, cap. split; [by right|exact H].
        -- intros (q & cap & [<-|Hin] & Hq & Hne & H); [congruence|eauto 6].
      * apply streq_false in Hcap.
        destruct (validPanel cap) as [v|] eqn:Hv.
        -- split; [|intros _; by eexists]. intros _. exists p, cap. rewrite Hv.
           repeat split; [by left|done|done|by eexists].
        -- rewrite IH. split.
           ++ intros (q & cap' & Hin & H). exists q, cap'. split; [by right|exact H].
           ++ intros (q & cap' & [<-|Hin] & Hq & Hne & H); [|eauto 6].
              rewrite Hp in Hq. injection Hq as <-. rewrite Hv in H. by destruct H.
    + rewrite IH. split.
      * intros (q & cap & Hin & H). exists q, cap. split; [by right|exact H].
      * intros (q & cap & [<-|Hin] & Hq & Hne & H); [congruence|eauto 6].
Qed.

End OrchestratorProofs.

Section MoreOrchestrator.
Import DualApi.
Context (env : Env).

(** The error that a failed narrative request leaves in the result. *)
Lemma generateNarrative_request_error config request tr e :
  http env (nreq tr) (endpoint config) (narrativeBody config request) = Throw e ->
  (generateNarrative env config request tr).1
  = Ok {| success := false; narrative := None;
          error := Some (apiErrorMessage (js "剧情生成失败") e) |}.
Proof.
  intros H.
  unfold generateNarrative, try_catch, mbind, M_bind, http_request, lift, emit, mret, M_ret.
  cbv beta iota. fold (requests tr). fold (nreq tr). rewrite H. reflexivity.
Qed.

End MoreOrchestrator.

Section DualClaims.
Import DualApi.






(** C10, amended.  When the parser call returns a non-empty text,
    [rawText] carries that text in full and [parseSuccess] is [true]
    exactly when some pattern extracts a non-empty block that parses as a
    JSON object whose [perEntityPanel] property is truthy (present and
    not [null], [false], [0] or the empty string); otherwise it is
    [false] and there is no panel data. *)
Theorem parseNarrative_parseSuccess_iff (env : Env) (config : ApiConfig)
    (request : ParserRequest) (tr : list event) (data : jsval) (raw : jsstring) :
  http env (nreq tr) (endpoint config) (parserBody env config request) = Ok data ->
  contentOfResponse data = Ok (JString raw) ->
  raw <> [] ->
  exists pres tr1,
    parseNarrative env config request tr = (Ok pres, tr1)
    /\ rawText pres = Some raw
    /\ (parseSuccess pres = Some true
        <-> exists pattern cap props panel,
              In pattern patterns /\ pattern raw = Some cap /\ cap <> []
              /\ JSON_parse (trim cap) = Ok (JObject props)
              /\ obj_lookup props (js "perEntityPanel") = Some panel
              /\ truthy panel = true)
    /\ (parseSuccess pres = Some true
        \/ (parseSuccess pres = Some false /\ panelData pres = None)).
Proof.
  intros Hhttp Hcontent Hraw.
  destruct (parseNarrative_run env config request tr) as (pres & tr1 & Hrun & Hans).
  exists pres, tr1. split; [exact Hrun|].
  unfold parserAnswer in Hans. rewrite Hhttp in Hans. cbn [mbind Ex_bind] in Hans.
  rewrite Hcontent in Hans. destruct raw as [|c r]; [done|].
  destruct Hans as (_ & Hrawtext & Hpanel & Hps).
  split; [exact Hrawtext|]. rewrite Hps, Hpanel. unfold extractJsonFromResponse.
  pose proof (extractWithPatterns_is_Some (c :: r) patterns) as Hiff.
  assert (Hvalid : forall cap,
            is_Some (validPanel cap)
            <-> exists props panel,
                  JSON_parse (trim cap) = Ok (JObject props)
                  /\ obj_lookup props (js "perEntityPanel") = Some panel
                  /\ truthy panel = true).
  { intros cap. split.
    - intros [v Hv]. apply validPanel_Some in Hv as (props & panel & _ & H). eauto.
    - intros (props & panel & H). exists (JObject props). apply validPanel_Some. eauto 6. }
  destruct (extractWithPatterns patterns (c :: r)) as [v|].
  - assert (Hdec : bool_decide (is_Some (Some v)) = true) by (apply bool_decide_eq_true; by eexists).
    rewrite Hdec. split; [|by left]. split; [intros _|done].
    destruct Hiff as [Hiff _]. destruct (Hiff ltac:(by eexists)) as (p & cap & Hin & Hm & Hne & Hv).
    apply Hvalid in Hv as (props & panel & Hv). exists p, cap, props, panel. done.
  - assert (Hdec : bool_decide (is_Some (@None jsval)) = false)
      by (apply bool_decide_eq_false; by intros [? ?]).
    rewrite Hdec. split; [|by right]. split; [discriminate|].
    intros (p & cap & props & panel & Hin & Hm & Hne & Hv).
    destruct Hiff as [_ Hiff]. destruct Hiff as [? [=]].
    exists p, cap. repeat split; try done. apply Hvalid. eauto.
Qed.



(** C2, amended.  When the narrative call has succeeded with [text] and
    the parser step yields no panel data, the route still answers 200
    with [success = true] and exactly [text] as the narrative,
    [panelData = null] and a parse error; when the parser returned a
    text, that text is preserved as [parserRawText] and [parseSuccess] is
    [false]; when the parser call itself failed or returned nothing,
    [parserRawText] and [parseSuccess] are [undefined]. *)
Theorem fullRound_parser_degradation (env : Env) (req : FullRoundBody) (tr : list event)
    (ncfg pcfg : ApiConfig) (nres : NarrativeResponse) (tr1 : list event)
    (text : jsstring) (pres : ParserResponse) (tr2 : list event) :
  configured (narrativeConfig req) = Some ncfg ->
  configured (parserConfig req) = Some pcfg ->
  generateNarrative env ncfg (narrativeRequestOf req) tr = (Ok nres, tr1) ->
  success nres = true ->
  given (narrative nres) = Some text ->
  parseNarrative env pcfg (parserRequestOf req text) tr1 = (Ok pres, tr2) ->
  panelData pres = None ->
  let response := roundResult text pres in
  fullRound env req tr = (Ok response, tr2)
  /\ status response = 200
  /\ get (body response) (js "success") = Ok (JBool true)
  /\ get (body response) (js "narrative") = Ok (JString text)
  /\ get (body response) (js "panelData") = Ok JNull
  /\ get (body response) (js "parseError") = Ok (JString (js "无法解析JSON结构"))
  /\ ((exists raw,
         rawText pres = Some raw
         /\ get (body response) (js "parserRawText") = Ok (JString raw)
         /\ get (body response) (js "parseSuccess") = Ok (JBool false))
      \/ (p_success pres = false
          /\ get (body response) (js "parserRawText") = Ok JUndefined
          /\ get (body response) (js "parseSuccess") = Ok JUndefined)).
Proof.
  intros Hn Hp Hrun Hok Htext Hparse Hpanel response. split.
  { unfold fullRound, try_catch. rewrite Hn, Hp.
    unfold mbind, M_bind. rewrite Hrun, Hok, Htext, Hparse. reflexivity. }
  destruct (parseNarrative_run env pcfg (parserRequestOf req text) tr1)
    as (pres' & tr2' & Hparse' & Hans).
  rewrite Hparse in Hparse'. injection Hparse' as <- <-.
  assert (Hshape :
            (exists raw, rawText pres = Some raw /\ parseSuccess pres = Some false)
            \/ (p_success pres = false /\ rawText pres = None /\ parseSuccess pres = None)).
  { unfold parserAnswer in Hans.
    destruct (_ ≫= contentOfResponse) as [[| | | |[|c r]| |]|e];
      try (right; destruct Hans as (? & ? & ? & ?); done).
    left. destruct Hans as (_ & Hraw & _ & Hps). exists (c :: r). split; [done|].
    rewrite Hps, Hpanel. reflexivity. }
  subst response. unfold roundResult. cbn [status body]. rewrite Hpanel.
  destruct Hshape as [(raw & Hraw & Hps) | (Hs & Hraw & Hps)]; rewrite Hraw, Hps.
  - repeat split; try reflexivity. left. exists raw. repeat split; reflexivity.
  - repeat split; try reflexivity. right. repeat split; done.
Qed.



Lemma parseNarrative_parseSuccess_iff_witness :
  exists pres tr1,
    parseNarrative (twoCallEnv (Ok (chatResponse panelText)) (Throw timeoutError))
      parserCfg parseRequest [] = (Ok pres, tr1)
    /\ rawText pres = Some panelText
    /\ parseSuccess pres = Some true.
Proof.
  destruct (parseNarrative_parseSuccess_iff
              (twoCallEnv (Ok (chatResponse panelText)) (Throw timeoutError))
              parserCfg parseRequest [] (chatResponse panelText) panelText)
    as (pres & tr1 & Hrun & Hraw & Hiff & _).
  - reflexivity.
  - reflexivity.
  - vm_compute. discriminate.
  - exists pres, tr1. split; [exact Hrun|]. split; [exact Hraw|].
    apply Hiff. exists match_json_fence.
    eexists. eexists. eexists.
    split; [by left|]. split; [vm_compute; reflexivity|].
    split; [discriminate|]. split; [vm_compute; reflexivity|].
    split; [vm_compute; reflexivity|reflexivity].
Defined.

(** C10, counterexample.  The answer is a JSON object that contains a
    [perEntityPanel] field (whose value is [null]); it is extracted and
    parsed, and the call still reports [parseSuccess = false]. *)
Lemma parseNarrative_null_panel_rejected :
  match_braces nullPanelText = Some nullPanelText
  /\ JSON_parse (trim nullPanelText)
     = Ok (JObject [(js "perEntityPanel", JNull); (js "roundTitle", JString (js "R2"))])
  /\ (parseNarrative (twoCallEnv (Ok (chatResponse nullPanelText)) (Throw timeoutError))
        parserCfg parseRequest []).1
     = Ok {| p_success := true; rawText := Some nullPanelText; panelData := None;
             parseSuccess := Some false; p_error := None |}.
Proof. repeat split; vm_compute; reflexivity. Qed.

Lemma fullRound_parser_degradation_witness :
  exists response tr2,
    fullRound (twoCallEnv (Ok (chatResponse story)) (Ok (chatResponse proseAnswer))) roundBody []
    = (Ok response, tr2)
    /\ get (body response) (js "narrative") = Ok (JString story)
    /\ get (body response) (js "parserRawText") = Ok (JString proseAnswer)
    /\ get (body response) (js "parseSuccess") = Ok (JBool false).
Proof.
  pose proof (fullRound_parser_degradation
                (twoCallEnv (Ok (chatResponse story)) (Ok (chatResponse proseAnswer)))
                roundBody [] narrativeCfg parserCfg
                {| success := true; narrative := Some story; error := None |}
                (generateNarrative (twoCallEnv (Ok (chatResponse story)) (Ok (chatResponse proseAnswer)))
                   narrativeCfg (narrativeRequestOf roundBody) []).2
                story
                {| p_success := true; rawText := Some proseAnswer; panelData := None;
                   parseSuccess := Some false; p_error := None |}
                (fullRound (twoCallEnv (Ok (chatResponse story)) (Ok (chatResponse proseAnswer)))
                   roundBody []).2
                eq_refl eq_refl) as H.
  destruct H as (Hrun & _ & _ & Hnarr & _ & _ & Hrest).
  - vm_compute. reflexivity.
  - reflexivity.
  - vm_compute. reflexivity.
  - vm_compute. reflexivity.
  - reflexivity.
  - destruct Hrest as [(raw & Hraw & Htext & Hps) | (Hs & _)]; [|discriminate Hs].
    assert (raw = proseAnswer) as -> by (cbn [rawText] in Hraw; congruence).
    do 2 eexists. split; [exact Hrun|]. split; [exact Hnarr|].
    split; [exact Htext|exact Hps].
Defined.

(** C2, counterexample.  The narrative call succeeds and the parser call
    times out: the body that is sent keeps the narrative, but its
    [parseSuccess] and [parserRawText] are [undefined], not [false] and a
    preserved text. *)
Lemma fullRound_parser_call_failure :
  exists response,
    (fullRound (twoCallEnv (Ok (chatResponse story)) (Throw timeoutError)) roundBody []).1
    = Ok response
    /\ get (body response) (js "success") = Ok (JBool true)
    /\ get (body response) (js "narrative") = Ok (JString story)
    /\ get (body response) (js "parseSuccess") = Ok JUndefined
    /\ get (body response) (js "parseSuccess") <> Ok (JBool false)
    /\ get (body response) (js "parserRawText") = Ok JUndefined.
Proof.
  eexists. split; [vm_compute; reflexivity|].
  repeat split; try (vm_compute; reflexivity). vm_compute. discriminate.
Qed.

End DualClaims.

(** ** The browser-side orchestrator *)

Section FrontendProofs.
Context (env : Env).




End FrontendProofs.

Section NarrativeFailure.
Import DualApi.





End NarrativeFailure.


(** ** Narrative prompts *)

Section SubstringProofs.















End SubstringProofs.

Section PromptProofs.
Import DualApi.

Abbreviation clean m s := (includes s m = false).










End PromptProofs.

(** * Further properties *)

(** ** The retry executor: effort and outcome *)

Section RetryMore.
Context (env : Env) (url prov : jsstring) (requestBody : jsval) (timeout retries : Z).

Abbreviation loop := (callAI_loop env url prov requestBody timeout retries).
Abbreviation outcome := (attemptOutcome env url prov requestBody).
Abbreviation failed := (failEvents url requestBody timeout retries).

Lemma loop_success_step fuel attempt lastError tr v :
  outcome (nreq tr) = Ok v ->
  loop (S fuel) attempt lastError tr = (Ok v, tr ++ [EvRequest url requestBody timeout]).
Proof.
  intros H. cbn [callAI_loop]. unfold try_catch.
  rewrite (attemptOnce_run env url prov requestBody timeout tr), H. reflexivity.
Qed.


Lemma retryDelay_bounds error attempt :
  1 <= attempt -> 1000 <= retryDelay error attempt <= 30000.
Proof.
  intros H. unfold retryDelay.
  assert (1 <= 2 ^ (attempt - 1)) by (apply (Z.pow_le_mono_r 2 0 (attempt - 1)); lia).
  destruct (isNetworkError error); lia.
Qed.

Lemma sleeps_app tr1 tr2 : sleeps (tr1 ++ tr2) = sleeps tr1 ++ sleeps tr2.
Proof. unfold sleeps. apply omap_app. Qed.

Lemma saves_app tr1 tr2 : saves (tr1 ++ tr2) = saves tr1 ++ saves tr2.
Proof. unfold saves. apply omap_app. Qed.

Lemma loop_bounded fuel : forall attempt lastError tr,
  1 <= attempt ->
  exists ext, (loop fuel attempt lastError tr).2 = tr ++ ext
              /\ boundedRun url requestBody timeout retries fuel attempt ext.
Proof.
  induction fuel as [|fuel IH]; intros attempt lastError tr Ha.
  - exists []. split; [cbn [callAI_loop]; unfold throw; cbn [snd]; by rewrite app_nil_r|].
    split; [cbn; lia|]. split; [cbn; lia|]. split; [constructor|]. split; [constructor|].
    reflexivity.
  - destruct (outcome (nreq tr)) as [v|error] eqn:H.
    + exists [EvRequest url requestBody timeout].
      split; [by rewrite (loop_success_step _ _ _ _ v H)|].
      unfold boundedRun. rewrite !requests_cons. cbn [is_request].
      change (requests []) with (@nil event).
      change (sleeps [EvRequest url requestBody timeout]) with (@nil Z). cbn [length].
      split; [lia|]. split; [lia|]. split; [constructor|]. split; [repeat constructor|].
      reflexivity.
    + rewrite (loop_fail_step env url prov requestBody timeout retries _ _ _ _ _ H).
      destruct (IH (attempt + 1) (Some error) (tr ++ failed attempt error) ltac:(lia))
        as (ext & -> & Hreq & Hsl & Hb & Hsame & Hsv).
      exists (failed attempt error ++ ext). split; [by rewrite <- app_assoc|].
      unfold boundedRun. rewrite requests_app, sleeps_app, !length_app.
      rewrite (requests_failed url requestBody timeout retries).
      assert (Hs : sleeps (failed attempt error)
                   = if attempt <? retries then [retryDelay error attempt] else []).
      { unfold failEvents. destruct (attempt <? retries); reflexivity. }
      rewrite Hs. clear Hs.
      split; [|split; [|split; [|split]]].
      * cbn [length]. lia.
      * destruct (Z.ltb_spec attempt retries); cbn [length]; lia.
      * apply Forall_app. split; [|exact Hb].
        destruct (Z.ltb_spec attempt retries).
        -- repeat constructor; apply retryDelay_bounds; lia.
        -- constructor.
      * apply Forall_app. split; [repeat constructor|exact Hsame].
      * rewrite saves_app, Hsv. unfold failEvents. by destruct (attempt <? retries).
Qed.

End RetryMore.

Lemma obj_lookup_set_eq props k v : obj_lookup (obj_set props k v) k = Some v.
Proof.
  induction props as [|[k0 v0] rest IH]; cbn [obj_set obj_lookup].
  - by rewrite (proj2 (streq_true k k)).
  - destruct (streq k0 k) eqn:E; cbn [obj_lookup]; rewrite E; [reflexivity|exact IH].
Qed.

Lemma disableStreaming_not_streaming body :
  get_opt (disableStreaming body) (js "stream") <> Ok (JBool true).
Proof.
  unfold disableStreaming.
  destruct (get_opt body (js "stream")) as [[| |[|]|n|s|items|props]|e] eqn:H;
    try (rewrite H; discriminate).
  unfold get_opt, get. cbn [nullish]. rewrite obj_lookup_set_eq. discriminate.
Qed.

(** X11.  Whatever the service answers, [callAI] sends at most [retries]
    requests, sleeps at most [retries - 1] times, and every delay lies
    between one and thirty seconds. *)
Theorem callAI_bounded_effort (env : Env) (config : AIConfig) (built : Ex jsval)
    (retries : Z) (timeout : option Z) :
  let tr := (callAI env config built retries timeout []).2 in
  (length (requests tr) <= Z.to_nat retries)%nat
  /\ (length (sleeps tr) <= Z.to_nat (retries - 1))%nat
  /\ Forall (fun ms => 1000 <= ms <= 30000) (sleeps tr).
Proof.
  intros tr. subst tr. unfold callAI.
  assert (Hnil : (length (requests []) <= Z.to_nat retries)%nat
                 /\ (length (sleeps []) <= Z.to_nat (retries - 1))%nat
                 /\ Forall (fun ms => 1000 <= ms <= 30000) (sleeps [])).
  { change (requests []) with (@nil event). change (sleeps []) with (@nil Z).
    cbn [length]. split; [lia|]. split; [lia|]. constructor. }
  destruct (endpoint config) as [[|c r]|]; try exact Hnil.
  destruct built as [body|e]; [|exact Hnil].
  unfold mbind, M_bind, lift. cbv beta iota. rewrite notice_run. cbv beta iota. cbn [app].
  destruct (loop_bounded env (c :: r) (orDefault (provider config)) (disableStreaming body)
              (timeoutOrDefault timeout) retries (Z.to_nat retries) 1 None
              (streamNotice body) ltac:(lia))
    as (ext & -> & Hreq & Hsl & Hb & _ & _).
  rewrite sleeps_notice, requests_notice. split; [|split]; assumption.
Qed.

(** X12.  Every attempt of a run resends one and the same request, to the
    configured endpoint, and its body never asks for streaming. *)
Theorem callAI_never_streams (env : Env) (config : AIConfig) (body : jsval)
    (retries : Z) (timeout : option Z) :
  let tr := (callAI env config (Ok body) retries timeout []).2 in
  Forall (fun ev => ev = EvRequest (default [] (endpoint config)) (disableStreaming body)
                          (timeoutOrDefault timeout)) (requests tr)
  /\ get_opt (disableStreaming body) (js "stream") <> Ok (JBool true).
Proof.
  intros tr. subst tr. split; [|apply disableStreaming_not_streaming].
  unfold callAI.
  destruct (endpoint config) as [[|c r]|]; try exact (Forall_nil_2 _).
  unfold mbind, M_bind, lift. cbv beta iota. rewrite notice_run. cbv beta iota. cbn [app].
  destruct (loop_bounded env (c :: r) (orDefault (provider config)) (disableStreaming body)
              (timeoutOrDefault timeout) retries (Z.to_nat retries) 1 None
              (streamNotice body) ltac:(lia))
    as (ext & -> & _ & _ & _ & Hsame & _).
  rewrite requests_notice. exact Hsame.
Qed.


(** ** History compression and the token estimate *)

Section CompressionMore.

Lemma selected_cons {A} f fs (x : A) xs b :
  selected (f :: fs) (x :: xs) b
  = if Bool.eqb f b then x :: selected fs xs b else selected fs xs b.
Proof. unfold selected. cbn. destruct (Bool.eqb f b); reflexivity. Qed.

Lemma compress_fold maxTokens (rounds : list (list ConversationMessage)) :
  exists flags,
    length flags = length rounds
    /\ let st := fold_right (fun r acc => compressStep maxTokens acc r)
                   {| result := []; currentTokens := 0; summaries := [] |} rounds in
       result st = concat (selected flags rounds true)
       /\ summaries st = map summarizeRound (selected flags rounds false)
       /\ currentTokens st = totalTokens (result st)
       /\ (result st = [] \/ withinBudget (currentTokens st) maxTokens = true).
Proof.
  induction rounds as [|r rounds IH].
  - exists []. cbn. repeat split; auto.
  - destruct IH as (flags & Hlen & Hres & Hsum & Hcur & Hb).
    cbn [fold_right]. cbv zeta in *.
    set (st := fold_right _ _ rounds) in *.
    unfold compressStep.
    destruct (withinBudget (currentTokens st + totalTokens r) maxTokens) eqn:Hw.
    + exists (true :: flags). cbn [length]. split; [by rewrite Hlen|].
      cbn [result currentTokens summaries]. rewrite !selected_cons. cbn [Bool.eqb concat].
      rewrite Hres, Hsum. repeat split.
      * rewrite totalTokens_app, Hcur, Hres. lia.
      * by right.
    + exists (false :: flags). cbn [length]. split; [by rewrite Hlen|].
      cbn [result currentTokens summaries]. rewrite !selected_cons. cbn [Bool.eqb map].
      rewrite Hres, Hsum. repeat split; [by rewrite Hcur, Hres|].
      destruct Hb as [Hb|Hb]; [left; by rewrite <- Hres|by right].
Qed.

End CompressionMore.

(** X2.  [compressHistory] keeps or drops whole rounds: its output is the
    rounds it keeps, complete and in their order, preceded, when a round
    was dropped, by one system message that holds one synopsis line per
    dropped round, in their order; and the kept rounds together pass the
    budget test of the code, so that they stay within 70% of [maxTokens]
    (for every [maxTokens] below 2^49, where the rounding of the double
    product cannot admit one token more). *)
Theorem compressHistory_keeps_whole_rounds (messages : list ConversationMessage) (maxTokens : Z) :
  let rounds := groupRounds messages [] in
  exists flags,
    length flags = length rounds
    /\ compressHistory messages maxTokens
       = summaryMessage (selected flags rounds false) ++ concat (selected flags rounds true)
    /\ (concat (selected flags rounds true) = []
        \/ (withinBudget (totalTokens (concat (selected flags rounds true))) maxTokens = true
            /\ (maxTokens < 2 ^ 49 ->
                10 * totalTokens (concat (selected flags rounds true)) <= 7 * maxTokens))).
Proof.
  intros rounds.
  destruct (compress_fold maxTokens rounds) as (flags & Hlen & Hres & Hsum & Hcur & Hb).
  exists flags. split; [exact Hlen|].
  cbv zeta in *.
  unfold compressHistory. fold rounds. cbv zeta.
  change (fold_left (compressStep maxTokens) (rev rounds))
    with (fold_left (fun acc r => compressStep maxTokens acc r) (rev rounds)).
  rewrite <- (fold_left_rev_right (fun r acc => compressStep maxTokens acc r)).
  rewrite rev_involutive.
  set (st := fold_right _ _ rounds) in *.
  split.
  - rewrite Hsum, <- Hres. unfold summaryMessage.
    destruct (selected flags rounds false); reflexivity.
  - rewrite <- Hres. destruct Hb as [Hb|Hb]; [by left|right].
    rewrite <- Hcur. split; [exact Hb|].
    intros Hmax. apply withinBudget_seventy; [|exact Hmax|exact Hb].
    rewrite Hcur. apply totalTokens_nonneg.
Qed.

Section EstimateMore.

Lemma count_runs_le_chars p s : forall inside, count_runs p inside s <= count_chars p s.
Proof.
  unfold count_chars.
  induction s as [|c s IH]; intros inside; cbn [count_runs]; [reflexivity|].
  rewrite filter_cons. destruct (decide (p c = true)) as [Hp|Hp].
  - rewrite Hp. cbn [length]. specialize (IH true). destruct inside; lia.
  - apply not_true_is_false in Hp. rewrite Hp. apply IH.
Qed.

Lemma classes_le_length (s : jsstring) :
  count_chars isChinese s + count_chars isAsciiLetter s + count_chars isDigit s
  <= Z.of_nat (length s).
Proof.
  unfold count_chars.
  induction s as [|c s IH]; [reflexivity|].
  rewrite !filter_cons. cbn [length].
  assert (Hd : (if decide (isChinese c = true) then 1 else 0)
               + (if decide (isAsciiLetter c = true) then 1 else 0)
               + (if decide (isDigit c = true) then 1 else 0) <= 1).
  { destruct (isChinese c) eqn:E1, (isAsciiLetter c) eqn:E2, (isDigit c) eqn:E3;
      repeat destruct (decide _); try lia; try congruence; exfalso;
      unfold isChinese, isAsciiLetter, isDigit in E1, E2, E3;
      repeat match goal with
             | H : _ && _ = true |- _ => apply andb_prop in H as [? ?]
             | H : _ || _ = true |- _ => apply orb_prop in H as [?|?]
             | H : (_ <=? _) = true |- _ => apply Z.leb_le in H
             end; lia. }
  revert Hd IH. repeat destruct (decide _); cbn [length]; intros Hd IH; lia.
Qed.

End EstimateMore.

Lemma estimateTokenCount_le_length (text : jsstring) :
  0 <= estimateTokenCount text <= Z.of_nat (length text).
Proof.
  split; [apply estimateTokenCount_nonneg|].
  unfold estimateTokenCount. destruct (streq text []); [lia|].
  pose proof (count_runs_le_chars isAsciiLetter text false).
  pose proof (count_runs_le_chars isDigit text false).
  pose proof (classes_le_length text).
  assert (0 <= count_chars isChinese text) by (unfold count_chars; lia).
  assert ((2 * count_chars isChinese text + 2) / 3 < count_chars isChinese text + 1)
    by (apply Z.div_lt_upper_bound; lia).
  lia.
Qed.

(** ** Lorebook injection: budget and isolation *)

Section EstimateApp.

Lemma estimateTokenCount_formula text :
  estimateTokenCount text
  = (2 * count_chars isChinese text + 2) / 3
    + count_runs isAsciiLetter false text + count_runs isDigit false text.
Proof.
  unfold estimateTokenCount. destruct text as [|c r]; [reflexivity|].
  replace (streq (c :: r) []) with false; [reflexivity|].
  symmetry. by apply streq_false.
Qed.

Lemma count_chars_app p a b : count_chars p (a ++ b) = count_chars p a + count_chars p b.
Proof. unfold count_chars. rewrite filter_app, length_app. lia. Qed.

Lemma count_runs_inside p s : count_runs p true s <= count_runs p false s.
Proof. destruct s as [|c s]; cbn [count_runs]; [lia|]. destruct (p c); lia. Qed.

Lemma count_runs_app p a b : forall inside,
  count_runs p inside (a ++ b) <= count_runs p inside a + count_runs p false b.
Proof.
  induction a as [|c a IH]; intros inside; cbn [app count_runs].
  - pose proof (count_runs_inside p b). destruct inside; lia.
  - destruct (p c); [specialize (IH true)|specialize (IH false)]; lia.
Qed.

Lemma estimateTokenCount_app a b :
  estimateTokenCount (a ++ b) <= estimateTokenCount a + estimateTokenCount b.
Proof.
  rewrite !estimateTokenCount_formula, count_chars_app.
  pose proof (count_runs_app isAsciiLetter a b false).
  pose proof (count_runs_app isDigit a b false).
  assert (0 <= count_chars isChinese a) by (unfold count_chars; lia).
  assert (0 <= count_chars isChinese b) by (unfold count_chars; lia).
  assert ((2 * (count_chars isChinese a + count_chars isChinese b) + 2) / 3
          <= (2 * count_chars isChinese a + 2) / 3 + (2 * count_chars isChinese b + 2) / 3).
  { Z.div_mod_to_equations. lia. }
  lia.
Qed.

End EstimateApp.

Section LorebookMore.

Lemma assemble_budget maxTokens triggered : forall loreContent currentTokens,
  estimateTokenCount loreContent <= currentTokens ->
  estimateTokenCount (assemble maxTokens triggered loreContent currentTokens)
  <= Z.max maxTokens currentTokens.
Proof.
  induction triggered as [|entry rest IH]; intros loreContent currentTokens H;
    cbn [assemble]; [lia|].
  destruct (Z.ltb_spec maxTokens (currentTokens + estimateTokenCount (lore_content entry)));
    [lia|].
  etransitivity; [apply IH|lia].
  pose proof (estimateTokenCount_app loreContent ([10] ++ lore_content entry ++ [10])).
  pose proof (estimateTokenCount_app [10] (lore_content entry ++ [10])).
  pose proof (estimateTokenCount_app (lore_content entry) [10]).
  change (estimateTokenCount [10]) with 0 in *. lia.
Qed.

End LorebookMore.

(** X1.  The token estimate of a text lies between 0 and the number of
    its UTF-16 code units, and the estimate of a concatenation is at most
    the sum of the estimates of its parts. *)
Theorem estimateTokenCount_bounds (a b : jsstring) :
  0 <= estimateTokenCount a <= Z.of_nat (length a)
  /\ estimateTokenCount (a ++ b) <= estimateTokenCount a + estimateTokenCount b.
Proof. split; [apply estimateTokenCount_le_length|apply estimateTokenCount_app]. Qed.

(** X3.  The text injected by [getTriggeredLoreEntries] never exceeds the
    token limit, except that the header line (4 tokens) is returned on its
    own when not even the first triggered entry fits. *)
Theorem getTriggeredLoreEntries_within_budget
    (lorebookCache : gmap (list Z) (list LorebookEntry))
    (sessionId promptContent : jsstring) (maxTokens : Z) :
  estimateTokenCount (getTriggeredLoreEntries lorebookCache sessionId promptContent maxTokens).1
  <= Z.max maxTokens 4.
Proof.
  unfold getTriggeredLoreEntries.
  destruct (lorebookCache !! sessionId) as [[|e0 rest]|]; cbn [fst];
    try (change (estimateTokenCount []) with 0; lia).
  destruct (scanEntries promptContent (e0 :: rest)) as [entries' triggered].
  destruct triggered as [|t ts]; cbn [fst]; [change (estimateTokenCount []) with 0; lia|].
  set (header := js _).
  change (estimateTokenCount header) with 4.
  apply assemble_budget. change (estimateTokenCount header) with 4. lia.
Qed.

(** X4.  A scan touches nothing but the counters of the session it is
    asked about: every other session keeps its entries, and the session
    itself keeps its entries in place, with the same identifiers,
    keywords, texts, priorities and limits. *)
Theorem getTriggeredLoreEntries_only_counts
    (lorebookCache : gmap (list Z) (list LorebookEntry))
    (sessionId promptContent : jsstring) (maxTokens : Z) :
  let cache' := (getTriggeredLoreEntries lorebookCache sessionId promptContent maxTokens).2 in
  (forall other, other <> sessionId -> cache' !! other = lorebookCache !! other)
  /\ match lorebookCache !! sessionId, cache' !! sessionId with
     | Some entries, Some entries' =>
         map (fun e => (id e, keywords e, lore_content e, priority e, lore_enabled e,
                        category e, maxActivations e)) entries'
         = map (fun e => (id e, keywords e, lore_content e, priority e, lore_enabled e,
                          category e, maxActivations e)) entries
         /\ Forall2 (fun e e' =>
                       default 0 (activationCount e) <= default 0 (activationCount e')
                       <= default 0 (activationCount e) + 1) entries entries'
     | None, None => True
     | _, _ => False
     end.
Proof.
  intros cache'. subst cache'. unfold getTriggeredLoreEntries.
  destruct (lorebookCache !! sessionId) as [entries|] eqn:Hc; cbn [snd].
  2:{ split; [done|]. by rewrite Hc. }
  destruct entries as [|e0 rest]; cbn [snd].
  { split; [done|]. rewrite Hc. split; [done|constructor]. }
  pose proof (scanEntries_entries promptContent (e0 :: rest)) as Hs.
  destruct (scanEntries promptContent (e0 :: rest)) as [entries' triggered].
  cbn [fst] in Hs. subst entries'.
  assert (Hins : forall t : jsstring,
            (t, <[sessionId := map (fun e => if fires promptContent e then activate e else e)
                                 (e0 :: rest)]> lorebookCache).2
            = <[sessionId := map (fun e => if fires promptContent e then activate e else e)
                               (e0 :: rest)]> lorebookCache) by done.
  assert (Hout : forall t1 t2 : jsstring,
            (match triggered with [] => (t1, <[sessionId := map (fun e => if fires promptContent e then activate e else e) (e0 :: rest)]> lorebookCache) | _ :: _ => (t2, <[sessionId := map (fun e => if fires promptContent e then activate e else e) (e0 :: rest)]> lorebookCache) end).2
            = <[sessionId := map (fun e => if fires promptContent e then activate e else e) (e0 :: rest)]> lorebookCache)
    by (intros; by destruct triggered).
  rewrite Hout. split.
  - intros other Hne. by apply lookup_insert_ne.
  - rewrite lookup_insert_eq. split.
    + rewrite map_map. apply map_ext. intros e. by destruct (fires promptContent e).
    + generalize (e0 :: rest). intros l. induction l as [|e l IH]; cbn [map]; constructor; [|exact IH].
      destruct (fires promptContent e); cbn [activate activationCount default from_option];
        unfold Datatypes.id; lia.
Qed.

(** ** The response extractor *)

Section ExtractorMore.

Lemma obj_set_keys props k v :
  (obj_set props k v).*1 = if bool_decide (k ∈ props.*1) then props.*1 else props.*1 ++ [k].
Proof.
  induction props as [|[k0 v0] rest IH]; cbn [obj_set fmap list_fmap fst].
  - rewrite bool_decide_eq_false_2 by (apply not_elem_of_nil). reflexivity.
  - destruct (streq k0 k) eqn:E.
    + apply streq_true in E as ->. cbn [fmap list_fmap fst].
      rewrite bool_decide_eq_true_2 by (apply elem_of_cons; by left). reflexivity.
    + apply streq_false in E. cbn [fmap list_fmap fst]. rewrite IH.
      destruct (bool_decide (k ∈ rest.*1)) eqn:Hin.
      * apply bool_decide_eq_true in Hin.
        rewrite bool_decide_eq_true_2 by (apply elem_of_cons; by right). reflexivity.
      * apply bool_decide_eq_false in Hin.
        rewrite bool_decide_eq_false_2; [reflexivity|].
        rewrite elem_of_cons. intros [->|?]; done.
Qed.

Lemma obj_set_NoDup props k v : NoDup props.*1 -> NoDup (obj_set props k v).*1.
Proof.
  intros H. rewrite obj_set_keys. destruct (bool_decide (k ∈ props.*1)) eqn:Hin; [exact H|].
  apply bool_decide_eq_false in Hin. apply NoDup_app. repeat split; [exact H| |apply NoDup_singleton].
  intros x Hx Hx'. apply list_elem_of_singleton in Hx' as ->. done.
Qed.

Lemma parse_members_NoDup fuel : forall s acc v r,
  parse_members fuel s acc = Some (v, r) -> NoDup acc.*1 ->
  exists props, v = JObject props /\ NoDup props.*1.
Proof.
  induction fuel as [|f IH]; intros s acc v r H Hacc; [discriminate|].
  cbn [parse_members] in H.
  destruct (skip_ws s) as [|c0 r0]; [discriminate|].
  destruct (c0 =? 34)%Z eqn:Hc0.
  2:{ destruct c0; try discriminate. repeat (destruct p; try discriminate). }
  apply Z.eqb_eq in Hc0 as ->.
  destruct (parse_string_body r0 []) as [[k r1]|]; [|discriminate].
  cbn [mbind option_bind] in H.
  destruct (skip_ws r1) as [|c1 r2]; [discriminate|].
  destruct (c1 =? 58)%Z eqn:Hc1.
  2:{ destruct c1; try discriminate. repeat (destruct p; try discriminate). }
  apply Z.eqb_eq in Hc1 as ->.
  destruct (parse_value f r2) as [[v3 r3]|]; [|discriminate].
  cbn [mbind option_bind] in H.
  destruct (skip_ws r3) as [|c3 r4]; [discriminate|].
  destruct (c3 =? 44)%Z eqn:Hc3.
  { apply Z.eqb_eq in Hc3 as ->. eapply IH; [exact H|]. by apply obj_set_NoDup. }
  destruct (c3 =? 125)%Z eqn:Hc4.
  { apply Z.eqb_eq in Hc4 as ->. injection H as <- <-. eexists. split; [reflexivity|].
    by apply obj_set_NoDup. }
  destruct c3; try discriminate. repeat (destruct p; try discriminate).
Qed.

Lemma parse_elements_array fuel : forall s acc v r,
  parse_elements fuel s acc = Some (v, r) -> exists items, v = JArray items.
Proof.
  induction fuel as [|f IH]; intros s acc v r H; [discriminate|].
  cbn [parse_elements] in H.
  destruct (parse_value f s) as [[v1 r1]|]; [|discriminate].
  cbn [mbind option_bind] in H.
  destruct (skip_ws r1) as [|c r2]; [discriminate|].
  destruct (c =? 44)%Z eqn:Hc.
  { apply Z.eqb_eq in Hc as ->. eapply IH. exact H. }
  destruct (c =? 93)%Z eqn:Hc'.
  { apply Z.eqb_eq in Hc' as ->. injection H as <- <-. by eexists. }
  destruct c; try discriminate. repeat (destruct p; try discriminate).
Qed.

Lemma parse_value_object_NoDup fuel s props r :
  parse_value fuel s = Some (JObject props, r) -> NoDup props.*1.
Proof.
  destruct fuel as [|f]; [discriminate|]. intros H.
  cbn [parse_value] in H.
  destruct (skip_ws s) as [|c r0]; [discriminate|].
  destruct (c =? 123)%Z.
  { assert (Hm : parse_members f r0 [] = Some (JObject props, r) -> NoDup props.*1).
    { intros Hm. destruct (parse_members_NoDup f r0 [] _ _ Hm) as (props' & [= <-] & Hnd);
        [constructor|exact Hnd]. }
    destruct (skip_ws r0) as [|c1 r1]; [by apply Hm|].
    destruct (Z.eq_dec c1 125) as [->|Hne].
    - injection H as <- _. constructor.
    - destruct c1; try (by apply Hm). repeat (destruct p; try (by apply Hm)). }
  destruct (c =? 91)%Z.
  { assert (Hm : parse_elements f r0 [] = Some (JObject props, r) -> NoDup props.*1).
    { intros Hm. by destruct (parse_elements_array f r0 [] _ _ Hm) as (items & [=]). }
    destruct (skip_ws r0) as [|c1 r1]; [by apply Hm|].
    destruct (Z.eq_dec c1 93) as [->|Hne].
    - discriminate.
    - destruct c1; try (by apply Hm). repeat (destruct p; try (by apply Hm)). }
  destruct (c =? 34)%Z.
  { destruct (parse_string_body r0 []) as [[str r']|]; discriminate. }
  destruct (startsWith (c :: r0) (js "true")); [discriminate|].
  destruct (startsWith (c :: r0) (js "false")); [discriminate|].
  destruct (startsWith (c :: r0) (js "null")); [discriminate|].
  destruct (parse_number (c :: r0)) as [[n r']|]; discriminate.
Qed.

Lemma JSON_parse_object_NoDup text props :
  JSON_parse text = Ok (JObject props) -> NoDup props.*1.
Proof.
  unfold JSON_parse. intros H.
  destruct (parse_value (S (length text)) text) as [[v rest]|] eqn:Hp; [|discriminate].
  destruct (skip_ws rest); [|discriminate].
  injection H as ->. by eapply parse_value_object_NoDup.
Qed.

(** The value a spread leaves under a key. *)
Lemma obj_lookup_spread_NoDup (props : list (jsstring * jsval)) k : forall base,
  NoDup props.*1 ->
  obj_lookup (fold_left (fun acc kv => obj_set acc kv.1 kv.2) props base) k
  = match obj_lookup props k with
    | Some v => Some v
    | None => obj_lookup base k
    end.
Proof.
  induction props as [|[k0 v0] rest IH]; intros base Hnd; [reflexivity|].
  cbn [fmap list_fmap fst] in Hnd. apply NoDup_cons in Hnd as [Hk0 Hnd].
  cbn [fold_left fst snd obj_lookup]. rewrite IH by exact Hnd.
  destruct (streq k0 k) eqn:E.
  - apply streq_true in E as ->.
    replace (obj_lookup rest k) with (@None jsval); [apply obj_lookup_set_eq|].
    symmetry. clear -Hk0. induction rest as [|[k1 v1] rest IH]; [reflexivity|].
    cbn [obj_lookup]. cbn [fmap list_fmap fst] in Hk0. rewrite not_elem_of_cons in Hk0.
    destruct Hk0 as [Hne Hk0]. rewrite (proj2 (streq_false k1 k)) by congruence. by apply IH.
  - apply streq_false in E. destruct (obj_lookup rest k); [reflexivity|].
    by apply obj_lookup_set_ne.
Qed.

Lemma tryParsed_Some content cap r :
  tryParsed content cap = Ok (Some r) ->
  exists parsed narrative outcomes mapped hints,
    JSON_parse (trim cap) = Ok parsed
    /\ truthy parsed = true /\ typeof_object parsed = true
    /\ get parsed (js "narrative") = Ok narrative
    /\ r = JObject (spread [(js "narrative", js_or narrative (JString content));
                            (js "outcomes", outcomes);
                            (js "events", mapped);
                            (js "nextRoundHints", hints)] parsed).
Proof.
  unfold tryParsed. intros H.
  destruct (JSON_parse (trim cap)) as [parsed|e] eqn:Hparse; [|discriminate].
  cbn [mbind Ex_bind] in H.
  destruct (truthy parsed && typeof_object parsed) eqn:Hobj; [|discriminate].
  apply andb_prop in Hobj as [Ht Ho].
  destruct (get parsed (js "narrative")) as [narrative|e] eqn:Hn; [|discriminate].
  destruct (get parsed (js "perEntityPanel")) as [panels|e]; [|discriminate].
  cbn [mbind Ex_bind] in H.
  destruct (mapEntityPanelsToOutcomes panels) as [outcomes|e]; [|discriminate].
  destruct (get parsed (js "events")) as [events|e]; [|discriminate].
  cbn [mbind Ex_bind] in H.
  destruct (mapTurnEvents events) as [mapped|e]; [|discriminate].
  destruct (get parsed (js "nextRoundHints")) as [hints|e]; [|discriminate].
  cbn [mbind Ex_bind] in H. injection H as <-.
  by exists parsed, narrative, outcomes, mapped, hints.
Qed.

Lemma parseWithPatterns_cases content : forall patterns,
  parseWithPatterns patterns content
  = JObject [(js "narrative", JString content); (js "outcomes", JArray []);
             (js "events", JArray [])]
  \/ exists pattern cap,
       In pattern patterns /\ pattern content = Some cap
       /\ tryParsed content cap = Ok (Some (parseWithPatterns patterns content)).
Proof.
  induction patterns as [|pattern rest IH]; [by left|].
  cbn [parseWithPatterns].
  assert (IH' : parseWithPatterns rest content
                = JObject [(js "narrative", JString content); (js "outcomes", JArray []);
                           (js "events", JArray [])]
                \/ exists p cap,
                     In p (pattern :: rest) /\ p content = Some cap
                     /\ tryParsed content cap = Ok (Some (parseWithPatterns rest content))).
  { destruct IH as [IH|(p & cap & Hin & Hp & Ht)]; [by left|right].
    exists p, cap. split; [by right|done]. }
  destruct (pattern content) as [cap|] eqn:Hm; [|exact IH'].
  destruct (streq cap []); [exact IH'|].
  destruct (tryParsed content cap) as [[r|]|e] eqn:Ht; [|exact IH'|exact IH'].
  right. exists pattern, cap. split; [by left|done].
Qed.

End ExtractorMore.

(** X16.  [parseNarrativeResponse] always returns.  Unless it falls back to
    the raw text, its result was built from a block that parsed as a JSON
    object or array, and every field of a parsed object reaches the
    result unchanged: a field of the reply wins over the value computed
    for it, even when it is empty, and the raw text serves as the
    narrative only when the reply has no [narrative] field at all. *)
Theorem parseNarrativeResponse_reply_fields_win (content : jsstring) :
  exists r,
    parseNarrativeResponse content = Ok r
    /\ (r = JObject [(js "narrative", JString content); (js "outcomes", JArray []);
                     (js "events", JArray [])]
        \/ exists pattern cap parsed,
             In pattern jsonPatterns /\ pattern content = Some cap
             /\ JSON_parse (trim cap) = Ok parsed
             /\ typeof_object parsed = true /\ parsed <> JNull
             /\ (forall props k v,
                    parsed = JObject props -> obj_lookup props k = Some v -> get r k = Ok v)
             /\ (forall props,
                    parsed = JObject props -> obj_lookup props (js "narrative") = None ->
                    get r (js "narrative") = Ok (JString content))).
Proof.
  exists (parseWithPatterns jsonPatterns content). split; [reflexivity|].
  destruct (parseWithPatterns_cases content jsonPatterns) as [H|(pattern & cap & Hin & Hp & Ht)];
    [by left|right].
  destruct (tryParsed_Some _ _ _ Ht)
    as (parsed & narrative & outcomes & mapped & hints & Hparse & Htruthy & Hobj & Hn & Hr).
  exists pattern, cap, parsed. rewrite Hr.
  split; [exact Hin|]. split; [exact Hp|]. split; [exact Hparse|]. split; [exact Hobj|].
  split; [by destruct parsed|]. split.
  - intros props k v -> Hk. unfold get, spread. cbn [ownProps].
    rewrite obj_lookup_spread_NoDup by (by eapply JSON_parse_object_NoDup).
    by rewrite Hk.
  - intros props -> Hk. unfold get, spread. cbn [ownProps].
    rewrite obj_lookup_spread_NoDup by (by eapply JSON_parse_object_NoDup).
    rewrite Hk. cbn [get] in Hn. rewrite Hk in Hn. injection Hn as <-.
    reflexivity.
Qed.

(** A reply whose [narrative] is the empty string keeps it: the raw text
    is not substituted. *)
Example parseNarrativeResponse_empty_narrative :
  parseNarrativeResponse (jsq "{'narrative': '', 'note': 7}")
  = Ok (JObject [(js "narrative", JString []); (js "outcomes", JArray []);
                 (js "events", JArray []); (js "nextRoundHints", JUndefined);
                 (js "note", JInt 7)]).
Proof. vm_compute. reflexivity. Qed.


(** ** The outcome mapper *)

Section MapperProofs.

Lemma mapi_ex_Ok {A B} (f : nat -> A -> Ex B) (l : list A) : forall i ys,
  mapi_ex f i l = Ok ys ->
  length ys = length l
  /\ forall j y, ys !! j = Some y -> exists x, l !! j = Some x /\ f (i + j)%nat x = Ok y.
Proof.
  induction l as [|x l IH]; intros i ys H; cbn [mapi_ex] in H.
  - injection H as <-. split; [reflexivity|]. intros j y Hj. by rewrite lookup_nil in Hj.
  - destruct (f i x) as [y0|e] eqn:Hf; [|discriminate]. cbn [mbind Ex_bind] in H.
    destruct (mapi_ex f (S i) l) as [ys'|e] eqn:Hm; [|discriminate].
    cbn [mbind Ex_bind] in H. injection H as <-.
    destruct (IH _ _ Hm) as [Hlen Hall]. split; [cbn [length]; by rewrite Hlen|].
    intros [|j] y Hj; cbn in Hj.
    + injection Hj as <-. exists x. split; [reflexivity|]. by rewrite Nat.add_0_r.
    + destruct (Hall j y Hj) as (x' & Hx & Hfx). exists x'. split; [exact Hx|].
      by rewrite Nat.add_succ_r.
Qed.

End MapperProofs.

(** X17.  [mapEntityPanelsToOutcomes] yields one outcome per panel, numbered
    by the position of the panel, and the passive income and expense it
    reports are the panel's own, whatever the panel's attributes contain;
    anything that is not an array yields no outcome. *)
Theorem mapEntityPanelsToOutcomes_indexed (panels outs : jsval) :
  mapEntityPanelsToOutcomes panels = Ok outs ->
  exists outcomes,
    outs = JArray outcomes
    /\ length outcomes = match panels with JArray items => length items | _ => 0%nat end
    /\ forall i out,
         outcomes !! i = Some out ->
         exists items panel,
           panels = JArray items /\ items !! i = Some panel
           /\ get out (js "playerIndex") = Ok (JInt (Z.of_nat i))
           /\ (get out (js "resources") ≫= fun r => get r (js "passiveIncome"))
              = get panel (js "passiveIncome")
           /\ (get out (js "resources") ≫= fun r => get r (js "passiveExpense"))
              = get panel (js "passiveExpense").
Proof.
  intros H.
  destruct panels as [| |b|n|s|items|props];
    try (injection H as <-; exists []; split; [reflexivity|]; split; [reflexivity|];
         intros i out Hi; by rewrite lookup_nil in Hi).
  cbn [mapEntityPanelsToOutcomes] in H.
  match type of H with JArray <$> ?m = _ => destruct m as [outcomes|e] eqn:Hm end;
    [|discriminate].
  injection H as <-. exists outcomes. split; [reflexivity|].
  destruct (mapi_ex_Ok _ _ _ _ Hm) as [Hlen Hall]. split; [exact Hlen|].
  intros i out Hi. destruct (Hall i out Hi) as (panel & Hp & Hf). clear Hall Hm.
  exists items, panel. split; [reflexivity|]. split; [exact Hp|].
  cbn [Nat.add] in Hf. unfold mbind, Ex_bind in Hf.
  repeat (case_match; try discriminate).
  all: injection Hf as <-.
  all: split; [reflexivity|].
  all: repeat match goal with
              | H : get _ _ = Ok _ |- _ => first [rewrite H | idtac]; clear H
              end.
  all: match goal with |- (?g ≫= _) = _ /\ _ =>
         match g with get (JObject ?l) _ =>
           match l with [_; _; (_, ?res)] =>
             change g with (Ok res : Ex jsval) end end end.
  all: cbn [mbind Ex_bind get].
  all: split; [rewrite obj_lookup_set_ne by (vm_compute; discriminate)|];
         by rewrite obj_lookup_set_eq.
Qed.

(** ** The routes of the two-call service *)

Section RouteProofs.
Import DualApi.
Context (env : Env).

(** [parseNarrative] never throws and issues one request. *)
Lemma parseNarrative_requests config request tr :
  exists pres tr1,
    parseNarrative env config request tr = (Ok pres, tr1)
    /\ requests tr1
       = requests tr ++ [EvRequest (endpoint config) (parserBody env config request) 60000].
Proof.
  unfold parseNarrative, try_catch, mbind, M_bind, http_request, lift, emit, mret, M_ret, throw.
  cbv beta iota.
  assert (Hreq : forall l, requests l = [] ->
            requests ((tr ++ [EvRequest (endpoint config) (parserBody env config request) 60000]) ++ l)
            = requests tr ++ [EvRequest (endpoint config) (parserBody env config request) 60000]).
  { intros l Hl. rewrite !requests_app, Hl, app_nil_r. reflexivity. }
  destruct (http env _ _ _) as [data|e]; cbv beta iota.
  - destruct (contentOfResponse data) as [content|e]; cbv beta iota.
    + destruct (negb (truthy content)); cbv beta iota.
      * do 2 eexists. split; [reflexivity|]. rewrite <- (app_nil_r (_ ++ [_])). by apply Hreq.
      * destruct content; cbv beta iota;
          do 2 eexists; (split; [reflexivity|]);
          solve [ rewrite <- (app_nil_r (_ ++ [_])); by apply Hreq | by apply Hreq ].
    + do 2 eexists. split; [reflexivity|]. by apply Hreq.
  - do 2 eexists. split; [reflexivity|]. by apply Hreq.
Qed.

Lemma answered_400 tr msg : answered false tr (Ok (failure 400 msg), tr).
Proof. eexists. split; [reflexivity|]. done. Qed.

Lemma answered_one tr tr1 response ev :
  status response = 200 -> requests tr1 = requests tr ++ [ev] ->
  answered true tr (Ok response, tr1).
Proof.
  intros Hs Hr. exists response. cbn [fst snd]. split; [reflexivity|]. split; [exact Hs|].
  exists [ev]. split; [exact Hr|]. cbn. lia.
Qed.

Lemma answered_two tr tr2 response ev1 ev2 :
  status response = 200 -> requests tr2 = (requests tr ++ [ev1]) ++ [ev2] ->
  answered true tr (Ok response, tr2).
Proof.
  intros Hs Hr. exists response. cbn [fst snd]. split; [reflexivity|]. split; [exact Hs|].
  exists [ev1; ev2]. split; [by rewrite Hr, <- app_assoc|]. cbn. lia.
Qed.

(** The two-step body shared by [/init] and [/full-round]. *)
Lemma two_steps_answered ncfg nreq' pcfg (preq : jsstring -> ParserRequest)
    (fallback : jsstring) (finish : jsstring -> ParserResponse -> HttpResponse) tr :
  (forall text pres, status (finish text pres) = 200) ->
  answered true tr
    ((narrativeResult ← generateNarrative env ncfg nreq';
      match (if success narrativeResult then given (narrative narrativeResult) else None) with
      | None => mret (narrativeFailure (default fallback (given (error narrativeResult))))
      | Some text =>
          parseResult ← parseNarrative env pcfg (preq text);
          mret (finish text parseResult)
      end) tr).
Proof.
  intros Hfin.
  destruct (generateNarrative_run env ncfg nreq' tr) as (nres & tr1 & Hrun & Hreq).
  unfold mbind, M_bind. rewrite Hrun.
  destruct (if success nres then given (narrative nres) else None) as [text|].
  - destruct (parseNarrative_requests pcfg (preq text) tr1) as (pres & tr2 & Hrun2 & Hreq2).
    rewrite Hrun2. eapply answered_two; [apply Hfin|]. by rewrite Hreq2, Hreq.
  - eapply answered_one; [reflexivity|exact Hreq].
Qed.

End RouteProofs.

(** X21.  No route of the two-call service throws or answers 500 for a
    request whose body has the declared shape.  A request that lacks an
    endpoint or a key (or, for [/parse], the narrative) is answered 400
    before anything is sent; every other request is answered 200, after
    the narrative request alone or after the narrative and the parser
    request. *)
Theorem routes_answer_200_or_400 (env : Env) (tr : list event) :
  (forall req,
     answered (bool_decide (is_Some (DualApi.configured (DualApi.i_narrativeConfig req)))
               && bool_decide (is_Some (DualApi.configured (DualApi.i_parserConfig req))))
       tr (DualApi.initRoute env req tr))
  /\ (forall req,
        answered (bool_decide (is_Some (DualApi.configured (DualApi.n_config req))))
          tr (DualApi.narrativeRoute env req tr))
  /\ (forall req,
        answered (bool_decide (is_Some (DualApi.configured (DualApi.q_config req)))
                  && bool_decide (is_Some (DualApi.given (DualApi.q_narrative req))))
          tr (DualApi.parseRoute env req tr))
  /\ (forall req,
        answered (bool_decide (is_Some (DualApi.configured (DualApi.narrativeConfig req)))
                  && bool_decide (is_Some (DualApi.configured (DualApi.parserConfig req))))
          tr (DualApi.fullRound env req tr)).
Proof.
  assert (Hcatch : forall complete (body : M DualApi.HttpResponse) handler,
            answered complete tr (body tr) -> answered complete tr (try_catch body handler tr)).
  { intros complete body handler (response & Hout & H). unfold try_catch.
    destruct (body tr) as [[r|e] tr1]; [|discriminate]. by exists response. }
  split; [|split; [|split]]; intros req.
  - unfold DualApi.initRoute. apply Hcatch.
    destruct (DualApi.configured (DualApi.i_narrativeConfig req)) as [ncfg|];
      [|apply answered_400].
    destruct (DualApi.configured (DualApi.i_parserConfig req)) as [pcfg|];
      [|apply answered_400].
    apply (two_steps_answered env ncfg _ pcfg
             (fun text => {| DualApi.p_type := DualApi.init; DualApi.p_narrative := text;
                             DualApi.p_entities := None; DualApi.p_currentRound := None |})
             _ DualApi.initResult). done.
  - unfold DualApi.narrativeRoute. apply Hcatch.
    destruct (DualApi.configured (DualApi.n_config req)) as [config|]; [|apply answered_400].
    match goal with |- context [DualApi.generateNarrative env config ?r] =>
      destruct (generateNarrative_run env config r tr) as (nres & tr1 & Hrun & Hreq) end.
    unfold mbind, M_bind. rewrite Hrun. eapply answered_one; [reflexivity|exact Hreq].
  - unfold DualApi.parseRoute. apply Hcatch.
    destruct (DualApi.configured (DualApi.q_config req)) as [config|]; [|apply answered_400].
    destruct (DualApi.given (DualApi.q_narrative req)) as [text|]; [|apply answered_400].
    match goal with |- context [DualApi.parseNarrative env config ?r] =>
      destruct (parseNarrative_requests env config r tr) as (pres & tr1 & Hrun & Hreq) end.
    unfold mbind, M_bind. rewrite Hrun. eapply answered_one; [reflexivity|exact Hreq].
  - unfold DualApi.fullRound. apply Hcatch.
    destruct (DualApi.configured (DualApi.narrativeConfig req)) as [ncfg|];
      [|apply answered_400].
    destruct (DualApi.configured (DualApi.parserConfig req)) as [pcfg|];
      [|apply answered_400].
    apply (two_steps_answered env ncfg _ pcfg (DualApi.parserRequestOf req) _
             DualApi.roundResult). done.
Qed.

(** ** Blank narratives, and the hook of the browser *)

Section BlankNarrative.
Import DualApi.



End BlankNarrative.


Section FrontendMore.
Context (env : Env).

Lemma frontend_parseNarrative_run config narrative entities round st tr :
  exists result st1 tr1,
    Frontend.parseNarrative env config narrative entities round st tr = (Ok (result, st1), tr1)
    /\ Frontend.parserLoading st1 = false
    /\ Frontend.narrativeLoading st1 = Frontend.narrativeLoading st
    /\ requests tr1
       = requests tr
         ++ [EvRequest (js "/api/dual/parse")
               (Frontend.parseFetchBody config narrative entities round) 0].
Proof.
  unfold Frontend.parseNarrative, try_catch, mbind, M_bind, http_request, lift, mret, M_ret.
  cbv beta iota zeta.
  assert (Hreq : requests (tr ++ [EvRequest (js "/api/dual/parse")
                                    (Frontend.parseFetchBody config narrative entities round) 0])
                 = requests tr ++ [EvRequest (js "/api/dual/parse")
                                     (Frontend.parseFetchBody config narrative entities round) 0]).
  { rewrite requests_app. reflexivity. }
  destruct (http env _ _ _) as [result|e]; cbv beta iota; [|eauto 8].
  destruct (get result (js "rawText")) as [raw|e]; cbv beta iota; [|eauto 8].
  destruct (get result (js "parseSuccess")) as [ok|e]; cbv beta iota; [|eauto 8].
  destruct (get result (js "panelData")) as [panel|e]; cbv beta iota; [|eauto 8].
  destruct (get result (js "success")) as [success|e]; cbv beta iota; [|eauto 8].
  destruct (get result (js "error")) as [error|e]; cbv beta iota; eauto 8.
Qed.

Lemma frontend_generateNarrative_state config prompt ppo decisions round st tr :
  exists text st1 tr1,
    Frontend.generateNarrative env config prompt ppo decisions round st tr
    = (Ok (text, st1), tr1)
    /\ Frontend.narrativeLoading st1 = false
    /\ Frontend.parserLoading st1 = Frontend.parserLoading st
    /\ requests tr1
       = requests tr
         ++ [EvRequest (js "/api/dual/narrative")
               (Frontend.narrativeFetchBody config prompt ppo decisions round) 0].
Proof.
  unfold Frontend.generateNarrative, try_catch, mbind, M_bind, http_request, lift, mret, M_ret.
  cbv beta iota zeta.
  assert (Hreq : requests (tr ++ [EvRequest (js "/api/dual/narrative")
                                    (Frontend.narrativeFetchBody config prompt ppo decisions round) 0])
                 = requests tr ++ [EvRequest (js "/api/dual/narrative")
                                     (Frontend.narrativeFetchBody config prompt ppo decisions round) 0]).
  { rewrite requests_app. reflexivity. }
  destruct (http env _ _ _) as [result|e]; cbv beta iota; [|eauto 8].
  destruct (get result (js "success")) as [success|e]; cbv beta iota; [|eauto 8].
  destruct (get result (js "narrative")) as [text|e]; cbv beta iota; [|eauto 8].
  destruct (truthy success && truthy text); cbv beta iota; [eauto 8|].
  destruct (get result (js "error")) as [error|e]; cbv beta iota; eauto 8.
Qed.

End FrontendMore.

(** X23.  [executeFullRound] of the hook never throws, whatever the server
    and the network do.  It sends the narrative request and, only when
    that yielded a text, the parse request for that very text; it ends
    with the narrative loading flag cleared, and with the parser loading
    flag cleared or, when the parser was not called, as it was. *)
Theorem executeFullRound_total (env : Env) (ncfg pcfg : DualApi.ApiConfig)
    (prompt : jsstring) (entities : list DualApi.EntityInfo) (round : Z)
    (ppo : option jsstring) (decisions : option (list jsstring))
    (st : Frontend.DualApiState) (tr : list event) :
  exists out st' tr',
    Frontend.executeFullRound env ncfg pcfg prompt entities round ppo decisions st tr
    = (Ok (out, st'), tr')
    /\ Frontend.narrativeLoading st' = false
    /\ let narrativeRequest :=
         EvRequest (js "/api/dual/narrative")
           (Frontend.narrativeFetchBody ncfg prompt ppo decisions (Some round)) 0 in
       if truthy (Frontend.o_narrative out)
       then requests tr'
            = requests tr
              ++ [narrativeRequest;
                  EvRequest (js "/api/dual/parse")
                    (Frontend.parseFetchBody pcfg (Frontend.o_narrative out) entities round) 0]
            /\ Frontend.parserLoading st' = false
       else requests tr' = requests tr ++ [narrativeRequest]
            /\ Frontend.parserLoading st' = Frontend.parserLoading st
            /\ Frontend.o_parseResult out
               = {| Frontend.r_rawText := JNull; Frontend.r_parseSuccess := JBool false;
                    Frontend.r_panelData := JNull |}.
Proof.
  destruct (frontend_generateNarrative_state env ncfg prompt ppo decisions (Some round) st tr)
    as (text & st1 & tr1 & Hrun & Hload & Hpl & Hreq).
  unfold Frontend.executeFullRound, mbind, M_bind. rewrite Hrun. cbv beta iota.
  destruct (truthy text) eqn:Ht; cbn [negb]; cbv beta iota.
  - destruct (frontend_parseNarrative_run env pcfg text entities round st1 tr1)
      as (result & st2 & tr2 & Hrun2 & Hpl2 & Hnl2 & Hreq2).
    rewrite Hrun2. cbv beta iota. do 3 eexists. split; [reflexivity|].
    cbn [Frontend.o_narrative Frontend.o_parseResult]. rewrite Ht.
    split; [congruence|]. split; [|exact Hpl2].
    rewrite Hreq2, Hreq, <- app_assoc. reflexivity.
  - do 3 eexists. split; [reflexivity|].
    cbn [Frontend.o_narrative Frontend.o_parseResult truthy].
    split; [exact Hload|]. split; [exact Hreq|]. split; [exact Hpl|reflexivity].
Qed.

(** ** The request body: templates *)

Section BodyProofs.

Lemma jsval_nested_ind (P : jsval -> Prop) :
  P JUndefined -> P JNull -> (forall b, P (JBool b)) -> (forall n, P (JNumber n)) ->
  (forall s, P (JString s)) ->
  (forall items, Forall P items -> P (JArray items)) ->
  (forall props, Forall (fun kv : jsstring * jsval => P kv.2) props -> P (JObject props)) ->
  forall v, P v.
Proof.
  intros Hu Hn Hb Hnum Hs Ha Ho.
  fix IH 1. intros [| |b|n|s|items|props];
    [exact Hu|exact Hn|apply Hb|apply Hnum|apply Hs| |].
  - apply Ha. induction items as [|x items IHl]; constructor; [apply IH|exact IHl].
  - apply Ho. induction props as [|[k x] props IHl]; constructor; [apply IH|exact IHl].
Qed.

Lemma startsWith_refl s : startsWith s s = true.
Proof. induction s as [|c s IH]; [reflexivity|]. cbn [startsWith]. by rewrite Z.eqb_refl. Qed.

Lemma includes_refl s : includes s s = true.
Proof. destruct s as [|c s]; [reflexivity|]. cbn [includes]. by rewrite startsWith_refl. Qed.

Lemma replaceFrom_absent pattern replacement : forall rest before,
  includes rest pattern = false -> replaceFrom pattern replacement before rest 0 = rest.
Proof.
  induction rest as [|c r IH]; intros before H; [reflexivity|].
  cbn [includes] in H. apply orb_false_iff in H as [Hs Hi].
  cbn [replaceFrom]. rewrite Hs. f_equal. by apply IH.
Qed.

Lemma replaceAll_absent pattern replacement s :
  includes s pattern = false -> replaceAll pattern replacement s = s.
Proof. apply replaceFrom_absent. Qed.

Lemma replacePlaceholders_free prompt : forall v,
  placeholderFree v = true -> replacePlaceholders prompt v = v.
Proof.
  induction v as [| |b|n|s|items IH|props IH] using jsval_nested_ind; intros H; try reflexivity.
  - cbn [placeholderFree] in H. apply andb_prop in H as [H1 H2].
    apply negb_true_iff in H1, H2. cbn [replacePlaceholders].
    assert (streq s promptPlaceholder = false) as ->.
    { apply streq_false. intros ->. by rewrite includes_refl in H1. }
    assert (streq s PROMPTPlaceholder = false) as ->.
    { apply streq_false. intros ->. by rewrite includes_refl in H2. }
    cbn [orb]. rewrite (replaceAll_absent _ _ _ H1). by rewrite (replaceAll_absent _ _ _ H2).
  - cbn [placeholderFree] in H. cbn [replacePlaceholders]. f_equal.
    induction IH as [|x items Hx _ IHl]; [reflexivity|].
    cbn [forallb] in H. apply andb_prop in H as [H1 H2].
    cbn [map]. by rewrite Hx, IHl.
  - cbn [placeholderFree] in H. cbn [replacePlaceholders]. f_equal.
    induction IH as [|[k x] props Hx _ IHl]; [reflexivity|].
    cbn [forallb fst snd] in H. apply andb_prop in H as [H1 H2].
    apply andb_prop in H1 as [Hk Hf]. apply negb_true_iff in Hk.
    rewrite Hk. cbn [snd] in Hx. by rewrite Hx, IHl.
Qed.

(** The copy of an object is an object, the copy of an array an array. *)
Lemma jsonClone_typeof template body :
  truthy template && typeof_object template = true ->
  jsonClone template = Ok body ->
  truthy body && typeof_object body = true.
Proof.
  intros Ht H. unfold jsonClone in H.
  destruct template as [| |b|n|s|items|props];
    cbn [truthy typeof_object] in Ht; rewrite ?andb_false_r in Ht; try discriminate.
  - cbn [JSON_stringify] in H. unfold JSON_parse in H.
    match type of H with context [parse_value ?f ?t] =>
      destruct (parse_value f t) as [[v rest]|] eqn:Hp; [|discriminate] end.
    destruct (skip_ws rest); [|discriminate]. injection H as <-.
    cbn [app] in Hp. remember (_ ++ [93]) as tail eqn:Htail. clear Htail.
    cbn [length parse_value] in Hp.
    change (skip_ws (91 :: tail)) with (91 :: tail) in Hp. cbv beta iota in Hp.
    change (91 =? 123) with false in Hp. change (91 =? 91) with true in Hp. cbv beta iota in Hp.
    assert (Hm : forall f r, parse_elements f tail [] = Some (v, r) ->
                             truthy v && typeof_object v = true).
    { intros f r Hm. by destruct (parse_elements_array _ _ _ _ _ Hm) as (items' & ->). }
    destruct (skip_ws tail) as [|c1 r1]; [by apply (Hm _ _ Hp)|].
    destruct (Z.eq_dec c1 93) as [->|Hne].
    + by injection Hp as <- _.
    + destruct c1; try (by apply (Hm _ _ Hp)). repeat (destruct p; try (by apply (Hm _ _ Hp)); try done).
  - cbn [JSON_stringify] in H. unfold JSON_parse in H.
    match type of H with context [parse_value ?f ?t] =>
      destruct (parse_value f t) as [[v rest]|] eqn:Hp; [|discriminate] end.
    destruct (skip_ws rest); [|discriminate]. injection H as <-.
    cbn [app] in Hp. remember (_ ++ [125]) as tail eqn:Htail. clear Htail.
    cbn [length parse_value] in Hp.
    change (skip_ws (123 :: tail)) with (123 :: tail) in Hp. cbv beta iota in Hp.
    change (123 =? 123) with true in Hp. cbv beta iota in Hp.
    assert (Hm : forall f r, parse_members f tail [] = Some (v, r) ->
                             truthy v && typeof_object v = true).
    { intros f r Hm. destruct (parse_members_NoDup _ _ _ _ _ Hm) as (props' & -> & _);
        [constructor|reflexivity]. }
    destruct (skip_ws tail) as [|c1 r1]; [by apply (Hm _ _ Hp)|].
    destruct (Z.eq_dec c1 125) as [->|Hne].
    + by injection Hp as <- _.
    + destruct c1; try (by apply (Hm _ _ Hp)). repeat (destruct p; try (by apply (Hm _ _ Hp)); try done).
Qed.

End BodyProofs.

(** ** The request body: history *)

Section BodyProofs2.

Lemma findSystemIndex_skip m rest :
  notSystem m ->
  findSystemIndex (m :: rest) = (i ← findSystemIndex rest; Ok (option_map S i)).
Proof.
  intros (r & Hr & Hne). cbn [findSystemIndex]. rewrite Hr. cbn [mbind Ex_bind].
  destruct r as [| |b|n|s|items|props]; try reflexivity.
  destruct (streq s (js "system")) eqn:E; [|reflexivity].
  apply streq_true in E as ->. done.
Qed.

Lemma findSystemIndex_found pre sys post :
  Forall notSystem pre -> get sys (js "role") = Ok (JString (js "system")) ->
  findSystemIndex (pre ++ sys :: post) = Ok (Some (length pre)).
Proof.
  intros Hpre Hsys. induction Hpre as [|m pre Hm _ IH].
  - cbn [app findSystemIndex length]. rewrite Hsys. reflexivity.
  - cbn [app length]. rewrite (findSystemIndex_skip _ _ Hm), IH. reflexivity.
Qed.

Lemma findSystemIndex_none items :
  Forall notSystem items -> findSystemIndex items = Ok None.
Proof.
  induction 1 as [|m items Hm _ IH]; [reflexivity|].
  rewrite (findSystemIndex_skip _ _ Hm), IH. reflexivity.
Qed.

Lemma findSystemIndex_null pre bad post :
  Forall notSystem pre -> nullish bad = true ->
  findSystemIndex (pre ++ bad :: post)
  = Throw (TypeError "Cannot read properties of undefined or null").
Proof.
  intros Hpre Hbad. induction Hpre as [|m pre Hm _ IH].
  - cbn [app findSystemIndex]. by destruct bad.
  - cbn [app]. rewrite (findSystemIndex_skip _ _ Hm), IH. reflexivity.
Qed.

Lemma buildRequestBody_Ok template body prompt history tr result :
  truthy template && typeof_object template = true ->
  jsonClone template = Ok body ->
  insertHistory (replacePlaceholders prompt body) history = Ok result ->
  truthy result && typeof_object result = true ->
  buildRequestBody template prompt history tr = (Ok result, tr).
Proof.
  intros Ht Hc Hi Hr. unfold buildRequestBody. rewrite Ht.
  unfold try_catch, mbind, M_bind, lift, mret, M_ret. cbv beta iota.
  rewrite Hc. cbv beta iota. rewrite Hi. cbv beta iota. rewrite Hr. reflexivity.
Qed.

Lemma buildRequestBody_Throw template body prompt history tr e :
  truthy template && typeof_object template = true ->
  jsonClone template = Ok body ->
  insertHistory (replacePlaceholders prompt body) history = Throw e ->
  buildRequestBody template prompt history tr
  = (Throw (mkError None
              (Some (js "bodyTemplate处理失败: " ++ default (js "undefined") (err_message e)))
              None None),
     tr ++ [EvLog LError (js "Failed to process bodyTemplate") (err_message e)]).
Proof.
  intros Ht Hc Hi. unfold buildRequestBody. rewrite Ht.
  unfold try_catch, mbind, M_bind, lift, mret, M_ret, throw, emit. cbv beta iota.
  rewrite Hc. cbv beta iota. rewrite Hi. reflexivity.
Qed.

End BodyProofs2.

(** X8.  A template without a placeholder yields a body that does not
    depend on the prompt: the prompt is not sent.  Without history the
    body is the JSON copy of the template itself. *)
Theorem buildRequestBody_without_placeholder (template body : jsval)
    (history : list ConversationMessage) (tr : list event) :
  truthy template && typeof_object template = true ->
  jsonClone template = Ok body ->
  placeholderFree body = true ->
  (forall prompt prompt',
     buildRequestBody template prompt history tr = buildRequestBody template prompt' history tr)
  /\ (forall prompt, buildRequestBody template prompt [] tr = (Ok body, tr)).
Proof.
  intros Ht Hc Hfree. split.
  - intros prompt prompt'. unfold buildRequestBody. rewrite Ht.
    unfold try_catch, mbind, M_bind, lift. cbv beta iota. rewrite Hc. cbv beta iota.
    by rewrite !(replacePlaceholders_free _ _ Hfree).
  - intros prompt. eapply buildRequestBody_Ok; [exact Ht|exact Hc| |].
    + by rewrite (replacePlaceholders_free _ _ Hfree).
    + by eapply jsonClone_typeof.
Qed.

(** X9.  The history is spliced into the [messages] array of the body
    right after its first system message, and in front of all messages
    when there is none. *)
Theorem buildRequestBody_history_position (template body : jsval)
    (props : list (jsstring * jsval)) (items : list jsval) (prompt : jsstring)
    (history : list ConversationMessage) (tr : list event) :
  truthy template && typeof_object template = true ->
  jsonClone template = Ok body ->
  replacePlaceholders prompt body = JObject props ->
  obj_lookup props (js "messages") = Some (JArray items) ->
  history <> [] ->
  (forall pre sys post,
     items = pre ++ sys :: post -> Forall notSystem pre ->
     get sys (js "role") = Ok (JString (js "system")) ->
     buildRequestBody template prompt history tr
     = (Ok (JObject (obj_set props (js "messages")
                       (JArray (pre ++ sys :: map messageJson history ++ post)))), tr))
  /\ (Forall notSystem items ->
      buildRequestBody template prompt history tr
      = (Ok (JObject (obj_set props (js "messages")
                        (JArray (map messageJson history ++ items)))), tr)).
Proof.
  intros Ht Hc Hr Hm Hh.
  assert (Hins : forall i, findSystemIndex items = Ok i ->
            buildRequestBody template prompt history tr
            = (Ok (JObject (obj_set props (js "messages")
                              (JArray (take (match i with Some i => S i | None => 0%nat end) items
                                       ++ map messageJson history
                                       ++ drop (match i with Some i => S i | None => 0%nat end)
                                            items)))), tr)).
  { intros i Hi. eapply buildRequestBody_Ok; [exact Ht|exact Hc| |reflexivity].
    rewrite Hr. unfold insertHistory. destruct history as [|h0 hs]; [done|].
    cbn [get]. rewrite Hm. cbn [default from_option mbind Ex_bind]. unfold Datatypes.id.
    rewrite Hi. reflexivity. }
  split.
  - intros pre sys post -> Hpre Hsys.
    rewrite (Hins _ (findSystemIndex_found pre sys post Hpre Hsys)).
    assert (Ht' : take (S (length pre)) (pre ++ sys :: post) = pre ++ [sys]).
    { rewrite (cons_middle sys pre post), app_assoc.
      replace (S (length pre)) with (length (pre ++ [sys])) by (rewrite length_app; cbn; lia).
      apply take_app_length. }
    assert (Hd' : drop (S (length pre)) (pre ++ sys :: post) = post).
    { rewrite (cons_middle sys pre post), app_assoc.
      replace (S (length pre)) with (length (pre ++ [sys])) by (rewrite length_app; cbn; lia).
      apply drop_app_length. }
    rewrite Ht', Hd', <- app_assoc. reflexivity.
  - intros Hall. rewrite (Hins _ (findSystemIndex_none items Hall)).
    by rewrite take_0, drop_0.
Qed.

(** X10.  With a history to insert, a template whose [messages] array
    holds [null] before any system message cannot be processed:
    [callAI] fails at once with the wrapped error, after logging it, and
    sends no request at all. *)
Theorem callAIWith_malformed_template (env : Env) (config : AIConfig)
    (template body : jsval) (props : list (jsstring * jsval)) (pre post : list jsval)
    (bad : jsval) (prompt : jsstring) (retries : Z) (timeout : option Z)
    (history : list ConversationMessage) (tr : list event) :
  default [] (endpoint config) <> [] ->
  truthy template && typeof_object template = true ->
  jsonClone template = Ok body ->
  replacePlaceholders prompt body = JObject props ->
  obj_lookup props (js "messages") = Some (JArray (pre ++ bad :: post)) ->
  Forall notSystem pre ->
  nullish bad = true ->
  history <> [] ->
  exists detail,
    callAIWith env config template prompt retries timeout history tr
    = (Throw (mkError None (Some (js "bodyTemplate处理失败: " ++ detail)) None None),
       tr ++ [EvLog LError (js "Failed to process bodyTemplate") (Some detail)]).
Proof.
  intros He Ht Hc Hr Hm Hpre Hbad Hh.
  exists (js "Cannot read properties of undefined or null").
  unfold callAIWith. destruct (endpoint config) as [[|c r]|] eqn:E; try done.
  rewrite (buildRequestBody_Throw template body prompt history tr
             (TypeError "Cannot read properties of undefined or null") Ht Hc).
  - unfold callAI. rewrite E. reflexivity.
  - rewrite Hr. unfold insertHistory. destruct history as [|h0 hs]; [done|].
    cbn [get]. rewrite Hm. cbn [default from_option mbind Ex_bind]. unfold Datatypes.id.
    by rewrite (findSystemIndex_null pre bad post Hpre Hbad).
Qed.

(** ** Segments of the background story *)

Section LoreManagement.
Context (env : Env).

Lemma dedupe_spec l : forall seen,
  NoDup (dedupe seen l) /\ (forall x, x ∈ dedupe seen l -> (x ∉ seen) /\ x ∈ l).
Proof.
  induction l as [|x r IH]; intros seen; cbn [dedupe].
  - split; [constructor|]. intros x Hx. by apply elem_of_nil in Hx.
  - case_bool_decide as Hin.
    + destruct (IH seen) as [Hnd Hsub]. split; [exact Hnd|].
      intros y Hy. destruct (Hsub y Hy). split; [done|by right].
    + destruct (IH (x :: seen)) as [Hnd Hsub]. split.
      * constructor; [|exact Hnd]. intros Hx. destruct (Hsub x Hx) as [Hn _].
        apply Hn. by left.
      * intros y Hy. apply elem_of_cons in Hy as [->|Hy]; [split; [done|by left]|].
        destruct (Hsub y Hy) as [Hn Hr]. split; [|by right].
        intros Hs. apply Hn. by right.
Qed.

Lemma span_app p s : s = (span p s).1 ++ (span p s).2.
Proof.
  induction s as [|c r IH]; [reflexivity|]. cbn [span].
  destruct (p c); [|reflexivity]. destruct (span p r) as [a b]. cbn [fst snd] in *.
  by rewrite IH at 1.
Qed.

Lemma occursIn_cons k c s : occursIn k s -> occursIn k (c :: s).
Proof. intros (Hk & a & b & ->). split; [exact Hk|]. by exists (c :: a), b. Qed.

Lemma quotedMatches_occur s : forall skip,
  Forall (fun k => occursIn k s) (quotedMatches skip s).
Proof.
  induction s as [|c r IH]; intros skip; cbn [quotedMatches]; [constructor|].
  assert (Hr : forall n, Forall (fun k => occursIn k (c :: r)) (quotedMatches n r)).
  { intros n. eapply Forall_impl; [apply IH|]. intros k. apply occursIn_cons. }
  destruct skip as [|n]; [|apply Hr].
  pose proof (span_app (fun x => negb (isCloseQuote x)) r) as Hs.
  destruct (span (fun x => negb (isCloseQuote x)) r) as [inner rest]. cbn [fst snd] in Hs.
  destruct (isOpenQuote c && negb (streq inner []) && _) eqn:E; [|apply Hr].
  constructor; [|apply Hr].
  apply andb_prop in E as [E _]. apply andb_prop in E as [_ E].
  apply negb_true_iff, streq_false in E.
  split; [exact E|]. exists [c], rest. by rewrite Hs at 1.
Qed.

Lemma nameMatchAt_occurs s m : nameMatchAt s = Some m -> occursIn m s.
Proof.
  unfold nameMatchAt. intros H.
  assert (Hk : forall k n, (2 <= k)%nat -> (0 < n)%nat ->
            ((length (take k s) =? k)%nat && forallb isChinese (take k s)
             && existsb (startsWith (drop k s)) nameSuffixes) = true ->
            occursIn (take n s) s).
  { intros k n Hk Hn E. apply andb_prop in E as [E _]. apply andb_prop in E as [E _].
    apply Nat.eqb_eq in E. split.
    - destruct s as [|c r]; [rewrite take_nil in E; cbn in E; lia|].
      destruct n; [lia|]. done.
    - exists [], (drop n s). by rewrite app_nil_l, take_drop. }
  repeat match type of H with
         | (if ?b then _ else _) = _ => destruct b eqn:?
         end; try discriminate; injection H as <-; eapply Hk; try eassumption; lia.
Qed.

Lemma nameMatches_occur s : forall skip,
  Forall (fun k => occursIn k s) (nameMatches skip s).
Proof.
  induction s as [|c r IH]; intros skip; cbn [nameMatches]; [constructor|].
  assert (Hr : forall n, Forall (fun k => occursIn k (c :: r)) (nameMatches n r)).
  { intros n. eapply Forall_impl; [apply IH|]. intros k. apply occursIn_cons. }
  destruct skip as [|n]; [|apply Hr].
  destruct (nameMatchAt (c :: r)) as [m|] eqn:E; [|apply Hr].
  constructor; [|apply Hr]. by apply nameMatchAt_occurs.
Qed.

Lemma splitParagraphs_pieces s : forall inSeparator current p,
  (inSeparator = true -> current = []) ->
  p ∈ splitParagraphs inSeparator current s ->
  exists a b, current ++ s = a ++ p ++ b.
Proof.
  induction s as [|c r IH]; intros inSeparator current p Hinv; cbn [splitParagraphs].
  - intros ->%list_elem_of_singleton. exists [], []. by rewrite app_nil_l.
  - destruct (inSeparator && (c =? 10)) eqn:E1.
    + apply andb_prop in E1 as [-> _]. rewrite (Hinv eq_refl). intros Hp.
      destruct (IH true [] p (fun _ => eq_refl) Hp) as (a & b & Hab).
      exists (c :: a), b. cbn [app] in *. by rewrite Hab.
    + destruct ((c =? 10) && startsWith r [10]) eqn:E2.
      * intros [->|Hp]%elem_of_cons.
        -- exists [], (c :: r). by rewrite app_nil_l.
        -- destruct (IH true [] p (fun _ => eq_refl) Hp) as (a & b & Hab).
           exists (current ++ c :: a), b. cbn [app] in Hab. rewrite Hab.
           by rewrite <- app_assoc.
      * intros Hp. destruct (IH false (current ++ [c]) p ltac:(done) Hp) as (a & b & Hab).
        exists a, b. rewrite <- Hab, <- app_assoc. reflexivity.
Qed.

Lemma occursIn_inside k p a b : occursIn k p -> occursIn k (a ++ p ++ b).
Proof.
  intros (Hk & a' & b' & ->). split; [exact Hk|].
  exists (a ++ a'), (b' ++ b). by rewrite <- !app_assoc.
Qed.

End LoreManagement.

(** X5.  Every segment that [segmentBackgroundStory] makes of a story has
    at most five keywords, all different, none empty, each occurring in
    the story; and its text is at most 203 characters long. *)
Theorem segmentBackgroundStory_bounds (story : jsstring) :
  Forall (fun segment : list jsstring * jsstring =>
            (length segment.1 <= 5)%nat
            /\ NoDup segment.1
            /\ Forall (fun k => k <> [] /\ exists a b, story = a ++ k ++ b) segment.1
            /\ (length segment.2 <= 203)%nat)
    (segmentBackgroundStory story).
Proof.
  unfold segmentBackgroundStory. apply Forall_map, Forall_forall.
  intros paragraph Hp. cbn [fst snd].
  apply list_elem_of_In, filter_In in Hp as [Hp _]. apply list_elem_of_In in Hp.
  destruct (splitParagraphs_pieces story false [] paragraph ltac:(done) Hp) as (a & b & Hab).
  cbn [app] in Hab.
  destruct (dedupe_spec (quotedMatches 0 paragraph ++ nameMatches 0 paragraph) [])
    as [Hnd Hsub].
  split; [rewrite length_take; lia|].
  split; [eapply sublist_NoDup; [exact Hnd|apply sublist_take]|].
  split.
  - apply Forall_forall. intros k Hk.
    apply (fun H => elem_of_sublist _ _ _ H (sublist_take _ _)) in Hk.
    destruct (Hsub k Hk) as [_ Hin].
    assert (Ho : occursIn k paragraph).
    { apply elem_of_app in Hin as [Hin|Hin].
      - by apply (proj1 (Forall_forall _ _) (quotedMatches_occur paragraph 0)).
      - by apply (proj1 (Forall_forall _ _) (nameMatches_occur paragraph 0)). }
    rewrite Hab. apply (occursIn_inside k paragraph a b Ho).
  - destruct (200 <? length paragraph)%nat eqn:E.
    + unfold substring0. rewrite length_app, length_take.
      change (length (js "...")) with 3%nat. lia.
    + apply Nat.ltb_ge in E. lia.
Qed.

(** ** Lore extracted from a result *)

Section LoreGrowth.

Lemma grows_refl sessionId c : grows sessionId c c [].
Proof. split; [done|]. by rewrite app_nil_r. Qed.

Lemma grows_add sessionId c e : grows sessionId c (addLorebookEntry c sessionId e) [e].
Proof.
  unfold grows, addLorebookEntry. split.
  - intros other Hne. by rewrite lookup_insert_ne.
  - by rewrite lookup_insert_eq.
Qed.

Lemma grows_trans sessionId c1 c2 c3 a b :
  grows sessionId c1 c2 a -> grows sessionId c2 c3 b -> grows sessionId c1 c3 (a ++ b).
Proof.
  intros [H1 H1'] [H2 H2']. split.
  - intros other Hne. by rewrite H2, H1.
  - by rewrite H2', H1', app_assoc.
Qed.

Lemma grows_delete sessionId c c' added :
  grows sessionId c c' added -> delete sessionId c' = delete sessionId c.
Proof.
  intros [H _]. apply map_eq. intros k.
  destruct (decide (k = sessionId)) as [->|Hne].
  - by rewrite !lookup_delete_eq.
  - rewrite !lookup_delete_ne by done. by apply H.
Qed.

Lemma eventEntry_recorded round index ev entry :
  eventEntry round index ev = Ok (Some entry) -> recordedEntry entry.
Proof.
  unfold eventEntry, mbind, Ex_bind. intros H.
  repeat (case_match; try discriminate).
  all: injection H as <-; unfold recordedEntry, loreEntry; cbn; auto 10.
Qed.

Lemma achievementEntry_recorded ach entry :
  achievementEntry ach = Ok entry -> recordedEntry entry.
Proof.
  unfold achievementEntry, mbind, Ex_bind. intros H.
  repeat (case_match; try discriminate).
  all: injection H as <-; unfold recordedEntry, loreEntry; cbn; auto 10.
Qed.

Lemma addEventEntries_grows sessionId round events : forall c index,
  exists added,
    grows sessionId c (addEventEntries c sessionId round index events).2 added
    /\ Forall recordedEntry added.
Proof.
  induction events as [|ev rest IH]; intros c index; cbn [addEventEntries].
  - exists []. split; [apply grows_refl|constructor].
  - destruct (eventEntry round index ev) as [[entry|]|e] eqn:E.
    + destruct (IH (addLorebookEntry c sessionId entry) (S index)) as (added & Hg & Hf).
      exists ([entry] ++ added). split.
      * eapply grows_trans; [apply grows_add|exact Hg].
      * constructor; [by eapply eventEntry_recorded|exact Hf].
    + apply IH.
    + exists []. split; [apply grows_refl|constructor].
Qed.

Lemma addAchievementEntries_grows sessionId achievements : forall c,
  exists added,
    grows sessionId c (addAchievementEntries c sessionId achievements).2 added
    /\ Forall recordedEntry added.
Proof.
  induction achievements as [|ach rest IH]; intros c; cbn [addAchievementEntries].
  - exists []. split; [apply grows_refl|constructor].
  - destruct (achievementEntry ach) as [entry|e] eqn:E.
    + destruct (IH (addLorebookEntry c sessionId entry)) as (added & Hg & Hf).
      exists ([entry] ++ added). split.
      * eapply grows_trans; [apply grows_add|exact Hg].
      * constructor; [by eapply achievementEntry_recorded|exact Hf].
    + exists []. split; [apply grows_refl|constructor].
Qed.

Lemma extractAndAddLoreFromResult_grows c sessionId round result :
  exists added,
    grows sessionId c (extractAndAddLoreFromResult c sessionId round result).2 added
    /\ Forall recordedEntry added.
Proof.
  unfold extractAndAddLoreFromResult.
  destruct (get result (js "events")) as [events|e]; cbn [snd].
  2:{ exists []. split; [apply grows_refl|constructor]. }
  assert (H1 : exists added1,
            grows sessionId c
              (match events with
               | JArray items => addEventEntries c sessionId round 0 items
               | _ => (Ok tt, c)
               end).2 added1 /\ Forall recordedEntry added1).
  { destruct events; try (exists []; split; [apply grows_refl|constructor]).
    apply addEventEntries_grows. }
  destruct (match events with
            | JArray items => addEventEntries c sessionId round 0 items
            | _ => (Ok tt, c)
            end) as [done cache1].
  cbn [snd] in H1. destruct H1 as (added1 & Hg1 & Hf1).
  destruct done as [[]|e]; cbn [snd]; [|by exists added1].
  destruct (get result (js "achievements")) as [achievements|e]; cbn [snd];
    [|by exists added1].
  destruct achievements as [| | | | |items|]; cbn [snd]; try (by exists added1).
  destruct (addAchievementEntries_grows sessionId items cache1) as (added2 & Hg2 & Hf2).
  exists (added1 ++ added2). split.
  - eapply grows_trans; eassumption.
  - by apply Forall_app.
Qed.

End LoreGrowth.

(** X6.  [extractAndAddLoreFromResult] only appends: the entries that the
    session had stay in front, unchanged; every entry added is an enabled
    event entry of priority 30 or 40 without activation limit; and no
    other session is touched.  This holds also when the extraction stops
    with an exception. *)
Theorem extractAndAddLoreFromResult_appends
    (lorebookCache : gmap (list Z) (list LorebookEntry)) (sessionId : jsstring)
    (round : Z) (result : jsval) :
  let cache' := (extractAndAddLoreFromResult lorebookCache sessionId round result).2 in
  delete sessionId cache' = delete sessionId lorebookCache
  /\ exists added,
       default [] (cache' !! sessionId) = default [] (lorebookCache !! sessionId) ++ added
       /\ Forall (fun e => category e = event_cat /\ lore_enabled e = true
                           /\ maxActivations e = None /\ activationCount e = None
                           /\ (priority e = 30 \/ priority e = 40)) added.
Proof.
  intros cache'. subst cache'.
  destruct (extractAndAddLoreFromResult_grows lorebookCache sessionId round result)
    as (added & Hg & Hf).
  split; [by eapply grows_delete|].
  exists added. split; [apply Hg|exact Hf].
Qed.

(** ** The inference pipeline *)

Section InferenceProofs.
Context (env : Env) (percentText : Z -> Z -> jsstring).



Lemma getConversationHistory_run sessionId currentRound config tr :
  exists history ext,
    getConversationHistory env sessionId currentRound config tr = (Ok history, tr ++ ext)
    /\ requests ext = [] /\ saves ext = [].
Proof.
  unfold getConversationHistory.
  destruct (negb (enabled (mergeHistoryConfig config))).
  { exists [], []. by rewrite app_nil_r. }
  unfold try_catch, mbind, M_bind, emit, lift, mret, M_ret. cbv beta iota.
  destruct (findMany env sessionId _ currentRound) as [[|m history]|e]; cbv beta iota.
  - by eexists _, [_].
  - destruct (_ && _); by eexists _, [_].
  - eexists _, [_; _]. rewrite <- app_assoc. by split.
Qed.

Lemma buildRequestBody_run bodyTemplate prompt history tr :
  exists ext,
    (buildRequestBody bodyTemplate prompt history tr).2 = tr ++ ext
    /\ requests ext = [] /\ saves ext = [].
Proof.
  unfold buildRequestBody.
  destruct (truthy bodyTemplate && typeof_object bodyTemplate).
  2:{ exists []. by rewrite app_nil_r. }
  unfold try_catch, mbind, M_bind, emit, lift, mret, M_ret, throw. cbv beta iota.
  destruct (jsonClone bodyTemplate) as [body|e]; cbv beta iota.
  2:{ by exists [EvLog LError (js "Failed to process bodyTemplate") (err_message e)]. }
  destruct (insertHistory (replacePlaceholders prompt body) history) as [result|e];
    cbv beta iota.
  2:{ by exists [EvLog LError (js "Failed to process bodyTemplate") (err_message e)]. }
  destruct (truthy result && typeof_object result); cbv beta iota.
  - exists []. by rewrite app_nil_r.
  - by eexists [_].
Qed.

Lemma callAI_run config built retries timeout tr :
  exists ext,
    (callAI env config built retries timeout tr).2 = tr ++ ext
    /\ (length (requests ext) <= Z.to_nat retries)%nat /\ saves ext = [].
Proof.
  assert (Hnil : exists ext : list event,
            tr = tr ++ ext /\ (length (requests ext) <= Z.to_nat retries)%nat
            /\ saves ext = []).
  { exists []. rewrite app_nil_r. split; [done|]. split; [cbn; lia|done]. }
  unfold callAI. destruct (endpoint config) as [[|c r]|]; try exact Hnil.
  destruct built as [body|e]; [|exact Hnil].
  unfold mbind, M_bind, lift. cbv beta iota. rewrite notice_run. cbv beta iota.
  destruct (loop_bounded env (c :: r) (orDefault (provider config)) (disableStreaming body)
              (timeoutOrDefault timeout) retries (Z.to_nat retries) 1 None
              (tr ++ streamNotice body) ltac:(lia))
    as (ext & -> & Hreq & _ & _ & _ & Hsv).
  exists (streamNotice body ++ ext). rewrite <- app_assoc, requests_notice, saves_notice.
  by split.
Qed.

Lemma callAIWith_run config bodyTemplate prompt retries timeout history tr :
  exists ext,
    (callAIWith env config bodyTemplate prompt retries timeout history tr).2 = tr ++ ext
    /\ (length (requests ext) <= Z.to_nat retries)%nat /\ saves ext = [].
Proof.
  unfold callAIWith. destruct (endpoint config) as [[|c r]|] eqn:E; try apply callAI_run.
  destruct (buildRequestBody_run bodyTemplate prompt history tr) as (ext1 & H1 & Hr1 & Hs1).
  destruct (buildRequestBody bodyTemplate prompt history tr) as [built tr1].
  cbn [snd] in H1. subst tr1.
  destruct (callAI_run config built retries timeout (tr ++ ext1)) as (ext2 & H2 & Hr2 & Hs2).
  exists (ext1 ++ ext2). rewrite H2, <- app_assoc. split; [done|].
  rewrite requests_app, saves_app, Hr1, Hs1, Hs2. by split.
Qed.





Lemma callAIWith_down config bodyTemplate prompt retries timeout history tr errs :
  (forall k url body, http env k url body = Throw (errs k)) ->
  exists e, (callAIWith env config bodyTemplate prompt retries timeout history tr).1 = Throw e.
Proof.
  intros Hdown. unfold callAIWith, callAI.
  destruct (endpoint config) as [[|c r]|]; try by eexists.
  destruct (buildRequestBody bodyTemplate prompt history tr) as [[body|e] tr1];
    [|by eexists].
  unfold mbind, M_bind, lift. cbv beta iota. rewrite notice_run. cbv beta iota.
  rewrite (loop_fail_all env (c :: r) (orDefault (provider config)) (disableStreaming body)
             (timeoutOrDefault timeout) retries (Z.to_nat retries) 1 None
             (tr1 ++ streamNotice body)
             (fun j => errs (nreq (tr1 ++ streamNotice body) + j)%nat)).
  - by eexists.
  - intros j _. unfold attemptOutcome. by rewrite Hdown.
Qed.

End InferenceProofs.


(** X19.  While the service cannot be reached, an inference fails and
    writes nothing to the history table; yet the entries that its prompt
    has triggered have been counted as activated. *)
Theorem performInference_service_down (env : Env) (percentText : Z -> Z -> jsstring)
    (lorebookCache : gmap (list Z) (list LorebookEntry)) (config : AIConfig)
    (bodyTemplate : jsval) (request : InferenceRequest) (historyConfig : PartialHistoryConfig)
    (errs : nat -> JsError) :
  (forall k url body, http env k url body = Throw (errs k)) ->
  let out := performInference env percentText lorebookCache config bodyTemplate request
               historyConfig [] in
  let cache1 :=
    match ir_gameInitData request with
    | Some d =>
        if ir_currentRound request =? 1
        then initializeLorebook env lorebookCache (ir_sessionId request) (Some d) None
        else lorebookCache
    | None => lorebookCache
    end in
  (exists e, out.1.1 = Throw e)
  /\ saves out.2 = []
  /\ out.1.2
     = (getTriggeredLoreEntries cache1 (ir_sessionId request)
          (buildPrompt env percentText request (ir_gameRules request)) 2000).2.
Proof.
  intros Hdown out cache1. subst out. unfold performInference. fold cache1.
  destruct (getConversationHistory_run env (ir_sessionId request) (ir_currentRound request)
              historyConfig []) as (history & ext0 & -> & Hr0 & Hs0).
  set (base := buildPrompt env percentText request (ir_gameRules request)). clearbody base.
  destruct (getTriggeredLoreEntries cache1 (ir_sessionId request) base 2000)
    as [loreContent cache2].
  set (prompt := match loreContent with [] => base | _ :: _ => loreContent ++ [10; 10] ++ base end).
  clearbody prompt.
  destruct (callAIWith_down env config bodyTemplate prompt defaultRetries None history
              ([] ++ ext0) errs Hdown) as (e & He).
  destruct (callAIWith_run env config bodyTemplate prompt defaultRetries None history
              ([] ++ ext0)) as (ext1 & He1 & _ & Hs1).
  destruct (callAIWith env config bodyTemplate prompt defaultRetries None history ([] ++ ext0))
    as [res tr2]. cbn [fst snd] in He, He1. subst res tr2. cbn [fst snd app].
  split; [by exists e|]. split; [|reflexivity].
  by rewrite saves_app, Hs0, Hs1.
Qed.


(** ** The prompt *)

Section BuildPromptProofs.
Context (env : Env) (percentText : Z -> Z -> jsstring).






End BuildPromptProofs.


(** ** Instances *)




(** X17, witness. *)
Lemma mapEntityPanelsToOutcomes_indexed_witness :
  exists outcomes,
    sampleOutcomes = JArray outcomes
    /\ length outcomes = 1%nat
    /\ forall i out,
         outcomes !! i = Some out ->
         exists items panel,
           samplePanels = JArray items /\ items !! i = Some panel
           /\ get out (js "playerIndex") = Ok (JInt (Z.of_nat i))
           /\ (get out (js "resources") ≫= fun r => get r (js "passiveIncome"))
              = get panel (js "passiveIncome")
           /\ (get out (js "resources") ≫= fun r => get r (js "passiveExpense"))
              = get panel (js "passiveExpense").
Proof.
  apply (mapEntityPanelsToOutcomes_indexed samplePanels sampleOutcomes).
  vm_compute. reflexivity.
Defined.



(** X8, witness. *)
Lemma buildRequestBody_without_placeholder_witness :
  (forall prompt prompt',
     buildRequestBody fixedTemplate prompt earlier []
     = buildRequestBody fixedTemplate prompt' earlier [])
  /\ (forall prompt, buildRequestBody fixedTemplate prompt [] [] = (Ok fixedTemplate, [])).
Proof.
  apply (buildRequestBody_without_placeholder fixedTemplate fixedTemplate earlier []).
  - reflexivity.
  - vm_compute. reflexivity.
  - vm_compute. reflexivity.
Defined.

(** X9, witness. *)
Lemma buildRequestBody_history_position_witness :
  buildRequestBody chatTemplate (js "What happens next?") earlier []
  = (Ok (JObject [(js "model", JString (js "m1"));
                  (js "messages",
                   JArray [systemMessage;
                           JObject [(js "role", JString (js "assistant"));
                                    (js "content", JString (js "Round 1 went well."))];
                           JObject [(js "role", JString (js "user"));
                                    (js "content", JString (js "What happens next?"))]])]),
     []).
Proof.
  destruct (buildRequestBody_history_position chatTemplate chatTemplate
              [(js "model", JString (js "m1"));
               (js "messages",
                JArray [systemMessage;
                        JObject [(js "role", JString (js "user"));
                                 (js "content", JString (js "What happens next?"))]])]
              [systemMessage;
               JObject [(js "role", JString (js "user"));
                        (js "content", JString (js "What happens next?"))]]
              (js "What happens next?") earlier []) as [H _].
  - reflexivity.
  - vm_compute. reflexivity.
  - vm_compute. reflexivity.
  - vm_compute. reflexivity.
  - discriminate.
  - rewrite (H [] systemMessage
               [JObject [(js "role", JString (js "user"));
                         (js "content", JString (js "What happens next?"))]]).
    + vm_compute. reflexivity.
    + reflexivity.
    + constructor.
    + vm_compute. reflexivity.
Defined.

(** X10, witness. *)
Lemma callAIWith_malformed_template_witness :
  exists detail,
    callAIWith failingEnv someConfig brokenTemplate (js "What happens next?") 5 None earlier []
    = (Throw (mkError None (Some (js "bodyTemplate处理失败: " ++ detail)) None None),
       [] ++ [EvLog LError (js "Failed to process bodyTemplate") (Some detail)]).
Proof.
  apply (callAIWith_malformed_template failingEnv someConfig brokenTemplate brokenTemplate
           [(js "model", JString (js "m1")); (js "messages", JArray [JNull; systemMessage])]
           [] [systemMessage] JNull (js "What happens next?") 5 None earlier []).
  - vm_compute. discriminate.
  - reflexivity.
  - vm_compute. reflexivity.
  - vm_compute. reflexivity.
  - vm_compute. reflexivity.
  - constructor.
  - reflexivity.
  - discriminate.
Defined.

(** X19, witness. *)
Lemma performInference_service_down_witness :
  let out := performInference failingEnv percentOf {[ js "s" := [limitedEntry] ]} someConfig
               JUndefined sampleRequest noHistoryConfig [] in
  (exists e, out.1.1 = Throw e)
  /\ saves out.2 = []
  /\ out.1.2
     = (getTriggeredLoreEntries {[ js "s" := [limitedEntry] ]} (js "s")
          (buildPrompt failingEnv percentOf sampleRequest []) 2000).2.
Proof.
  apply (performInference_service_down failingEnv percentOf {[ js "s" := [limitedEntry] ]}
           someConfig JUndefined sampleRequest noHistoryConfig
           (fun k => match k with O => timeoutError | _ => serverError end)).
  intros k url body. destruct k; reflexivity.
Defined.

